(** * The LLM editor pipeline of the accountability ledger

    A shallow embedding of [backend/src/lib/services/editor.ts] (the
    editorial decision-and-publication pipeline) and of the scheduled
    handler [backend/src/handlers/intake-editor.ts].

    - Module [JS]: the fragment of JavaScript the editor relies on: strings
      as sequences of UTF-16 code units, numbers, dynamically typed
      values, [JSON.parse], and the conversions ([ToBoolean], [ToNumber],
      [ToPropertyKey]) that the editor applies to the untyped LLM output.
    - Module [Eff]: calls to the collaborating services (entity directory,
      claim store, source registry, LLM transport, DynamoDB, audit log) as
      operations of a free monad with exceptions; a run against an
      arbitrary environment yields a result and the trace of calls.
    - Module [Editor]: [parseEditorResponse], [checkForDuplicate],
      [getMatchedEntities], [processItem], [updateIntakeEditorStatus],
      [getEligibleItems], [runEditor] and the handler.
    - Module [Mem]: an in-memory environment used by the concrete examples.

    Numbers are modelled by exact rationals: the rounding of decimal
    literals to binary64 is not modelled. *)

From Stdlib Require Import List NArith ZArith QArith Qround Bool Ascii String Lia.
Import ListNotations.

Set Implicit Arguments.
Set Warnings "-register-all".

Local Open Scope N_scope.

Module JS.

(** ** Strings: sequences of UTF-16 code units *)

Abbreviation jschar := N (only parsing).
Abbreviation jsstring := (list N) (only parsing).

(** An ASCII literal as a JavaScript string. *)
Definition str (s : string) : jsstring :=
  map N_of_ascii (list_ascii_of_string s).

Fixpoint str_eqb (a b : jsstring) : bool :=
  match a, b with
  | [], [] => true
  | x :: a', y :: b' => (x =? y) && str_eqb a' b'
  | _, _ => false
  end.

(** [WhiteSpace] and [LineTerminator] code points (ECMA-262 12.2, 12.3):
    what [String.prototype.trim] strips and what [StrWhiteSpaceChar] is. *)
Definition isWhiteSpace (c : jschar) : bool :=
  (c =? 9) || (c =? 10) || (c =? 11) || (c =? 12) || (c =? 13) || (c =? 32)
  || (c =? 160) || (c =? 5760) || ((8192 <=? c) && (c <=? 8202))
  || (c =? 8232) || (c =? 8233) || (c =? 8239) || (c =? 8287)
  || (c =? 12288) || (c =? 65279).

Fixpoint dropWhile (p : jschar -> bool) (s : jsstring) : jsstring :=
  match s with
  | [] => []
  | c :: s' => if p c then dropWhile p s' else s
  end.

Fixpoint takeWhile (p : jschar -> bool) (s : jsstring) : jsstring :=
  match s with
  | [] => []
  | c :: s' => if p c then c :: takeWhile p s' else []
  end.

Definition trimStart (s : jsstring) : jsstring := dropWhile isWhiteSpace s.
Definition trimEnd (s : jsstring) : jsstring := rev (dropWhile isWhiteSpace (rev s)).

(** [String.prototype.trim] *)
Definition trim (s : jsstring) : jsstring := trimEnd (trimStart s).

(** [String.prototype.toLowerCase], on the Basic Latin and Latin-1 blocks;
    code units outside these blocks are left unchanged (the Unicode case
    tables beyond U+00FF are not modelled). *)
Definition lowerChar (c : jschar) : jschar :=
  if (65 <=? c) && (c <=? 90) then c + 32
  else if (192 <=? c) && (c <=? 222) && negb (c =? 215) then c + 32
  else c.

Definition toLowerCase (s : jsstring) : jsstring := map lowerChar s.

(** [String.prototype.toUpperCase], on the same blocks; U+00DF expands to
    two code units, U+00FF and U+00B5 leave Latin-1. *)
Definition upperChar (c : jschar) : jsstring :=
  if (97 <=? c) && (c <=? 122) then [c - 32]
  else if (224 <=? c) && (c <=? 254) && negb (c =? 247) then [c - 32]
  else if c =? 223 then [83; 83]
  else if c =? 255 then [376]
  else if c =? 181 then [924]
  else [c].

Definition toUpperCase (s : jsstring) : jsstring := flat_map upperChar s.

(** [String.prototype.startsWith] *)
Fixpoint startsWith (s prefix : jsstring) : bool :=
  match prefix, s with
  | [], _ => true
  | p :: prefix', c :: s' => (p =? c) && startsWith s' prefix'
  | _ :: _, [] => false
  end.

Definition endsWith (s suffix : jsstring) : bool :=
  startsWith (rev s) (rev suffix).

(** [s.substring(0, n)] *)
Definition substring0 (n : nat) (s : jsstring) : jsstring := firstn n s.

(** [s.split(sep)[0]] for a one-character separator *)
Definition splitHead (sep : jschar) (s : jsstring) : jsstring :=
  takeWhile (fun c => negb (c =? sep)) s.

(** Decimal digits of a natural number, as [Number::toString] prints an
    integer (below 10^21). *)
Fixpoint digitsOf (u : Decimal.uint) : jsstring :=
  match u with
  | Decimal.Nil => []
  | Decimal.D0 u' => 48 :: digitsOf u'
  | Decimal.D1 u' => 49 :: digitsOf u'
  | Decimal.D2 u' => 50 :: digitsOf u'
  | Decimal.D3 u' => 51 :: digitsOf u'
  | Decimal.D4 u' => 52 :: digitsOf u'
  | Decimal.D5 u' => 53 :: digitsOf u'
  | Decimal.D6 u' => 54 :: digitsOf u'
  | Decimal.D7 u' => 55 :: digitsOf u'
  | Decimal.D8 u' => 56 :: digitsOf u'
  | Decimal.D9 u' => 57 :: digitsOf u'
  end.

Definition natToString (n : N) : jsstring := digitsOf (N.to_uint n).

(** ** Numbers *)

Inductive JSNum :=
| NaN
| PInf
| NInf
| Fin (q : Q).

Definition Qltb (a b : Q) : bool := negb (Qle_bool b a).

(** [a < b] on numbers: false as soon as one side is [NaN]. *)
Definition num_lt (a b : JSNum) : bool :=
  match a, b with
  | NaN, _ | _, NaN => false
  | _, NInf => false
  | NInf, _ => true
  | PInf, _ => false
  | Fin _, PInf => true
  | Fin x, Fin y => Qltb x y
  end.

(** [a >= b] *)
Definition num_ge (a b : JSNum) : bool :=
  match a, b with
  | NaN, _ | _, NaN => false
  | _, _ => negb (num_lt a b)
  end.

(** [Math.max(a, b)] and [Math.min(a, b)]: [NaN] is contagious. *)
Definition mathMax (a b : JSNum) : JSNum :=
  match a, b with
  | NaN, _ | _, NaN => NaN
  | _, _ => if num_lt a b then b else a
  end.

Definition mathMin (a b : JSNum) : JSNum :=
  match a, b with
  | NaN, _ | _, NaN => NaN
  | _, _ => if num_lt b a then b else a
  end.

Definition zero : JSNum := Fin 0.
Definition one : JSNum := Fin 1.

Definition isDigit (c : jschar) : bool := (48 <=? c) && (c <=? 57).

Definition hexVal (c : jschar) : option N :=
  if isDigit c then Some (c - 48)
  else if (97 <=? c) && (c <=? 102) then Some (c - 87)
  else if (65 <=? c) && (c <=? 70) then Some (c - 55)
  else None.

(** Value of a digit string in a base, [None] when a character is not a
    digit of that base or the string is empty. *)
Fixpoint digitsValue (base : N) (acc : N) (s : jsstring) : option N :=
  match s with
  | [] => Some acc
  | c :: s' =>
      match hexVal c with
      | Some d => if d <? base then digitsValue base (acc * base + d) s' else None
      | None => None
      end
  end.

Definition radixValue (base : N) (s : jsstring) : option N :=
  match s with
  | [] => None
  | _ => digitsValue base 0 s
  end.

Definition span (p : jschar -> bool) (s : jsstring) : jsstring * jsstring :=
  (takeWhile p s, dropWhile p s).

(** [mantissa * 10^e], reduced. *)
Definition scale10 (neg : bool) (mantissa : N) (e : Z) : Q :=
  let m := (Z.of_N mantissa # 1)%Q in
  Qred ((if neg then Qopp m else m) * Qpower (10 # 1) e)%Q.

(** The exponent part [e|E, sign, digits] of a decimal literal; the whole
    rest of the literal must be consumed. *)
Definition exponentPart (s : jsstring) : option Z :=
  match s with
  | [] => Some 0%Z
  | c :: s1 =>
      if (c =? 101) || (c =? 69) then
        let '(neg, s2) :=
          match s1 with
          | 45 :: t => (true, t)
          | 43 :: t => (false, t)
          | _ => (false, s1)
          end in
        match s2 with
        | [] => None
        | _ =>
            match digitsValue 10 0 s2 with
            | Some v => Some (if neg then (- Z.of_N v)%Z else Z.of_N v)
            | None => None
            end
        end
      else None
  end.

(** A JSON number token (ECMA-404): [-? int frac? exp?]. *)
Definition parseJSONNumber (s : jsstring) : option Q :=
  let '(neg, s1) := match s with 45 :: t => (true, t) | _ => (false, s) end in
  let '(ip, s2) := span isDigit s1 in
  match ip with
  | [] => None
  | d :: ip' =>
      if (d =? 48) && negb (match ip' with [] => true | _ => false end) then None
      else
        let frac :=
          match s2 with
          | 46 :: t =>
              let '(fp, s3) := span isDigit t in
              match fp with [] => None | _ => Some (fp, s3) end
          | _ => Some ([], s2)
          end in
        match frac with
        | None => None
        | Some (fp, s3) =>
            match exponentPart s3, digitsValue 10 0 (ip ++ fp) with
            | Some e, Some m => Some (scale10 neg m (e - Z.of_nat (List.length fp)))
            | _, _ => None
            end
        end
  end.

(** [StrDecimalLiteral] without its sign (ECMA-262 7.1.4.1): [Infinity],
    [digits . digits? exp?], [. digits exp?] or [digits exp?]. *)
Definition strUnsignedDecimal (neg : bool) (s : jsstring) : JSNum :=
  if str_eqb s (str "Infinity") then (if neg then NInf else PInf)
  else
    let '(ip, s2) := span isDigit s in
    let '(fp, s3) :=
      match s2 with
      | 46 :: t => span isDigit t
      | _ => ([], s2)
      end in
    match ip, fp with
    | [], [] => NaN
    | _, _ =>
        match exponentPart s3, digitsValue 10 0 (ip ++ fp) with
        | Some e, Some m => Fin (scale10 neg m (e - Z.of_nat (List.length fp)))
        | _, _ => NaN
        end
    end.

(** [StringToNumber]: [ToNumber] applied to a string. *)
Definition stringToNumber (s : jsstring) : JSNum :=
  match trim s with
  | [] => zero
  | 48 :: x :: t =>
      let radix :=
        if (x =? 120) || (x =? 88) then Some 16
        else if (x =? 111) || (x =? 79) then Some 8
        else if (x =? 98) || (x =? 66) then Some 2
        else None in
      match radix with
      | Some b =>
          match radixValue b t with
          | Some v => Fin (Z.of_N v # 1)
          | None => NaN
          end
      | None => strUnsignedDecimal false (48 :: x :: t)
      end
  | 45 :: t => strUnsignedDecimal true t
  | 43 :: t => strUnsignedDecimal false t
  | t => strUnsignedDecimal false t
  end.

(** [Number.prototype.toFixed(2)] for a finite number in [0, 10^21): the
    integer [n] with [n / 100 - x] closest to zero, the larger one on a
    tie, printed with two decimals. *)
Definition toFixed2 (x : JSNum) : jsstring :=
  match x with
  | NaN => str "NaN"
  | PInf => str "Infinity"
  | NInf => str "-Infinity"
  | Fin q =>
      let n := Qfloor (q * (100 # 1) + (1 # 2))%Q in
      let a := Z.to_N (Z.abs n) in
      (if (n <? 0)%Z then [45] else [])
        ++ natToString (a / 100) ++ [46]
        ++ [48 + (a / 10) mod 10; 48 + a mod 10]
  end.

(** ** Values

    What [JSON.parse] produces, plus [undefined] (the result of reading a
    missing property) and the built-in function objects that an array
    inherits from its prototype. Object members are kept in source order. *)

Inductive JSVal :=
| VUndefined
| VNull
| VBool (b : bool)
| VNum (n : JSNum)
| VStr (s : jsstring)
| VArr (l : list JSVal)
| VObj (m : list (jsstring * JSVal))
| VNative (name : jsstring).

(** [ToBoolean] *)
Definition truthy (v : JSVal) : bool :=
  match v with
  | VUndefined | VNull => false
  | VBool b => b
  | VNum NaN => false
  | VNum (Fin q) => negb (Qeq_bool q 0)
  | VNum _ => true
  | VStr [] => false
  | VStr _ => true
  | VArr _ | VObj _ | VNative _ => true
  end.

(** [a || b] *)
Definition orElse (a b : JSVal) : JSVal := if truthy a then a else b.

(** Own property lookup on the member list of a parsed object: with a
    repeated key [JSON.parse] keeps the last value. *)
Fixpoint lookupLast (m : list (jsstring * JSVal)) (k : jsstring) (found : option JSVal)
  : option JSVal :=
  match m with
  | [] => found
  | (k', v) :: m' => lookupLast m' k (if str_eqb k' k then Some v else found)
  end.

Definition hasOwn (m : list (jsstring * JSVal)) (k : jsstring) : bool :=
  match lookupLast m k None with Some _ => true | None => false end.

(** [v.k] for a property name [k] that no prototype defines: the own
    property of an object, [undefined] on other values. Reading a property
    of [null] or [undefined] throws ([None]). *)
Definition getProp (v : JSVal) (k : jsstring) : option JSVal :=
  match v with
  | VUndefined | VNull => None
  | VObj m => Some (match lookupLast m k None with Some x => x | None => VUndefined end)
  | _ => Some VUndefined
  end.

(** [k in v]: throws ([None]) unless [v] is an object. *)
Definition hasProp (k : jsstring) (v : JSVal) : option bool :=
  match v with
  | VObj m => Some (hasOwn m k)
  | VArr _ | VNative _ => Some false
  | _ => None
  end.

(** Whether [ToPrimitive] throws on the value: an object whose own member
    [toString] shadows [Object.prototype.toString] with a value that cannot
    be called leaves no method returning a primitive; an array is joined,
    which converts every element. *)
Fixpoint toPrimitiveThrows (v : JSVal) : bool :=
  match v with
  | VObj m => hasOwn m (str "toString")
  | VArr l => existsb toPrimitiveThrows l
  | _ => false
  end.

(** [ToNumber] on a value on which [ToPrimitive] does not throw. An array
    converts through the join of its elements: the empty string when
    empty, the element's own string for one element ([null] and
    [undefined] join as the empty string, and a number prints to a string
    that reads back as the same number), and a string with a comma, which
    is not numeric, for more. *)
Fixpoint toNumberPrim (v : JSVal) : JSNum :=
  match v with
  | VUndefined => NaN
  | VNull => zero
  | VBool b => if b then one else zero
  | VNum n => n
  | VStr s => stringToNumber s
  | VObj _ | VNative _ => NaN
  | VArr [] => zero
  | VArr [x] =>
      match x with
      | VUndefined | VNull => zero
      | VBool _ => NaN
      | _ => toNumberPrim x
      end
  | VArr _ => NaN
  end.

(** [ToNumber]; [None] is the [TypeError] of [ToPrimitive]. *)
Definition toNumber (v : JSVal) : option JSNum :=
  if toPrimitiveThrows v then None else Some (toNumberPrim v).

(** A property key, as far as an array is concerned: an index, a name, or
    a string that is neither an index nor the name of any property. *)
Inductive PropKey :=
| KIndex (i : N)
| KName (s : jsstring)
| KNone.

(** A canonical array index: the decimal digits of a natural number with
    no leading zero. *)
Definition canonicalIndex (s : jsstring) : option N :=
  match s with
  | [] => None
  | _ =>
      match digitsValue 10 0 s with
      | Some n => if str_eqb (natToString n) s then Some n else None
      | None => None
      end
  end.

Definition keyOfString (s : jsstring) : PropKey :=
  match canonicalIndex s with
  | Some i => KIndex i
  | None => KName s
  end.

(** [ToPropertyKey] on a value on which [ToPrimitive] does not throw. A
    number that is a natural number prints as its digits; any other number
    prints to a string that names no property. *)
Fixpoint propertyKeyPrim (v : JSVal) : PropKey :=
  match v with
  | VUndefined => KName (str "undefined")
  | VNull => KName (str "null")
  | VBool b => KName (str (if b then "true" else "false"))
  | VNum (Fin q) =>
      let r := Qred q in
      if (Zpos (Qden r) =? 1)%Z && (0 <=? Qnum r)%Z then KIndex (Z.to_N (Qnum r))
      else KNone
  | VNum _ => KNone
  | VStr s => keyOfString s
  | VObj _ => KName (str "[object Object]")
  | VNative _ => KNone
  | VArr [] => KName []
  | VArr [x] =>
      match x with
      | VUndefined | VNull => KName []
      | _ => propertyKeyPrim x
      end
  | VArr _ => KNone
  end.

Definition propertyKey (v : JSVal) : option PropKey :=
  if toPrimitiveThrows v then None else Some (propertyKeyPrim v).

(** [Array.prototype.includes] on strings held as values. *)
Definition sameString (s : jsstring) (v : JSVal) : bool :=
  match v with
  | VStr s' => str_eqb s s'
  | _ => false
  end.

(** ** [JSON.parse]

    A lexer that reads one code unit at a time, and a parser that reads one
    token at a time against a stack of open arrays and objects. *)

Inductive Token :=
| TLBrace | TRBrace | TLBrack | TRBrack | TColon | TComma
| TString (s : jsstring)
| TNumber (q : Q)
| TTrue | TFalse | TNull.

(** The lexer's state; the accumulators hold code units in reverse. *)
Inductive LexState :=
| LIdle
| LStr (acc : jsstring)
| LEsc (acc : jsstring)
| LUni (acc : jsstring) (digits : list N)
| LNum (acc : jsstring)
| LWord (acc : jsstring).

(** JSON white space: space, tab, line feed, carriage return. *)
Definition isJSONSpace (c : jschar) : bool :=
  (c =? 32) || (c =? 9) || (c =? 10) || (c =? 13).

Definition isNumChar (c : jschar) : bool :=
  isDigit c || (c =? 45) || (c =? 43) || (c =? 46) || (c =? 101) || (c =? 69).

Definition isLower (c : jschar) : bool := (97 <=? c) && (c <=? 122).

(** A code unit met between tokens. *)
Definition lexStart (c : jschar) (toks : list Token) : option (LexState * list Token) :=
  if isJSONSpace c then Some (LIdle, toks)
  else if c =? 123 then Some (LIdle, TLBrace :: toks)
  else if c =? 125 then Some (LIdle, TRBrace :: toks)
  else if c =? 91 then Some (LIdle, TLBrack :: toks)
  else if c =? 93 then Some (LIdle, TRBrack :: toks)
  else if c =? 58 then Some (LIdle, TColon :: toks)
  else if c =? 44 then Some (LIdle, TComma :: toks)
  else if c =? 34 then Some (LStr [], toks)
  else if (c =? 45) || isDigit c then Some (LNum [c], toks)
  else if isLower c then Some (LWord [c], toks)
  else None.

Definition closeNum (acc : jsstring) : option Token :=
  match parseJSONNumber (rev acc) with
  | Some q => Some (TNumber q)
  | None => None
  end.

Definition closeWord (acc : jsstring) : option Token :=
  let w := rev acc in
  if str_eqb w (str "true") then Some TTrue
  else if str_eqb w (str "false") then Some TFalse
  else if str_eqb w (str "null") then Some TNull
  else None.

Definition escapeChar (c : jschar) : option jschar :=
  if c =? 34 then Some 34          (* quotation mark *)
  else if c =? 92 then Some 92     (* reverse solidus *)
  else if c =? 47 then Some 47     (* solidus *)
  else if c =? 98 then Some 8      (* b: backspace *)
  else if c =? 102 then Some 12    (* f: form feed *)
  else if c =? 110 then Some 10    (* n: line feed *)
  else if c =? 114 then Some 13    (* r: carriage return *)
  else if c =? 116 then Some 9     (* t: tab *)
  else None.

Fixpoint lex (st : LexState) (toks : list Token) (s : jsstring) : option (list Token) :=
  match s with
  | [] =>
      match st with
      | LIdle => Some (rev toks)
      | LNum acc =>
          match closeNum acc with Some t => Some (rev (t :: toks)) | None => None end
      | LWord acc =>
          match closeWord acc with Some t => Some (rev (t :: toks)) | None => None end
      | _ => None
      end
  | c :: s' =>
      match st with
      | LIdle =>
          match lexStart c toks with
          | Some (st', toks') => lex st' toks' s'
          | None => None
          end
      | LStr acc =>
          if c =? 34 then lex LIdle (TString (rev acc) :: toks) s'
          else if c =? 92 then lex (LEsc acc) toks s'
          else if c <? 32 then None
          else lex (LStr (c :: acc)) toks s'
      | LEsc acc =>
          if c =? 117 then lex (LUni acc []) toks s'
          else
            match escapeChar c with
            | Some e => lex (LStr (e :: acc)) toks s'
            | None => None
            end
      | LUni acc ds =>
          match hexVal c with
          | Some d =>
              match ds with
              | [d1; d2; d3] =>
                  lex (LStr ((((d1 * 16 + d2) * 16 + d3) * 16 + d) :: acc)) toks s'
              | _ => lex (LUni acc (ds ++ [d])) toks s'
              end
          | None => None
          end
      | LNum acc =>
          if isNumChar c then lex (LNum (c :: acc)) toks s'
          else
            match closeNum acc with
            | Some t =>
                match lexStart c (t :: toks) with
                | Some (st', toks') => lex st' toks' s'
                | None => None
                end
            | None => None
            end
      | LWord acc =>
          if isLower c then lex (LWord (c :: acc)) toks s'
          else
            match closeWord acc with
            | Some t =>
                match lexStart c (t :: toks) with
                | Some (st', toks') => lex st' toks' s'
                | None => None
                end
            | None => None
            end
      end
  end.

(** An open array with the elements read so far, or an open object with
    the members read so far and the key whose value is being read (both
    lists in reverse). *)
Inductive Frame :=
| FArr (done : list JSVal)
| FObj (done : list (jsstring * JSVal)) (key : jsstring).

Inductive PState :=
| PValue (stk : list Frame)
| PArrStart (stk : list Frame)
| PObjStart (stk : list Frame)
| PObjKey (done : list (jsstring * JSVal)) (stk : list Frame)
| PColon (done : list (jsstring * JSVal)) (key : jsstring) (stk : list Frame)
| PAfter (v : JSVal) (stk : list Frame).

(** A token where a value must start. *)
Definition valueStart (stk : list Frame) (t : Token) : option PState :=
  match t with
  | TString s => Some (PAfter (VStr s) stk)
  | TNumber q => Some (PAfter (VNum (Fin q)) stk)
  | TTrue => Some (PAfter (VBool true) stk)
  | TFalse => Some (PAfter (VBool false) stk)
  | TNull => Some (PAfter VNull stk)
  | TLBrack => Some (PArrStart stk)
  | TLBrace => Some (PObjStart stk)
  | _ => None
  end.

Definition pstep (st : PState) (t : Token) : option PState :=
  match st with
  | PValue stk => valueStart stk t
  | PArrStart stk =>
      match t with
      | TRBrack => Some (PAfter (VArr []) stk)
      | _ => valueStart (FArr [] :: stk) t
      end
  | PObjStart stk =>
      match t with
      | TRBrace => Some (PAfter (VObj []) stk)
      | TString k => Some (PColon [] k stk)
      | _ => None
      end
  | PObjKey done stk =>
      match t with
      | TString k => Some (PColon done k stk)
      | _ => None
      end
  | PColon done k stk =>
      match t with
      | TColon => Some (PValue (FObj done k :: stk))
      | _ => None
      end
  | PAfter v stk =>
      match stk with
      | [] => None
      | FArr done :: stk' =>
          match t with
          | TComma => Some (PValue (FArr (v :: done) :: stk'))
          | TRBrack => Some (PAfter (VArr (rev (v :: done))) stk')
          | _ => None
          end
      | FObj done k :: stk' =>
          match t with
          | TComma => Some (PObjKey ((k, v) :: done) stk')
          | TRBrace => Some (PAfter (VObj (rev ((k, v) :: done))) stk')
          | _ => None
          end
      end
  end.

Fixpoint pfold (st : PState) (ts : list Token) : option JSVal :=
  match ts with
  | [] =>
      match st with
      | PAfter v [] => Some v
      | _ => None
      end
  | t :: ts' =>
      match pstep st t with
      | Some st' => pfold st' ts'
      | None => None
      end
  end.

(** [JSON.parse(text)]; [None] is the [SyntaxError]. *)
Definition JSON_parse (text : jsstring) : option JSVal :=
  match lex LIdle [] text with
  | Some ts => pfold (PValue []) ts
  | None => None
  end.

End JS.

Import JS.

(** * Data of the ledger, as the editor sees it *)

Module Data.

(** [Entity], as returned by the entity directory. *)
Record Entity := {
  entityId : jsstring;
  name : jsstring;
  etype : jsstring
}.

Inductive CardStatus := CARD_DRAFT | CARD_PUBLISHED.

(** [EvidenceCard]: the fields the editor reads or writes. *)
Record Card := {
  cardId : jsstring;
  title : jsstring;
  cardSummary : JSVal;
  category : jsstring;
  entityIds : list JSVal;
  sourceRefs : list jsstring;
  cardStatus : CardStatus
}.

Record Source := {
  sourceId : jsstring;
  sourceTitle : jsstring;
  url : jsstring;
  sourcePublisher : jsstring
}.

Inductive RelStatus := REL_DRAFT | REL_PUBLISHED.

Record Relationship := {
  relationshipId : jsstring;
  fromEntityId : JSVal;
  toEntityId : JSVal;
  rtype : jsstring;
  relSourceRefs : list jsstring;
  relStatus : RelStatus
}.

(** [SuggestedEntity] (shared/intake.ts) *)
Record SuggestedEntity := {
  extractedName : jsstring;
  confidence : JSNum;
  matchedEntityId : option jsstring
}.

Inductive IntakeStatus := NEW | REVIEWED | PROMOTED | REJECTED.
Inductive ExtractionStatus := EX_PENDING | EX_COMPLETED | EX_FAILED | EX_SKIPPED.
Inductive EditorStatus := ED_PENDING | APPROVED | SKIPPED.
Inductive Decision := PUBLISH | SKIP.

(** [EditorDecision] (shared/intake.ts and editor.ts) *)
Record EditorDecision := {
  decision : Decision;
  reason : JSVal;
  dconfidence : JSNum;
  decidedAt : jsstring;
  runId : jsstring
}.

(** [IntakeItem] (shared/intake.ts): the fields the editor reads or
    writes; the others are carried along unchanged and play no role. *)
Record IntakeItem := {
  intakeId : jsstring;
  canonicalUrl : jsstring;
  ititle : jsstring;
  publishedAt : jsstring;
  publisher : jsstring;
  summary : option jsstring;
  status : IntakeStatus;
  suggestedTags : option (list jsstring);
  extractedSummary : option jsstring;
  suggestedEntities : option (list SuggestedEntity);
  extractionStatus : option ExtractionStatus;
  promotedSourceId : option jsstring;
  promotedCardId : option jsstring;
  editorStatus : option EditorStatus;
  editorDecision : option EditorDecision;
  reviewedAt : option jsstring;
  reviewedBy : option jsstring
}.

(** An intake item as stored, with its table keys. *)
Record IntakeRow := {
  rowItem : IntakeItem;
  PK : jsstring;
  SK : jsstring;
  GSI1PK : jsstring;
  GSI1SK : jsstring
}.

(** The argument of [createCard]. *)
Record CardInput := {
  ciTitle : jsstring;
  ciClaim : jsstring;
  ciSummary : JSVal;
  ciCategory : jsstring;
  ciEntityIds : list JSVal;
  ciEventDate : jsstring;
  ciSourceRefs : list jsstring;
  ciTags : list jsstring
}.

(** The argument of [createRelationship]. *)
Record RelInput := {
  riFrom : JSVal;
  riTo : JSVal;
  riType : jsstring;
  riDescription : JSVal;
  riSourceRefs : list jsstring
}.

(** The metadata of the audit event of a publication. *)
Record AuditMeta := {
  amCardId : jsstring;
  amSourceId : jsstring;
  amEntityIds : list JSVal;
  amRelationshipIds : list jsstring;
  amConfidence : JSNum;
  amRunId : jsstring
}.

Inductive ItemDecision := R_PUBLISH | R_SKIP | R_ERROR.

(** [EditorItemResult] *)
Record EditorItemResult := {
  rIntakeId : jsstring;
  rDecision : ItemDecision;
  rReason : JSVal;
  rCardId : option jsstring;
  rEntityIds : option (list JSVal);
  rRelationshipIds : option (list jsstring)
}.

(** [EditorRunSummary] *)
Record EditorRunSummary := {
  sRunId : jsstring;
  startedAt : jsstring;
  completedAt : jsstring;
  processed : N;
  published : N;
  skipped : N;
  errors : N;
  sDryRun : bool;
  results : list EditorItemResult
}.

(** [config.editor] and the prompt bucket of [config.extraction]
    (lib/config.ts). [maxItemsPerRun] comes from [parseInt], which yields
    an integer or [NaN] ([None]); [minConfidence] from [parseFloat]. *)
Record Config := {
  enabled : bool;
  dryRun : bool;
  maxItemsPerRun : option Z;
  minConfidence : JSNum;
  promptTemplateBucket : jsstring;
  promptTemplateKey : jsstring
}.

(** What the editor takes from outside its module and its configuration:
    the values of the [CardCategory] enum of the shared package (not part
    of the sources at hand), the names that [Array.prototype] defines in
    the running engine, and [Number::toString]. *)
Record Platform := {
  validCategories : list jsstring;
  arrayProto : jsstring -> bool;
  showNumber : JSNum -> jsstring
}.

End Data.

Import Data.

(** * Effects: calls to the collaborating services *)

Module Eff.

(** An exception, by its message. *)
Definition Exn := jsstring.

Inductive Result (A : Type) :=
| Ok (a : A)
| Err (e : Exn).
Arguments Ok {A} a.
Arguments Err {A} e.

(** The calls the editor makes, indexed by the type of what they resolve
    to. Every call can also reject (see [Result]). *)
Inductive Op : Type -> Type :=
(* services/entities.ts *)
| GetEntity (id : JSVal) : Op (option Entity)
| FindEntityByName (nm : JSVal) : Op (option Entity)
| CreateEntity (nm : JSVal) (ty : jsstring) : Op Entity
(* lib/anthropic.ts: invokeClaudeExtraction on the prompt built from the
   template, the item and the matched entities; resolves to the content *)
| InvokeClaude (template : jsstring) (item : IntakeItem) (matched : list Entity) : Op jsstring
(* services/cards.ts *)
| ListCards (limit : N) : Op (list Card)
| CreateCard (input : CardInput) : Op Card
| PublishCard (id : jsstring) : Op unit
(* services/sources.ts *)
| CreateSource (ti u pub : jsstring) (excerpt : option jsstring) : Op Source
| CaptureHtmlSnapshot (id u : jsstring) : Op unit
(* services/relationships.ts *)
| CreateRelationship (input : RelInput) : Op Relationship
| PublishRelationship (id : jsstring) : Op unit
(* services/audit.ts *)
| LogAuditEvent (id : jsstring) (meta : AuditMeta) : Op unit
(* lib/dynamodb.ts on the intake table *)
| ScanItems (id : jsstring) (limit : N) : Op (list IntakeRow)
| PutItem (row : IntakeRow) : Op unit
| QueryItems (limit : option Z) : Op (list IntakeRow)
(* S3 GetObject and transformToString of its body *)
| S3GetObject (bucket key : jsstring) : Op (option jsstring)
(* new Date().toISOString() and ulid() *)
| Now : Op jsstring
| Ulid : Op jsstring
(* the module variable cachedEditorPrompt *)
| CacheGet : Op (option jsstring)
| CacheSet (t : jsstring) : Op unit.

Inductive Level := Debug | Info | Warn | Error.

(** A line of the editor's log: level and message. *)
Definition LogEntry := (Level * string)%type.

(** Programs: trees of calls whose continuation receives the outcome of
    the call. *)
Inductive Prog (A : Type) : Type :=
| Ret (a : A)
| Raise (e : Exn)
| Log (l : LogEntry) (k : Prog A)
| Do (X : Type) (o : Op X) (k : Result X -> Prog A).
Arguments Ret {A} a.
Arguments Raise {A} e.
Arguments Log {A} l k.
Arguments Do {A X} o k.

Fixpoint bind {A B : Type} (p : Prog A) (f : A -> Prog B) : Prog B :=
  match p with
  | Ret a => f a
  | Raise e => Raise e
  | Log l k => Log l (bind k f)
  | Do o k => Do o (fun r => bind (k r) f)
  end.

(** [try p catch (e) h e] *)
Fixpoint catch {A : Type} (p : Prog A) (h : Exn -> Prog A) : Prog A :=
  match p with
  | Ret a => Ret a
  | Raise e => h e
  | Log l k => Log l (catch k h)
  | Do o k => Do o (fun r => catch (k r) h)
  end.

(** [await o]: a rejection is thrown. *)
Definition call {X : Type} (o : Op X) : Prog X :=
  Do o (fun r => match r with Ok x => Ret x | Err e => Raise e end).

Definition log (lv : Level) (msg : string) : Prog unit := Log (lv, msg) (Ret tt).

(** What a run leaves behind: the calls with their outcomes, and the log. *)
Inductive Event :=
| ECall (X : Type) (o : Op X) (r : Result X)
| ELog (l : LogEntry).
Arguments ECall {X} o r.

Definition Trace := list Event.

Section Run.

(** An environment: a state and the outcome of every call in a state. *)
Variable W : Type.
Variable env : forall X : Type, Op X -> W -> Result X * W.

Fixpoint run {A : Type} (p : Prog A) (w : W) : Result A * W * Trace :=
  match p with
  | Ret a => (Ok a, w, [])
  | Raise e => (Err e, w, [])
  | Log l k =>
      let '(r, w', tr) := run k w in (r, w', ELog l :: tr)
  | Do o k =>
      let '(x, w1) := env o w in
      let '(r, w2, tr) := run (k x) w1 in
      (r, w2, ECall o x :: tr)
  end.

End Run.

(** A call that writes: everything but the lookups, the LLM call, the
    clock, the identifier generator and the prompt cache. *)
Definition isWrite {X : Type} (o : Op X) : bool :=
  match o with
  | CreateEntity _ _ | CreateCard _ | PublishCard _ | CreateSource _ _ _ _
  | CaptureHtmlSnapshot _ _ | CreateRelationship _ | PublishRelationship _
  | LogAuditEvent _ _ | PutItem _ => true
  | _ => false
  end.

Definition eventIsWrite (e : Event) : bool :=
  match e with
  | ECall o _ => isWrite o
  | ELog _ => false
  end.

End Eff.

Import Eff.

Declare Scope prog_scope.
Delimit Scope prog_scope with prog.
Notation "x <- p ;; k" := (bind p (fun x => k))
  (at level 61, p at next level, right associativity) : prog_scope.
Notation "p ;;; k" := (bind p (fun _ => k))
  (at level 61, right associativity) : prog_scope.

(** * The editor service (lib/services/editor.ts) *)

Module Editor.

Local Open Scope prog_scope.

Definition EDITOR_USER_ID : jsstring := str "llm-editor".

(** [EditorResponse]. Only [decision] and [confidence] are validated by
    the parser; the other fields hold whatever the LLM wrote. *)
Record EditorResponse := {
  erDecision : Decision;
  erReason : JSVal;
  erConfidence : JSNum;
  erCategory : JSVal;
  erEntities : JSVal;
  erRelationships : JSVal;
  erCardSummary : JSVal
}.

(** ** parseEditorResponse *)

Definition fence : jsstring := str "```".

Definition dropLast (n : nat) (s : jsstring) : jsstring :=
  firstn (List.length s - n) s.

(** [s.replace(/^```(?:json)?\n?/, '')] *)
Definition stripLeadingFence (s : jsstring) : jsstring :=
  if startsWith s fence then
    let s1 := skipn 3 s in
    let s2 := if startsWith s1 (str "json") then skipn 4 s1 else s1 in
    match s2 with
    | 10 :: t => t
    | _ => s2
    end
  else s.

(** [s.replace(/\n?```$/, '')] *)
Definition stripTrailingFence (s : jsstring) : jsstring :=
  if endsWith s (10 :: fence) then dropLast 4 s
  else if endsWith s fence then dropLast 3 s
  else s.

(** The text that is handed to the JSON parser: the trimmed content,
    without its code fence when it starts with one. *)
Definition stripFences (content : jsstring) : jsstring :=
  let jsonStr := trim content in
  if startsWith jsonStr fence
  then stripTrailingFence (stripLeadingFence jsonStr)
  else jsonStr.

(** [s.match(/\{[\s\S]*\}/)]: the star is greedy, so the match runs from
    the first opening brace to the last closing brace after it. *)
Definition matchObject (s : jsstring) : option jsstring :=
  match dropWhile (fun c => negb (c =? 123)) s with
  | [] => None
  | open :: rest =>
      match dropWhile (fun c => negb (c =? 125)) (rev rest) with
      | [] => None
      | body => Some (open :: rev body)
      end
  end.

(** The three places where [parseEditorResponse] returns [null]. *)
Inductive ParseFailure :=
| NoJSONObject
| InvalidDecision
| ParseThrew.

Definition field (parsed : JSVal) (k : string) : JSVal :=
  match getProp parsed (str k) with
  | Some v => v
  | None => VUndefined
  end.

(** [['PUBLISH', 'SKIP'].includes(d)] after [!d] has been ruled out *)
Definition decisionOf (d : JSVal) : option Decision :=
  if negb (truthy d) then None
  else if sameString (str "PUBLISH") d then Some PUBLISH
  else if sameString (str "SKIP") d then Some SKIP
  else None.

Definition parseOutcome (content : jsstring) : ParseFailure + EditorResponse :=
  match matchObject (stripFences content) with
  | None => inl NoJSONObject
  | Some text =>
      match JSON_parse text with
      | None => inl ParseThrew
      | Some parsed =>
          match decisionOf (field parsed "decision") with
          | None => inl InvalidDecision
          | Some d =>
              match toNumber (orElse (field parsed "confidence") (VNum zero)) with
              | None => inl ParseThrew
              | Some c =>
                  inr {| erDecision := d;
                         erReason := orElse (field parsed "reason") (VStr (str "No reason provided"));
                         erConfidence := mathMin one (mathMax zero c);
                         erCategory := field parsed "category";
                         erEntities := orElse (field parsed "entities") (VArr []);
                         erRelationships := orElse (field parsed "relationships") (VArr []);
                         erCardSummary := orElse (field parsed "cardSummary") (VStr []) |}
              end
          end
      end
  end.

(** [parseEditorResponse(content)]; [None] is [null]. *)
Definition parseEditorResponse (content : jsstring) : option EditorResponse :=
  match parseOutcome content with
  | inr r => Some r
  | inl _ => None
  end.

Definition parseWarning (f : ParseFailure) : string :=
  match f with
  | NoJSONObject => "No JSON object found in editor response"
  | InvalidDecision => "Invalid decision in editor response"
  | ParseThrew => "Failed to parse editor response"
  end.

(** ** checkForDuplicate *)

Definition normalizeTitle (t : jsstring) : jsstring := trim (toLowerCase t).

(** [card.entityIds.some((id) => entityIds.includes(id))] *)
Definition sameValueZero (a b : JSVal) : bool :=
  match a, b with
  | VStr x, VStr y => str_eqb x y
  | VNum NaN, VNum NaN => true
  | VNum PInf, VNum PInf => true
  | VNum NInf, VNum NInf => true
  | VNum (Fin x), VNum (Fin y) => Qeq_bool x y
  | VBool x, VBool y => Bool.eqb x y
  | VNull, VNull => true
  | VUndefined, VUndefined => true
  | _, _ => false
  end.

Definition hasOverlappingEntity (card : Card) (ids : list JSVal) : bool :=
  existsb (fun id => existsb (sameValueZero id) ids) (entityIds card).

Inductive DuplicateKind := ByTitle | ByEntityAndPrefix.

(** The test of one recent card against the candidate. *)
Definition duplicateOf (normalizedTitle : jsstring) (ids : list JSVal) (card : Card)
  : option DuplicateKind :=
  let cardTitle := normalizeTitle (title card) in
  if str_eqb cardTitle normalizedTitle then Some ByTitle
  else if hasOverlappingEntity card ids
          && str_eqb (substring0 50 cardTitle) (substring0 50 normalizedTitle)
  then Some ByEntityAndPrefix
  else None.

Fixpoint scanCards (normalizedTitle : jsstring) (ids : list JSVal) (cards : list Card)
  : Prog bool :=
  match cards with
  | [] => Ret false
  | card :: rest =>
      match duplicateOf normalizedTitle ids card with
      | Some ByTitle => log Info "Found duplicate card by title" ;;; Ret true
      | Some ByEntityAndPrefix =>
          log Info "Found duplicate card by entity+title prefix" ;;; Ret true
      | None => scanCards normalizedTitle ids rest
      end
  end.

Definition checkForDuplicate (ttl : jsstring) (ids : list JSVal) : Prog bool :=
  recentCards <- call (ListCards 100) ;;
  scanCards (normalizeTitle ttl) ids recentCards.

(** ** getMatchedEntities *)

Definition nonEmpty (s : option jsstring) : bool :=
  match s with
  | Some (_ :: _) => true
  | _ => false
  end.

Fixpoint matchLoop (suggestions : list SuggestedEntity)
    (matched : list Entity) (seenIds : list jsstring) : Prog (list Entity) :=
  match suggestions with
  | [] => Ret matched
  | suggestion :: rest =>
      byId <-
        match matchedEntityId suggestion with
        | Some (c :: id) =>
            catch (call (GetEntity (VStr (c :: id)))) (fun _ => Ret None)
        | _ => Ret None
        end ;;
      entity <-
        match byId, extractedName suggestion with
        | None, c :: nm => call (FindEntityByName (VStr (c :: nm)))
        | _, _ => Ret byId
        end ;;
      match entity with
      | Some e =>
          if existsb (str_eqb (entityId e)) seenIds
          then matchLoop rest matched seenIds
          else matchLoop rest (matched ++ [e]) (entityId e :: seenIds)
      | None => matchLoop rest matched seenIds
      end
  end.

Definition getMatchedEntities (suggestions : list SuggestedEntity) : Prog (list Entity) :=
  matchLoop suggestions [] [].

(** ** updateIntakeEditorStatus *)

Definition statusName (s : IntakeStatus) : jsstring :=
  match s with
  | NEW => str "NEW"
  | REVIEWED => str "REVIEWED"
  | PROMOTED => str "PROMOTED"
  | REJECTED => str "REJECTED"
  end.

Definition updatedRow (existing : IntakeRow) (es : EditorStatus) (d : EditorDecision)
    (card source : option jsstring) (now : jsstring) : IntakeRow :=
  let it := rowItem existing in
  let approved := match es with APPROVED => true | _ => false end in
  {| rowItem :=
       {| intakeId := intakeId it;
          canonicalUrl := canonicalUrl it;
          ititle := ititle it;
          publishedAt := publishedAt it;
          publisher := publisher it;
          summary := summary it;
          status := if approved then PROMOTED else status it;
          suggestedTags := suggestedTags it;
          extractedSummary := extractedSummary it;
          suggestedEntities := suggestedEntities it;
          extractionStatus := extractionStatus it;
          promotedSourceId := if approved then source else promotedSourceId it;
          promotedCardId := if approved then card else promotedCardId it;
          editorStatus := Some es;
          editorDecision := Some d;
          reviewedAt := Some now;
          reviewedBy := Some EDITOR_USER_ID |};
     PK := PK existing;
     SK := SK existing;
     GSI1PK := if approved then str "STATUS#PROMOTED"
               else str "STATUS#" ++ statusName (status it);
     GSI1SK := str "TS#" ++ now |}.

Definition updateIntakeEditorStatus (id : jsstring) (es : EditorStatus)
    (d : EditorDecision) (card source : option jsstring) : Prog unit :=
  now <- call Now ;;
  items <- call (ScanItems id 100) ;;
  match items with
  | [] => Raise (str "Intake item " ++ id ++ str " not found")
  | existing :: _ => call (PutItem (updatedRow existing es d card source now))
  end.

(** ** processItem *)

Section WithConfig.

Variable cfg : Config.
Variable plat : Platform.

Definition mkResult (id : jsstring) (d : ItemDecision) (why : JSVal) : EditorItemResult :=
  {| rIntakeId := id; rDecision := d; rReason := why;
     rCardId := None; rEntityIds := None; rRelationshipIds := None |}.

(** The confidence threshold (the block "Check confidence threshold"). *)
Definition belowThreshold (r : EditorResponse) : bool :=
  match erDecision r with
  | PUBLISH => num_lt (erConfidence r) (minConfidence cfg)
  | SKIP => false
  end.

Definition thresholdReason (r : EditorResponse) : jsstring :=
  str "Confidence " ++ toFixed2 (erConfidence r)
    ++ str " below threshold " ++ showNumber plat (minConfidence cfg).

(** The response and the decision record after the threshold check. *)
Definition confidenceGate (r : EditorResponse) (d : EditorDecision)
  : EditorResponse * EditorDecision :=
  if belowThreshold r then
    let why := VStr (thresholdReason r) in
    ({| erDecision := SKIP; erReason := why; erConfidence := erConfidence r;
        erCategory := erCategory r; erEntities := erEntities r;
        erRelationships := erRelationships r; erCardSummary := erCardSummary r |},
     {| decision := SKIP; reason := why; dconfidence := dconfidence d;
        decidedAt := decidedAt d; runId := runId d |})
  else (r, d).

(** [{ ...decision, decision: 'SKIP', reason }] *)
Definition skipDecision (d : EditorDecision) (why : string) : EditorDecision :=
  {| decision := SKIP; reason := VStr (str why); dconfidence := dconfidence d;
     decidedAt := decidedAt d; runId := runId d |}.

(** [for (const x of v)]: the elements of an array, the characters of a
    string (each one a string); any other value is not iterable. *)
Definition iterate (v : JSVal) : option (list JSVal) :=
  match v with
  | VArr l => Some l
  | VStr s => Some (map (fun c => VStr [c]) s)
  | _ => None
  end.

Definition typeError (msg : string) : Exn := str msg.

Fixpoint assoc (m : list (string * string)) (k : jsstring) : option jsstring :=
  match m with
  | [] => None
  | (k', v) :: m' => if str_eqb (str k') k then Some (str v) else assoc m' k
  end.

Definition typeMap : list (string * string) :=
  [ ("CORPORATION", "CORPORATION");
    ("GOVERNMENT_AGENCY", "AGENCY");
    ("AGENCY", "AGENCY");
    ("INDIVIDUAL", "PERSON");
    ("PERSON", "PERSON");
    ("INDIVIDUAL_PUBLIC_OFFICIAL", "INDIVIDUAL_PUBLIC_OFFICIAL");
    ("NON_PROFIT", "NONPROFIT");
    ("NONPROFIT", "NONPROFIT");
    ("VENDOR", "VENDOR");
    ("POLITICAL_ENTITY", "AGENCY");
    ("OTHER", "CORPORATION") ]%string.

(** [typeMap[t.toUpperCase()] || 'CORPORATION']; reading [toUpperCase]
    off anything but a string gives nothing that can be called. *)
Definition entityTypeOf (t : JSVal) : option jsstring :=
  match t with
  | VStr s =>
      Some (match assoc typeMap (toUpperCase s) with
            | Some ty => ty
            | None => str "CORPORATION"
            end)
  | _ => None
  end.

(** One turn of the loop over [editorResponse.entities]; the result is
    the list of resolved identifiers after the turn. *)
Definition resolveRef (dry : bool) (matchedEntities : list Entity)
    (resolved : list JSVal) (entityRef : JSVal) : Prog (list JSVal) :=
  match hasProp (str "matchedIndex") entityRef with
  | None => Raise (typeError "Cannot use 'in' operator to search for 'matchedIndex'")
  | Some true =>
      let index := field entityRef "matchedIndex" in
      match toNumber index with
      | None => Raise (typeError "Cannot convert object to primitive value")
      | Some n =>
          if num_ge n zero
             && num_lt n (Fin (Z.of_nat (List.length matchedEntities) # 1))
          then
            match propertyKeyPrim index with
            | KIndex i =>
                match nth_error matchedEntities (N.to_nat i) with
                | Some matched =>
                    log Debug "Using matched entity by index" ;;;
                    Ret (resolved ++ [VStr (entityId matched)])
                | None => Raise (typeError "Cannot read properties of undefined (reading 'entityId')")
                end
            | _ => Raise (typeError "Cannot read properties of undefined (reading 'entityId')")
            end
          else
            log Warn "Invalid matchedIndex, skipping" ;;; Ret resolved
      end
  | Some false =>
      if match hasProp (str "entityId") entityRef with Some b => b | None => false end
      then
        let id := field entityRef "entityId" in
        existingEntity <- call (GetEntity id) ;;
        match existingEntity with
        | Some _ =>
            log Debug "Using existing entity by ID" ;;; Ret (resolved ++ [id])
        | None =>
            log Warn "Entity ID not found in database, skipping" ;;; Ret resolved
        end
      else if match hasProp (str "create") entityRef with Some b => b | None => false end
              && negb dry
      then
        let create := field entityRef "create" in
        match getProp create (str "name") with
        | None => Raise (typeError "Cannot read properties of null (reading 'name')")
        | Some nm =>
            existingByName <- call (FindEntityByName nm) ;;
            match existingByName with
            | Some e =>
                log Info "Found existing entity by name" ;;;
                Ret (resolved ++ [VStr (entityId e)])
            | None =>
                match entityTypeOf (field create "type") with
                | None => Raise (typeError "entityRef.create.type.toUpperCase is not a function")
                | Some entityType =>
                    entity <- call (CreateEntity nm entityType) ;;
                    log Info "Created new entity" ;;;
                    Ret (resolved ++ [VStr (entityId entity)])
                end
            end
        end
      else Ret resolved
  end.

Fixpoint resolveLoop (dry : bool) (matchedEntities : list Entity)
    (refs : list JSVal) (resolved : list JSVal) : Prog (list JSVal) :=
  match refs with
  | [] => Ret resolved
  | entityRef :: rest =>
      resolved' <- resolveRef dry matchedEntities resolved entityRef ;;
      resolveLoop dry matchedEntities rest resolved'
  end.

(** The block "PUBLISH decision - resolve entities". *)
Definition resolveEntities (dry : bool) (matchedEntities : list Entity)
    (entities : JSVal) : Prog (list JSVal) :=
  match iterate entities with
  | None => Raise (typeError "editorResponse.entities is not iterable")
  | Some refs => resolveLoop dry matchedEntities refs []
  end.

(** [rawCategory && validCategories.includes(rawCategory) ? rawCategory : 'other']
    with [rawCategory = editorResponse.category?.toLowerCase()]. *)
Definition categoryOf (c : JSVal) : option jsstring :=
  match c with
  | VUndefined | VNull => Some (str "other")
  | VStr s =>
      let raw := toLowerCase s in
      Some (match raw with
            | [] => str "other"
            | _ => if existsb (str_eqb raw) (validCategories plat) then raw
                   else str "other"
            end)
  | _ => None
  end.

Definition relTypeMap : list (string * string) :=
  [ ("OWNS", "OWNS");
    ("CONTROLS", "CONTROLS");
    ("SUBSIDIARY_OF", "SUBSIDIARY_OF");
    ("PARENT_OF", "PARENT_OF");
    ("AFFILIATED", "AFFILIATED");
    ("AFFILIATED_WITH", "AFFILIATED");
    ("CONTRACTOR_TO", "CONTRACTOR_TO");
    ("CONTRACTS_WITH", "CONTRACTOR_TO");
    ("REGULATED_BY", "REGULATED_BY");
    ("REGULATES", "REGULATED_BY");
    ("LOBBIED_BY", "LOBBIED_BY");
    ("LOBBIES", "LOBBIED_BY");
    ("ACQUIRED", "ACQUIRED");
    ("DIVESTED", "DIVESTED");
    ("JV_PARTNER", "JV_PARTNER");
    ("BOARD_INTERLOCK", "BOARD_INTERLOCK");
    ("FINED_BY", "REGULATED_BY");
    ("SUED_BY", "OTHER");
    ("SUED", "OTHER");
    ("SETTLED_WITH", "OTHER");
    ("INVESTIGATED_BY", "REGULATED_BY");
    ("OTHER", "OTHER") ]%string.

Definition relTypeOf (t : JSVal) : option jsstring :=
  match t with
  | VStr s =>
      Some (match assoc relTypeMap (toUpperCase s) with
            | Some ty => ty
            | None => str "OTHER"
            end)
  | _ => None
  end.

(** [resolvedEntityIds[key]]: an element, [length], a method inherited
    from [Array.prototype], or [undefined]; [None] when the conversion of
    the key throws. *)
Definition arrayGet (xs : list JSVal) (key : JSVal) : option JSVal :=
  match propertyKey key with
  | None => None
  | Some (KIndex i) => Some (nth (N.to_nat i) xs VUndefined)
  | Some (KName s) =>
      Some (if str_eqb s (str "length")
            then VNum (Fin (Z.of_nat (List.length xs) # 1))
            else if arrayProto plat s then VNative s
            else VUndefined)
  | Some KNone => Some VUndefined
  end.

(** One turn of the loop over [editorResponse.relationships]: the
    identifier of the relationship created, if any. *)
Definition createRel (resolved : list JSVal) (src : jsstring) (relSpec : JSVal)
  : Prog (option jsstring) :=
  match getProp relSpec (str "fromEntityIndex") with
  | None => Raise (typeError "Cannot read properties of null (reading 'fromEntityIndex')")
  | Some fromIndex =>
      match arrayGet resolved fromIndex with
      | None => Raise (typeError "Cannot convert object to primitive value")
      | Some fromId =>
          match arrayGet resolved (field relSpec "toEntityIndex") with
          | None => Raise (typeError "Cannot convert object to primitive value")
          | Some toId =>
              if truthy fromId && truthy toId then
                catch
                  (match relTypeOf (field relSpec "type") with
                   | None => Raise (typeError "relSpec.type.toUpperCase is not a function")
                   | Some relType =>
                       relationship <-
                         call (CreateRelationship
                                 {| riFrom := fromId; riTo := toId; riType := relType;
                                    riDescription := field relSpec "description";
                                    riSourceRefs := [src] |}) ;;
                       Ret (Some (relationshipId relationship))
                   end)
                  (fun _ => log Warn "Failed to create relationship" ;;; Ret None)
              else Ret None
          end
      end
  end.

Fixpoint createRelLoop (resolved : list JSVal) (src : jsstring)
    (specs : list JSVal) (ids : list jsstring) : Prog (list jsstring) :=
  match specs with
  | [] => Ret ids
  | relSpec :: rest =>
      made <- createRel resolved src relSpec ;;
      createRelLoop resolved src rest
        (match made with Some id => ids ++ [id] | None => ids end)
  end.

Definition createRelationships (resolved : list JSVal) (src : jsstring)
    (relationships : JSVal) : Prog (list jsstring) :=
  match iterate relationships with
  | None => Raise (typeError "editorResponse.relationships is not iterable")
  | Some specs => createRelLoop resolved src specs []
  end.

Fixpoint publishRelationships (ids : list jsstring) : Prog unit :=
  match ids with
  | [] => Ret tt
  | relId :: rest =>
      catch (call (PublishRelationship relId))
            (fun _ => log Warn "Failed to publish relationship") ;;;
      publishRelationships rest
  end.

Definition orString (v : JSVal) (alts : list (option jsstring)) : JSVal :=
  if truthy v then v
  else VStr (match filter nonEmpty alts with
             | Some s :: _ => s
             | _ => []
             end).

(** From "Create source" to the final [return]: the publication. *)
Definition publish (item : IntakeItem) (rid : jsstring) (r : EditorResponse)
    (d : EditorDecision) (resolved : list JSVal) : Prog EditorItemResult :=
  source <- call (CreateSource (ititle item) (canonicalUrl item) (publisher item)
                               (summary item)) ;;
  catch (call (CaptureHtmlSnapshot (sourceId source) (canonicalUrl item)))
        (fun _ => log Warn "Failed to capture HTML snapshot, continuing anyway") ;;;
  match categoryOf (erCategory r) with
  | None => Raise (typeError "editorResponse.category?.toLowerCase is not a function")
  | Some cat =>
      card <- call (CreateCard
                      {| ciTitle := ititle item;
                         ciClaim := ititle item;
                         ciSummary := orString (erCardSummary r)
                                        [extractedSummary item; summary item];
                         ciCategory := cat;
                         ciEntityIds := resolved;
                         ciEventDate := splitHead 84 (publishedAt item);
                         ciSourceRefs := [sourceId source];
                         ciTags := match suggestedTags item with
                                   | Some t => t
                                   | None => []
                                   end |}) ;;
      log Info "Created card from intake" ;;;
      relationshipIds <- createRelationships resolved (sourceId source)
                           (erRelationships r) ;;
      catch (call (PublishCard (cardId card)) ;;; log Info "Published card")
            (fun _ => log Error "Failed to publish card") ;;;
      publishRelationships relationshipIds ;;;
      updateIntakeEditorStatus (intakeId item) APPROVED d
        (Some (cardId card)) (Some (sourceId source)) ;;;
      call (LogAuditEvent (intakeId item)
              {| amCardId := cardId card; amSourceId := sourceId source;
                 amEntityIds := resolved; amRelationshipIds := relationshipIds;
                 amConfidence := erConfidence r; amRunId := rid |}) ;;;
      Ret {| rIntakeId := intakeId item; rDecision := R_PUBLISH;
             rReason := erReason r; rCardId := Some (cardId card);
             rEntityIds := Some resolved;
             rRelationshipIds := Some relationshipIds |}
  end.

Definition dryRunReason (resolved : list JSVal) : jsstring :=
  str "[DRY RUN] Would publish with "
    ++ natToString (N.of_nat (List.length resolved)) ++ str " entities".

(** From the test of [resolvedEntityIds.length] on. *)
Definition afterResolve (item : IntakeItem) (rid : jsstring) (dry : bool)
    (r : EditorResponse) (d : EditorDecision) (resolved : list JSVal)
  : Prog EditorItemResult :=
  match resolved with
  | [] =>
      log Warn "No entities resolved, skipping item" ;;;
      (if dry then Ret tt
       else updateIntakeEditorStatus (intakeId item) SKIPPED
              (skipDecision d "No entities could be resolved") None None) ;;;
      Ret (mkResult (intakeId item) R_SKIP (VStr (str "No entities could be resolved")))
  | _ =>
      isDuplicate <- checkForDuplicate (ititle item) resolved ;;
      if isDuplicate then
        (if dry then Ret tt
         else updateIntakeEditorStatus (intakeId item) SKIPPED
                (skipDecision d "Duplicate card detected") None None) ;;;
        Ret (mkResult (intakeId item) R_SKIP (VStr (str "Duplicate card detected")))
      else if dry then
        Ret {| rIntakeId := intakeId item; rDecision := R_PUBLISH;
               rReason := VStr (dryRunReason resolved); rCardId := None;
               rEntityIds := Some resolved; rRelationshipIds := None |}
      else publish item rid r d resolved
  end.

(** From "Record the decision" on, for a response that parsed. *)
Definition afterParse (item : IntakeItem) (rid : jsstring) (dry : bool)
    (matchedEntities : list Entity) (parsed : EditorResponse)
  : Prog EditorItemResult :=
  now <- call Now ;;
  let recorded := {| decision := erDecision parsed; reason := erReason parsed;
                     dconfidence := erConfidence parsed; decidedAt := now;
                     runId := rid |} in
  (if belowThreshold parsed
   then log Info "Confidence below threshold, treating as SKIP"
   else Ret tt) ;;;
  let '(r, d) := confidenceGate parsed recorded in
  match erDecision r with
  | SKIP =>
      (if dry then Ret tt
       else updateIntakeEditorStatus (intakeId item) SKIPPED d None None) ;;;
      Ret (mkResult (intakeId item) R_SKIP (erReason r))
  | PUBLISH =>
      resolved <- resolveEntities dry matchedEntities (erEntities r) ;;
      afterResolve item rid dry r d resolved
  end.

(** The [try] block of [processItem]. *)
Definition attempt (item : IntakeItem) (template : jsstring) (rid : jsstring)
    (dry : bool) : Prog EditorItemResult :=
  matchedEntities <-
    getMatchedEntities (match suggestedEntities item with
                        | Some l => l
                        | None => []
                        end) ;;
  content <- call (InvokeClaude template item matchedEntities) ;;
  log Debug "Editor Claude call completed" ;;;
  match parseOutcome content with
  | inl failure =>
      log Warn (parseWarning failure) ;;;
      Ret (mkResult (intakeId item) R_ERROR
             (VStr (str "Failed to parse editor response")))
  | inr parsed => afterParse item rid dry matchedEntities parsed
  end.

Definition processItem (item : IntakeItem) (template : jsstring) (rid : jsstring)
    (dry : bool) : Prog EditorItemResult :=
  catch (attempt item template rid dry)
    (fun e =>
       log Error "Error processing item" ;;;
       Ret (mkResult (intakeId item) R_ERROR (VStr e))).

(** ** loadEditorPrompt *)

Definition loadEditorPrompt : Prog jsstring :=
  cached <- call CacheGet ;;
  match cached with
  | Some (c :: t) => Ret (c :: t)
  | _ =>
      match promptTemplateBucket cfg with
      | [] => Raise (str "EXTRACTION_PROMPT_BUCKET environment variable is not set")
      | bucket =>
          log Info "Loading editor prompt template from S3" ;;;
          body <- call (S3GetObject bucket (promptTemplateKey cfg)) ;;
          match body with
          | Some (c :: t) =>
              call (CacheSet (c :: t)) ;;;
              log Info "Successfully loaded editor prompt template from S3" ;;;
              Ret (c :: t)
          | _ =>
              Raise (str "Failed to load editor prompt from s3://" ++ bucket
                       ++ str "/" ++ promptTemplateKey cfg)
          end
      end
  end.

(** ** getEligibleItems *)

(** [xs.slice(0, limit)] for a limit that is an integer or [NaN] *)
Definition sliceTo {A : Type} (limit : option Z) (xs : list A) : list A :=
  match limit with
  | None => []
  | Some z =>
      if (z <? 0)%Z
      then firstn (Z.to_nat (Z.of_nat (List.length xs) + z)) xs
      else firstn (Z.to_nat z) xs
  end.

Definition eligible (row : IntakeRow) : bool :=
  let item := rowItem row in
  (nonEmpty (extractedSummary item) || nonEmpty (summary item))
  && existsb (fun e => num_ge (confidence e) (Fin (1 # 2)))
             (match suggestedEntities item with Some l => l | None => [] end).

Definition getEligibleItems (limit : option Z) : Prog (list IntakeItem) :=
  items <- call (QueryItems (option_map (fun z => (z * 2)%Z) limit)) ;;
  Ret (map rowItem (sliceTo limit (filter eligible items))).

(** ** runEditor *)

Definition count (d : ItemDecision) (r : EditorItemResult) : N :=
  match d, rDecision r with
  | R_PUBLISH, R_PUBLISH | R_SKIP, R_SKIP | R_ERROR, R_ERROR => 1
  | _, _ => 0
  end.

(** The loop over the eligible items, with its accumulators. *)
Fixpoint processAll (items : list IntakeItem) (template rid : jsstring) (dry : bool)
    (acc : list EditorItemResult) (pub skp errs : N)
  : Prog (list EditorItemResult * N * N * N) :=
  match items with
  | [] => Ret (acc, pub, skp, errs)
  | item :: rest =>
      result <- processItem item template rid dry ;;
      log Info "Processed intake item" ;;;
      processAll rest template rid dry (acc ++ [result])
        (pub + count R_PUBLISH result) (skp + count R_SKIP result)
        (errs + count R_ERROR result)
  end.

Definition runEditor : Prog EditorRunSummary :=
  rid <- call Ulid ;;
  started <- call Now ;;
  let dry := dryRun cfg in
  log Info "Starting editor run" ;;;
  if negb (enabled cfg) then
    log Info "Editor is disabled, skipping run" ;;;
    completed <- call Now ;;
    Ret {| sRunId := rid; startedAt := started; completedAt := completed;
           processed := 0; published := 0; skipped := 0; errors := 0;
           sDryRun := dry; results := [] |}
  else
    template <- loadEditorPrompt ;;
    items <- getEligibleItems (maxItemsPerRun cfg) ;;
    log Info "Found eligible items" ;;;
    out <- processAll items template rid dry [] 0 0 0 ;;
    let '(res, pub, skp, errs) := out in
    completed <- call Now ;;
    log Info "Completed editor run" ;;;
    Ret {| sRunId := rid; startedAt := started; completedAt := completed;
           processed := N.of_nat (List.length items);
           published := pub; skipped := skp; errors := errs;
           sDryRun := dry; results := res |}.

(** ** The handler (handlers/intake-editor.ts) *)

Fixpoint logResults (rs : list EditorItemResult) : Prog unit :=
  match rs with
  | [] => Ret tt
  | _ :: rest => log Debug "Item result" ;;; logResults rest
  end.

(** [summary.errors > 0 && summary.errors === summary.processed] *)
Definition allFailed (s : EditorRunSummary) : bool :=
  (0 <? errors s) && (errors s =? processed s).

(** What the handler does with the summary of a run. *)
Definition report (s : EditorRunSummary) : Prog unit :=
  log Info "Completed intake editor run" ;;;
  logResults (results s) ;;;
  if allFailed s
  then Raise (str "All " ++ natToString (errors s) ++ str " items failed processing")
  else Ret tt.

(** A raised exception marks the Lambda invocation as failed. *)
Definition handler : Prog unit :=
  log Info "Starting intake editor run" ;;;
  catch (summary <- runEditor ;; report summary)
        (fun e => log Error "Editor run failed" ;;; Raise e).

End WithConfig.

End Editor.

Import Editor.

(** * An in-memory environment *)

Module Mem.

(** Modelled from the spec: the Entity Directory, the Claim Store, the
    Source Registry, the audit log and the intake table, which stand for
    services/entities.ts, services/cards.ts, services/sources.ts,
    services/audit.ts and lib/dynamodb.ts; none of them is part of the
    sources at hand. They behave as "a keyed document store with secondary
    lookup indexes". Cards are kept most recent first. [wFails] injects
    the rejection of chosen calls. *)
Record World := {
  wEntities : list Entity;
  wCards : list Card;
  wSources : list Source;
  wRelationships : list Relationship;
  wIntake : list IntakeRow;
  wAudit : list (jsstring * AuditMeta);
  wCache : option jsstring;
  wTemplate : option jsstring;
  wLLM : jsstring -> Result jsstring;
  wClock : N;
  wNextId : N;
  wFails : forall X : Type, Op X -> bool
}.

Definition setEntities (w : World) (es : list Entity) (n : N) : World :=
  {| wEntities := es; wCards := wCards w; wSources := wSources w;
     wRelationships := wRelationships w; wIntake := wIntake w; wAudit := wAudit w;
     wCache := wCache w; wTemplate := wTemplate w; wLLM := wLLM w;
     wClock := wClock w; wNextId := n; wFails := wFails w |}.

Definition setCards (w : World) (cs : list Card) (n : N) : World :=
  {| wEntities := wEntities w; wCards := cs; wSources := wSources w;
     wRelationships := wRelationships w; wIntake := wIntake w; wAudit := wAudit w;
     wCache := wCache w; wTemplate := wTemplate w; wLLM := wLLM w;
     wClock := wClock w; wNextId := n; wFails := wFails w |}.

Definition setSources (w : World) (ss : list Source) (n : N) : World :=
  {| wEntities := wEntities w; wCards := wCards w; wSources := ss;
     wRelationships := wRelationships w; wIntake := wIntake w; wAudit := wAudit w;
     wCache := wCache w; wTemplate := wTemplate w; wLLM := wLLM w;
     wClock := wClock w; wNextId := n; wFails := wFails w |}.

Definition setRelationships (w : World) (rs : list Relationship) (n : N) : World :=
  {| wEntities := wEntities w; wCards := wCards w; wSources := wSources w;
     wRelationships := rs; wIntake := wIntake w; wAudit := wAudit w;
     wCache := wCache w; wTemplate := wTemplate w; wLLM := wLLM w;
     wClock := wClock w; wNextId := n; wFails := wFails w |}.

Definition setIntake (w : World) (rows : list IntakeRow) : World :=
  {| wEntities := wEntities w; wCards := wCards w; wSources := wSources w;
     wRelationships := wRelationships w; wIntake := rows; wAudit := wAudit w;
     wCache := wCache w; wTemplate := wTemplate w; wLLM := wLLM w;
     wClock := wClock w; wNextId := wNextId w; wFails := wFails w |}.

Definition setAudit (w : World) (a : list (jsstring * AuditMeta)) : World :=
  {| wEntities := wEntities w; wCards := wCards w; wSources := wSources w;
     wRelationships := wRelationships w; wIntake := wIntake w; wAudit := a;
     wCache := wCache w; wTemplate := wTemplate w; wLLM := wLLM w;
     wClock := wClock w; wNextId := wNextId w; wFails := wFails w |}.

Definition setCache (w : World) (c : option jsstring) : World :=
  {| wEntities := wEntities w; wCards := wCards w; wSources := wSources w;
     wRelationships := wRelationships w; wIntake := wIntake w; wAudit := wAudit w;
     wCache := c; wTemplate := wTemplate w; wLLM := wLLM w;
     wClock := wClock w; wNextId := wNextId w; wFails := wFails w |}.

Definition tick (w : World) : World :=
  {| wEntities := wEntities w; wCards := wCards w; wSources := wSources w;
     wRelationships := wRelationships w; wIntake := wIntake w; wAudit := wAudit w;
     wCache := wCache w; wTemplate := wTemplate w; wLLM := wLLM w;
     wClock := wClock w + 1; wNextId := wNextId w; wFails := wFails w |}.

Definition freshId (prefix : string) (w : World) : jsstring :=
  str prefix ++ natToString (wNextId w).

Definition findEntity (w : World) (id : JSVal) : option Entity :=
  match id with
  | VStr s => find (fun e => str_eqb (entityId e) s) (wEntities w)
  | _ => None
  end.

(** [getEntity] rejects for an identifier that the directory does not
    hold. Its callers in the sources at hand rely on this:
    [createRelationship] validates its two endpoints by awaiting it,
    [listRelationships] and [getMatchedEntities] catch its rejection,
    [getEntitySummary] reads the fields of its result without a test, and
    the tests of the relationships service mock a missing entity as a
    rejection; [getRelationship], its sibling, throws a [NotFoundError]. *)
Definition getEntity (w : World) (id : JSVal) : Result (option Entity) :=
  match findEntity w id with
  | Some e => Ok (Some e)
  | None => Err (str "Entity not found")
  end.

(** Name matching is "case/punctuation-insensitive": names are compared
    by their letters and digits, lower-cased. *)
Definition normalizeName (s : jsstring) : jsstring :=
  filter (fun c => isDigit c || isLower c) (toLowerCase s).

Definition findEntityByName (w : World) (nm : JSVal) : option Entity :=
  match nm with
  | VStr s =>
      find (fun e => str_eqb (normalizeName (name e)) (normalizeName s)) (wEntities w)
  | _ => None
  end.

Definition setCardStatus (id : jsstring) (c : Card) : Card :=
  if str_eqb (cardId c) id then
    {| cardId := cardId c; title := title c; cardSummary := cardSummary c;
       category := category c; entityIds := entityIds c;
       sourceRefs := sourceRefs c; cardStatus := CARD_PUBLISHED |}
  else c.

Definition isPublished (c : Card) : bool :=
  match cardStatus c with CARD_PUBLISHED => true | CARD_DRAFT => false end.

Definition setRelStatus (id : jsstring) (r : Relationship) : Relationship :=
  if str_eqb (relationshipId r) id then
    {| relationshipId := relationshipId r; fromEntityId := fromEntityId r;
       toEntityId := toEntityId r; rtype := rtype r;
       relSourceRefs := relSourceRefs r; relStatus := REL_PUBLISHED |}
  else r.

Definition sameKey (a b : IntakeRow) : bool :=
  str_eqb (PK a) (PK b) && str_eqb (SK a) (SK b).

Fixpoint putRow (row : IntakeRow) (rows : list IntakeRow) : list IntakeRow :=
  match rows with
  | [] => [row]
  | r :: rest => if sameKey r row then row :: rest else r :: putRow row rest
  end.

Definition awaitsEditor (row : IntakeRow) : bool :=
  str_eqb (GSI1PK row) (str "STATUS#NEW")
  && match extractionStatus (rowItem row) with Some EX_COMPLETED => true | _ => false end
  && match editorStatus (rowItem row) with None => true | Some _ => false end.

Definition firstZ {A : Type} (limit : option Z) (xs : list A) : list A :=
  match limit with
  | Some z => firstn (Z.to_nat z) xs
  | None => xs
  end.

(** The outcome of a call that is not made to fail. *)
Definition answer {X : Type} (o : Op X) (w : World) : Result X * World :=
  match o in Op T return Result T * World with
  | GetEntity id => (getEntity w id, w)
  | FindEntityByName nm => (Ok (findEntityByName w nm), w)
  | CreateEntity nm ty =>
      match nm with
      | VStr s =>
          let e := {| entityId := freshId "ent_" w; name := s; etype := ty |} in
          (Ok e, setEntities w (wEntities w ++ [e]) (wNextId w + 1))
      | _ => (Err (str "Invalid entity name"), w)
      end
  | InvokeClaude _ item _ => (wLLM w (intakeId item), w)
  | ListCards limit => (Ok (firstn (N.to_nat limit) (filter isPublished (wCards w))), w)
  | CreateCard input =>
      let c := {| cardId := freshId "card_" w; title := ciTitle input;
                  cardSummary := ciSummary input; category := ciCategory input;
                  entityIds := ciEntityIds input; sourceRefs := ciSourceRefs input;
                  cardStatus := CARD_DRAFT |} in
      (Ok c, setCards w (c :: wCards w) (wNextId w + 1))
  | PublishCard id =>
      if existsb (fun c => str_eqb (cardId c) id) (wCards w)
      then (Ok tt, setCards w (map (setCardStatus id) (wCards w)) (wNextId w))
      else (Err (str "Card not found"), w)
  | CreateSource ti u pub _ =>
      let s := {| sourceId := freshId "src_" w; sourceTitle := ti; url := u;
                  sourcePublisher := pub |} in
      (Ok s, setSources w (wSources w ++ [s]) (wNextId w + 1))
  | CaptureHtmlSnapshot _ _ => (Ok tt, w)
  | CreateRelationship input =>
      match findEntity w (riFrom input), findEntity w (riTo input) with
      | Some _, Some _ =>
          let r := {| relationshipId := freshId "rel_" w; fromEntityId := riFrom input;
                      toEntityId := riTo input; rtype := riType input;
                      relSourceRefs := riSourceRefs input; relStatus := REL_DRAFT |} in
          (Ok r, setRelationships w (wRelationships w ++ [r]) (wNextId w + 1))
      | _, _ => (Err (str "Entity not found"), w)
      end
  | PublishRelationship id =>
      if existsb (fun r => str_eqb (relationshipId r) id) (wRelationships w)
      then (Ok tt, setRelationships w (map (setRelStatus id) (wRelationships w)) (wNextId w))
      else (Err (str "Relationship not found"), w)
  | LogAuditEvent id meta => (Ok tt, setAudit w (wAudit w ++ [(id, meta)]))
  | ScanItems id limit =>
      (Ok (filter (fun r => str_eqb (intakeId (rowItem r)) id)
                  (firstn (N.to_nat limit) (wIntake w))), w)
  | PutItem row => (Ok tt, setIntake w (putRow row (wIntake w)))
  | QueryItems limit => (Ok (filter awaitsEditor (firstZ limit (wIntake w))), w)
  | S3GetObject _ _ => (Ok (wTemplate w), w)
  | Now => (Ok (str "t" ++ natToString (wClock w)), tick w)
  | Ulid => (Ok (str "run_" ++ natToString (wClock w)), w)
  | CacheGet => (Ok (wCache w), w)
  | CacheSet t => (Ok tt, setCache w (Some t))
  end.

Definition env (X : Type) (o : Op X) (w : World) : Result X * World :=
  if wFails w o then (Err (str "Service unavailable"), w) else answer o w.

(** JSON text written with apostrophes in place of quotation marks. *)
Definition json (s : string) : jsstring :=
  map (fun c => if c =? 39 then 34 else c) (str s).

Definition noFailure (X : Type) (o : Op X) : bool := false.

Definition intakeItem (id ttl : string) (suggested : list SuggestedEntity) : IntakeItem :=
  {| intakeId := str id;
     canonicalUrl := str "https://www.ftc.gov/news/" ++ str id;
     ititle := str ttl;
     publishedAt := str "2026-01-15T10:00:00Z";
     publisher := str "FTC";
     summary := Some (str "Press release");
     status := NEW;
     suggestedTags := None;
     extractedSummary := Some (str "Extracted summary");
     suggestedEntities := Some suggested;
     extractionStatus := Some EX_COMPLETED;
     promotedSourceId := None;
     promotedCardId := None;
     editorStatus := None;
     editorDecision := None;
     reviewedAt := None;
     reviewedBy := None |}.

Definition intakeRow (item : IntakeItem) : IntakeRow :=
  {| rowItem := item;
     PK := str "FEED#ftc_press_releases";
     SK := str "INTAKE#" ++ intakeId item;
     GSI1PK := str "STATUS#" ++ statusName (status item);
     GSI1SK := str "TS#" ++ publishedAt item |}.

(** A world holding the given entities, published cards and intake items,
    in which the LLM answers every item with [content]. *)
Definition world (es : list Entity) (cs : list Card) (items : list IntakeItem)
    (content : jsstring) : World :=
  {| wEntities := es; wCards := cs; wSources := []; wRelationships := [];
     wIntake := map intakeRow items; wAudit := []; wCache := None;
     wTemplate := Some (str "Review {{TITLE}}");
     wLLM := fun _ => Ok content;
     wClock := 0; wNextId := 1; wFails := noFailure |}.

Definition failing (w : World) (f : forall X : Type, Op X -> bool) : World :=
  {| wEntities := wEntities w; wCards := wCards w; wSources := wSources w;
     wRelationships := wRelationships w; wIntake := wIntake w; wAudit := wAudit w;
     wCache := wCache w; wTemplate := wTemplate w; wLLM := wLLM w;
     wClock := wClock w; wNextId := wNextId w; wFails := f |}.

(** The configuration with its defaults (lib/config.ts), the editor
    enabled. *)
Definition defaultConfig (dry : bool) : Config :=
  {| enabled := true; dryRun := dry; maxItemsPerRun := Some 20%Z;
     minConfidence := Fin (4 # 5);
     promptTemplateBucket := str "ledger-prompts";
     promptTemplateKey := str "prompts/editor-template.txt" |}.

(** Prints the numbers with at most two decimals that the examples use,
    without trailing zeros, as [Number::toString] does. *)
Definition showDecimal (x : JSNum) : jsstring :=
  match x with
  | Fin q =>
      let s := toFixed2 x in
      if endsWith s (str ".00") then dropLast 3 s
      else if endsWith s (str "0") then dropLast 1 s
      else s
  | _ => toFixed2 x
  end.

Definition platform : Platform :=
  {| validCategories := map str ["fraud"; "consumer"; "labor"; "other"]%string;
     arrayProto := fun s => existsb (str_eqb s)
                     (map str ["map"; "push"; "constructor"; "toString"]%string);
     showNumber := showDecimal |}.

End Mem.

Import Mem.

(** * Vocabulary of the statements *)

Module Spec.

(** ** Responses from which no valid decision can be extracted *)

(** No JSON object is found, or the text found does not parse, or the
    parsed object has no [decision] member, or its [decision] is neither
    of the two strings. *)
Definition NoValidDecision (content : jsstring) : Prop :=
  matchObject (stripFences content) = None
  \/ exists text,
       matchObject (stripFences content) = Some text
       /\ (JSON_parse text = None
           \/ exists parsed,
                JSON_parse text = Some parsed
                /\ (getProp parsed (str "decision") = Some VUndefined
                    \/ (field parsed "decision" <> VStr (str "PUBLISH")
                        /\ field parsed "decision" <> VStr (str "SKIP")))).

Definition decisionName (d : Decision) : jsstring :=
  match d with
  | PUBLISH => str "PUBLISH"
  | SKIP => str "SKIP"
  end.

Definition noChar (c : jschar) (s : jsstring) : Prop := Forall (fun x => x <> c) s.

(** A decision object followed by text: the LLM appends a remark that
    itself contains braces. *)
Definition c7_object : jsstring :=
  json "{'decision': 'PUBLISH', 'reason': 'Valid', 'confidence': 0.9}".

Definition c7_trailing : jsstring :=
  str " (entity types as in {CORPORATION, AGENCY})".

(** ** Properties of the calls along every branch of a program *)

Definition OpPred := forall X : Type, Op X -> bool.

(** [Until pre gate p]: along every branch of [p], whatever the calls
    answer, the calls satisfy [pre] up to the first call that satisfies
    [gate]; nothing is asked of the calls after it. *)
Inductive Until (pre gate : OpPred) (A : Type) : Prog A -> Prop :=
| U_ret (a : A) : Until pre gate (Ret a)
| U_raise (e : Exn) : Until pre gate (Raise e)
| U_log (l : LogEntry) (k : Prog A) : Until pre gate k -> Until pre gate (Log l k)
| U_pre (X : Type) (o : Op X) (k : Result X -> Prog A) :
    pre X o = true -> (forall r, Until pre gate (k r)) -> Until pre gate (Do o k)
| U_gate (X : Type) (o : Op X) (k : Result X -> Prog A) :
    gate X o = true -> Until pre gate (Do o k).

Definition never : OpPred := fun _ _ => false.

(** Every call of every branch satisfies [P]. *)
Definition Always (P : OpPred) (A : Type) (p : Prog A) : Prop := Until P never p.

Definition evSat (P : OpPred) (e : Event) : Prop :=
  match e with
  | ECall o _ => P _ o = true
  | ELog _ => True
  end.

Definition isListCards : OpPred :=
  fun _ o => match o with ListCards _ => true | _ => false end.

(** The duplicate check: the call that fetches the recent cards. *)
Definition isDuplicateCheck (e : Event) : bool :=
  match e with
  | ECall o _ => isListCards o
  | ELog _ => false
  end.

Definition marks (es : EditorStatus) (row : IntakeRow) : bool :=
  match editorStatus (rowItem row), es with
  | Some APPROVED, APPROVED | Some SKIPPED, SKIPPED | Some ED_PENDING, ED_PENDING => true
  | _, _ => false
  end.

(** The writes that can precede the duplicate check: a new entity for a
    create-variant reference, and the SKIPPED annotation of the item. *)
Definition earlyWrite : OpPred :=
  fun _ o =>
    match o with
    | CreateEntity _ _ => true
    | PutItem row => marks SKIPPED row
    | _ => false
    end.

Definition allowedEarly : OpPred := fun _ o => negb (isWrite o) || earlyWrite o.

(** The other writes: sources, cards, relationships, their publication,
    the APPROVED annotation and the audit event. *)
Definition lateWrite : OpPred := fun _ o => isWrite o && negb (earlyWrite o).

Definition eventLateWrite (e : Event) : bool :=
  match e with
  | ECall o _ => lateWrite o
  | ELog _ => false
  end.

Definition notWrite : OpPred := fun _ o => negb (isWrite o).

(** Creation of a source, a card or a relationship. *)
Definition creates : OpPred :=
  fun _ o =>
    match o with
    | CreateSource _ _ _ _ | CreateCard _ | CreateRelationship _ => true
    | _ => false
    end.

Definition notCreates : OpPred := fun _ o => negb (creates o).

(** The part of a trace that precedes the duplicate check (all of it when
    the check is never made). *)
Fixpoint beforeCheck (tr : Trace) : Trace :=
  match tr with
  | [] => []
  | e :: tr' => if isDuplicateCheck e then [] else e :: beforeCheck tr'
  end.

Definition noWrites (tr : Trace) : bool := forallb (fun e => negb (eventIsWrite e)) tr.

Definition eventCreates (e : Event) : bool :=
  match e with
  | ECall o _ => creates o
  | ELog _ => false
  end.

Definition noCreation (tr : Trace) : bool := forallb (fun e => negb (eventCreates e)) tr.

Definition eventAllowedEarly (e : Event) : bool :=
  match e with
  | ECall o _ => allowedEarly o
  | ELog _ => true
  end.

(** The names of the calls of a trace, in order. *)
Inductive Kind :=
| KGetEntity | KFindEntityByName | KCreateEntity | KInvokeClaude | KListCards
| KCreateCard | KPublishCard | KCreateSource | KCaptureHtmlSnapshot
| KCreateRelationship | KPublishRelationship | KLogAuditEvent | KScanItems
| KPutItem | KQueryItems | KS3GetObject | KNow | KUlid | KCacheGet | KCacheSet.

Definition kindOf {X : Type} (o : Op X) : Kind :=
  match o with
  | GetEntity _ => KGetEntity
  | FindEntityByName _ => KFindEntityByName
  | CreateEntity _ _ => KCreateEntity
  | InvokeClaude _ _ _ => KInvokeClaude
  | ListCards _ => KListCards
  | CreateCard _ => KCreateCard
  | PublishCard _ => KPublishCard
  | CreateSource _ _ _ _ => KCreateSource
  | CaptureHtmlSnapshot _ _ => KCaptureHtmlSnapshot
  | CreateRelationship _ => KCreateRelationship
  | PublishRelationship _ => KPublishRelationship
  | LogAuditEvent _ _ => KLogAuditEvent
  | ScanItems _ _ => KScanItems
  | PutItem _ => KPutItem
  | QueryItems _ => KQueryItems
  | S3GetObject _ _ => KS3GetObject
  | Now => KNow
  | Ulid => KUlid
  | CacheGet => KCacheGet
  | CacheSet _ => KCacheSet
  end.

Fixpoint kinds (tr : Trace) : list Kind :=
  match tr with
  | [] => []
  | ECall o _ :: tr' => kindOf o :: kinds tr'
  | ELog _ :: tr' => kinds tr'
  end.

(** [Leaves Q p]: every value that [p] can return, along any branch,
    satisfies [Q]. *)
Inductive Leaves (A : Type) (Q : A -> Prop) : Prog A -> Prop :=
| L_ret (a : A) : Q a -> Leaves Q (Ret a)
| L_raise (e : Exn) : Leaves Q (Raise e)
| L_log (l : LogEntry) (k : Prog A) : Leaves Q k -> Leaves Q (Log l k)
| L_do (X : Type) (o : Op X) (k : Result X -> Prog A) :
    (forall r, Leaves Q (k r)) -> Leaves Q (Do o k).

(** ** The stages of [processItem] that an item reaches *)

Definition suggestionsOf (item : IntakeItem) : list SuggestedEntity :=
  match suggestedEntities item with
  | Some l => l
  | None => []
  end.

Section Stages.

Variable W : Type.
Variable env : forall X : Type, Op X -> W -> Result X * W.
Variable cfg : Config.
Variable plat : Platform.

(** The LLM has answered [content] for the item. *)
Definition reachesResponse (item : IntakeItem) (template : jsstring) (w : W)
    (matched : list Entity) (content : jsstring) (w' : W) (tr : Trace) : Prop :=
  exists w1 t1,
    run env (getMatchedEntities (suggestionsOf item)) w = (Ok matched, w1, t1)
    /\ env (InvokeClaude template item matched) w1 = (Ok content, w')
    /\ tr = t1 ++ [ECall (InvokeClaude template item matched) (Ok content);
                   ELog (Debug, "Editor Claude call completed"%string)].

(** The item is on the PUBLISH path and its entity references have been
    resolved to [resolved]: the response parsed, its decision is still
    PUBLISH after the confidence gate, and the resolution loop
    completed. *)
Definition reachesResolved (item : IntakeItem) (template rid : jsstring) (dry : bool)
    (w : W) (r : EditorResponse) (d : EditorDecision) (resolved : list JSVal)
    (w' : W) (tr : Trace) : Prop :=
  exists matched content w2 t2 parsed now w3 t4,
    reachesResponse item template w matched content w2 t2
    /\ parseEditorResponse content = Some parsed
    /\ env Now w2 = (Ok now, w3)
    /\ confidenceGate cfg plat parsed
         {| decision := erDecision parsed; reason := erReason parsed;
            dconfidence := erConfidence parsed; decidedAt := now; runId := rid |}
       = (r, d)
    /\ erDecision r = PUBLISH
    /\ run env (resolveEntities dry matched (erEntities r)) w3 = (Ok resolved, w', t4)
    /\ tr = t2 ++ [ECall Now (Ok now)] ++ t4.

(** The SKIPPED annotation of the item with the reason [why] is recorded
    (from state [w], leaving [w'] and the trace [tr]); a dry run records
    nothing. *)
Definition annotated (item : IntakeItem) (dry : bool) (d : EditorDecision)
    (why : string) (w w' : W) (tr : Trace) : Prop :=
  if dry then w' = w /\ tr = []
  else run env (updateIntakeEditorStatus (intakeId item) SKIPPED
                  (skipDecision d why) None None) w = (Ok tt, w', tr).

End Stages.

(** ** Runs seen from a stage *)

(** The outcome of a run that continues a run whose trace was [pre]. *)
Definition after (W A : Type) (pre : Trace) (out : Result A * W * Trace)
  : Result A * W * Trace :=
  let '(r, w, t) := out in (r, w, pre ++ t).

(** ** The outcome of an item *)

Definition skipResult (item : IntakeItem) (why : string) : EditorItemResult :=
  mkResult (intakeId item) R_SKIP (VStr (str why)).

Definition failed (item : IntakeItem) (why : jsstring) : EditorItemResult :=
  mkResult (intakeId item) R_ERROR (VStr why).


(** The number of results with a given decision. *)
Fixpoint tally (d : ItemDecision) (rs : list EditorItemResult) : N :=
  match rs with
  | [] => 0
  | r :: rs' => count d r + tally d rs'
  end.

(** The counters of a summary count its results. *)
Definition consistent (s : EditorRunSummary) : Prop :=
  processed s = N.of_nat (List.length (results s))
  /\ published s = tally R_PUBLISH (results s)
  /\ skipped s = tally R_SKIP (results s)
  /\ errors s = tally R_ERROR (results s).

(** What the [catch] of [processItem] makes of the outcome of its [try]
    block. *)
Definition settle (W : Type) (item : IntakeItem)
    (out : Result EditorItemResult * W * Trace) : Result EditorItemResult * W * Trace :=
  match out with
  | (Ok x, w, t) => (Ok x, w, t)
  | (Err e, w, t) =>
      (Ok (failed item e), w, t ++ [ELog (Error, "Error processing item"%string)])
  end.

(** ** Titles that differ in case and white space only *)

(** The relation of the specification, "identical, up to case and
    whitespace differences": equal once lower-cased and rid of white
    space. *)
Definition sameTitleIgnoringCaseAndSpace (a b : jsstring) : bool :=
  str_eqb (filter (fun c => negb (isWhiteSpace c)) (toLowerCase a))
          (filter (fun c => negb (isWhiteSpace c)) (toLowerCase b)).

(** ** Data of the examples *)

(** The scenario of the specification: an item titled "FTC Fines Acme Corp
    $5M", to which the LLM answers PUBLISH with confidence 0.95 and one
    create-variant entity reference. *)
Definition acme : IntakeItem := intakeItem "item1" "FTC Fines Acme Corp $5M" [].

Definition acmeResponse : jsstring :=
  json "{'decision': 'PUBLISH', 'reason': 'Clear enforcement action', 'confidence': 0.95, 'entities': [{'create': {'name': 'Acme Corp', 'type': 'CORPORATION'}}], 'relationships': [], 'cardSummary': 'The FTC fined Acme Corp $5 million.'}".

(** A ledger with no entity and no card. *)
Definition emptyLedger : World := world [] [] [acme] acmeResponse.

(** A ledger that already holds Acme Corp and the published card. *)
Definition acmeCorp : Entity :=
  {| entityId := str "ent_1"; name := str "Acme Corp"; etype := str "CORPORATION" |}.

Definition acmeCard : Card :=
  {| cardId := str "card_3"; title := str "FTC Fines Acme Corp $5M";
     cardSummary := VStr (str "The FTC fined Acme Corp $5 million.");
     category := str "other"; entityIds := [VStr (str "ent_1")];
     sourceRefs := [str "src_2"]; cardStatus := CARD_PUBLISHED |}.

(** A response that refers to Acme Corp by its identifier. *)
Definition byIdResponse : jsstring :=
  json "{'decision': 'PUBLISH', 'reason': 'Clear enforcement action', 'confidence': 0.95, 'entities': [{'entityId': 'ent_1'}], 'relationships': [], 'cardSummary': 'The FTC fined Acme Corp $5 million.'}".



(** An item whose title differs from the title of the published card by
    a doubled space, and one whose title differs by case and surrounding
    white space. *)
Definition spacedAcme : IntakeItem := intakeItem "item2" "FTC  Fines Acme Corp $5M" [].
Definition shoutedAcme : IntakeItem := intakeItem "item3" "  FTC FINES ACME CORP $5M " [].

(** A ledger that holds Acme Corp and the published card, in which the
    item [it] awaits the editor. *)
Definition publishedLedger (it : IntakeItem) : World :=
  world [acmeCorp] [acmeCard] [it] byIdResponse.

(** A response that names no entity. *)
Definition noEntityResponse : jsstring :=
  json "{'decision': 'PUBLISH', 'reason': 'Clear enforcement action', 'confidence': 0.95, 'entities': [], 'cardSummary': 'The FTC fined Acme Corp $5 million.'}".

Definition noEntityLedger : World := world [] [] [acme] noEntityResponse.

(** The intake table rejects writes. *)
Definition rejectsPutItem : forall X : Type, Op X -> bool :=
  fun _ o => match o with PutItem _ => true | _ => false end.

Definition processIn (it : IntakeItem) (dry : bool) (w : World)
  : Result EditorItemResult * World * Trace :=
  run Mem.env (processItem (defaultConfig dry) platform it (str "T") (str "run_0") dry) w.

(** A ledger that holds Acme Corp and no card. *)
Definition entityLedger : World := world [acmeCorp] [] [acme] byIdResponse.

(** The process of the scenario: the defaults, template and run
    identifier fixed. *)
Definition processAcme (dry : bool) (w : World) : Result EditorItemResult * World * Trace :=
  run Mem.env (processItem (defaultConfig dry) platform acme (str "T") (str "run_0") dry) w.

(** An item with a suggested entity, which makes it eligible, and a
    ledger whose LLM answers with prose. *)
Definition acmeSuggestion : SuggestedEntity :=
  {| extractedName := str "Acme Corp"; confidence := Fin (9 # 10);
     matchedEntityId := None |}.

Definition flagged : IntakeItem :=
  intakeItem "item9" "FTC Fines Acme Corp $5M" [acmeSuggestion].

Definition proseRun : World := world [] [] [flagged] (str "This is not JSON at all").

(** A response that creates the agency and the company and relates
    them. *)
Definition finedResponse : jsstring :=
  json "{'decision': 'PUBLISH', 'reason': 'Clear enforcement action', 'confidence': 0.95, 'category': 'CONSUMER', 'entities': [{'create': {'name': 'Federal Trade Commission', 'type': 'GOVERNMENT_AGENCY'}}, {'create': {'name': 'Acme Corp', 'type': 'CORPORATION'}}], 'relationships': [{'fromEntityIndex': 1, 'toEntityIndex': 0, 'type': 'FINED_BY', 'description': 'FTC fined Acme Corp'}], 'cardSummary': 'The FTC fined Acme Corp $5 million.'}".

Definition finedLedger : World := world [] [] [acme] finedResponse.

(** The audit log rejects writes. *)
Definition rejectsAudit : forall X : Type, Op X -> bool :=
  fun _ o => match o with LogAuditEvent _ _ => true | _ => false end.

(** What a ledger holds: the cards with their publication state, the
    entities, the sources, the relationships with their state; and how the
    intake items are annotated. *)
Definition written (w : World)
  : list (jsstring * bool) * list jsstring * list jsstring * list (jsstring * RelStatus) :=
  (map (fun c => (cardId c, isPublished c)) (wCards w),
   map entityId (wEntities w),
   map sourceId (wSources w),
   map (fun r => (relationshipId r, relStatus r)) (wRelationships w)).

Definition annotations (w : World)
  : list (option EditorStatus * IntakeStatus * option jsstring) :=
  map (fun r => (editorStatus (rowItem r), status (rowItem r), promotedCardId (rowItem r)))
      (wIntake w).

(** A response whose first entity reference is an identifier that the
    directory does not hold (the LLM "was returning invalid entity IDs
    like ftc-1", as the tests of the editor put it). *)
Definition unknownIdResponse : jsstring :=
  json "{'decision': 'PUBLISH', 'reason': 'Clear enforcement action', 'confidence': 0.95, 'entities': [{'entityId': 'ftc-1'}, {'create': {'name': 'Acme Corp', 'type': 'CORPORATION'}}], 'relationships': [], 'cardSummary': 'The FTC fined Acme Corp $5 million.'}".

Definition unknownIdLedger : World := world [] [] [acme] unknownIdResponse.

(** An entity reference by identifier. *)
Definition byId (id : JSVal) : JSVal := VObj [(str "entityId", id)].

(** The responses of the tests of the parser (editor.test.ts). *)
Definition testPublish : jsstring :=
  json "{
        'decision': 'PUBLISH',
        'reason': 'Clear enforcement action with fines',
        'confidence': 0.95,
        'entities': [
          { 'entityId': 'ent_123' },
          { 'create': { 'name': 'Acme Corp', 'type': 'CORPORATION' } }
        ],
        'relationships': [
          { 'fromEntityIndex': 0, 'toEntityIndex': 1, 'type': 'FINED_BY', 'description': 'FTC fined Acme Corp' }
        ],
        'cardSummary': 'The FTC fined Acme Corp $5 million for deceptive practices.'
      }".

Definition testFenced : jsstring :=
  str "```json" ++ [10]
    ++ json "{'decision': 'SKIP', 'reason': 'Test', 'confidence': 0.5}" ++ [10]
    ++ str "```".

Definition testEmbedded : jsstring :=
  str "Here is my analysis:" ++ [10]
    ++ json "{'decision': 'PUBLISH', 'reason': 'Valid', 'confidence': 0.9}" ++ [10]
    ++ str "End of response.".

(** An answer of the LLM that is no JSON. *)
Definition proseLedger : World := world [] [] [acme] (str "This is not JSON at all").

End Spec.

Import Spec.

Module Terms.

(** A number of the interval from 0 to 1. *)
Definition inUnitInterval (n : JSNum) : Prop :=
  match n with
  | Fin q => (0 <= q /\ q <= 1)%Q
  | _ => False
  end.

(** A response inside a Markdown code fence, with or without the language
    tag. *)
Definition fenced (tagged : bool) (body : jsstring) : jsstring :=
  fence ++ (if tagged then str "json" else []) ++ 10 :: body ++ 10 :: fence.




(** An entity reference by index, as the LLM writes it. *)
Definition byIndex (i : Z) : JSVal :=
  VObj [(str "matchedIndex", VNum (Fin (i # 1)))].

(** What a reference by index contributes to the resolved identifiers:
    the identifier of the matched entity at that index, nothing when the
    index is out of range. *)
Definition resolvedByIndex (matched : list Entity) (i : Z) : list JSVal :=
  if ((0 <=? i) && (i <? Z.of_nat (List.length matched)))%Z
  then match nth_error matched (Z.to_nat i) with
       | Some e => [VStr (entityId e)]
       | None => []
       end
  else [].

(** The relationships whose publication a trace attempts, in order. *)
Definition publishedIds (tr : Trace) : list jsstring :=
  flat_map (fun e =>
              match e with
              | ECall o _ =>
                  match o with
                  | PublishRelationship id => [id]
                  | _ => []
                  end
              | ELog _ => []
              end) tr.

(** An item that is worth the editor's attention: it has a summary, and
    a suggested entity of confidence 0.5 or more. *)
Definition usable (item : IntakeItem) : Prop :=
  (nonEmpty (extractedSummary item) || nonEmpty (summary item) = true)
  /\ exists e, In e (suggestionsOf item) /\ num_ge (confidence e) (Fin (1 # 2)) = true.

(** The services as they answer when none of them is down. *)
Definition healthy (X : Type) (o : Op X) (w : World) : Result X * World := answer o w.

(** Two suggestions for Acme Corp: one with an identifier that the
    directory no longer holds, one without. *)
Definition staleSuggestion : SuggestedEntity :=
  {| extractedName := str "ACME CORP."; confidence := Fin (9 # 10);
     matchedEntityId := Some (str "ent_gone") |}.

(** A relationship of the LLM whose two entity indices are numbers. *)
Definition numericSpec (spec : JSVal) : Prop :=
  exists m a b,
    spec = VObj m
    /\ field spec "fromEntityIndex" = VNum a
    /\ field spec "toEntityIndex" = VNum b.

(** The calls of a run that is switched off: the run identifier and the
    clock. *)
Definition clockOnly (k : Kind) : bool :=
  match k with
  | KUlid | KNow => true
  | _ => false
  end.

(** A summary that reports nothing. *)
Definition emptySummary (s : EditorRunSummary) : Prop :=
  processed s = 0 /\ published s = 0 /\ skipped s = 0 /\ errors s = 0 /\ results s = [].

(** The configuration with the editor switched off. *)
Definition disabledConfig : Config :=
  {| enabled := false; dryRun := false; maxItemsPerRun := Some 20%Z;
     minConfidence := Fin (4 # 5);
     promptTemplateBucket := str "ledger-prompts";
     promptTemplateKey := str "prompts/editor-template.txt" |}.

(** The configuration without the bucket of the prompt templates. *)
Definition noBucketConfig : Config :=
  {| enabled := true; dryRun := false; maxItemsPerRun := Some 20%Z;
     minConfidence := Fin (4 # 5);
     promptTemplateBucket := [];
     promptTemplateKey := str "prompts/editor-template.txt" |}.

(** The decision SKIP, as recorded. *)
Definition skipRecord : EditorDecision :=
  {| decision := SKIP; reason := VStr (str "Not misconduct"); dconfidence := Fin (9 # 10);
     decidedAt := str "t0"; runId := str "run_0" |}.

(** A relationship between the second and the first resolved entity. *)
Definition finedBy : JSVal :=
  VObj [(str "fromEntityIndex", VNum (Fin 1)); (str "toEntityIndex", VNum (Fin 0));
        (str "type", VStr (str "FINED_BY"))].

End Terms.

(** * Programs over the calls of a service

    The other services are written against their own collaborators. Their
    programs are trees of calls, as the programs of the editor are, over
    the calls [O] of the service and the values [E] that it throws. *)

Module Free.

Inductive Outcome (E A : Type) :=
| Done (a : A)
| Thrown (e : E).
Arguments Done {E A} a.
Arguments Thrown {E A} e.

Section Programs.

Variable O : Type -> Type.
Variable E : Type.

Inductive M (A : Type) : Type :=
| Pure (a : A)
| Throw (e : E)
| Note (l : LogEntry) (k : M A)
| Call (X : Type) (o : O X) (k : Outcome E X -> M A).
Arguments Pure {A} a.
Arguments Throw {A} e.
Arguments Note {A} l k.
Arguments Call {A X} o k.

Fixpoint andThen {A B : Type} (p : M A) (f : A -> M B) : M B :=
  match p with
  | Pure a => f a
  | Throw e => Throw e
  | Note l k => Note l (andThen k f)
  | Call o k => Call o (fun r => andThen (k r) f)
  end.

(** [try p catch (e) h e] *)
Fixpoint handle {A : Type} (p : M A) (h : E -> M A) : M A :=
  match p with
  | Pure a => Pure a
  | Throw e => h e
  | Note l k => Note l (handle k h)
  | Call o k => Call o (fun r => handle (k r) h)
  end.

(** [await o] *)
Definition await {X : Type} (o : O X) : M X :=
  Call o (fun r => match r with Done x => Pure x | Thrown e => Throw e end).

(** [await Promise.all([a, b])] for two calls: both are made; the
    promise rejects when one of them does (with the rejection of the first
    of the two, when both do). *)
Definition awaitBoth {X Y : Type} (a : O X) (b : O Y) : M (X * Y) :=
  Call a (fun ra =>
  Call b (fun rb =>
    match ra, rb with
    | Done x, Done y => Pure (x, y)
    | Thrown e, _ => Throw e
    | _, Thrown e => Throw e
    end)).

Definition note (lv : Level) (msg : string) : M unit := Note (lv, msg) (Pure tt).

(** A call with its outcome. *)
Inductive Step :=
| Called (X : Type) (o : O X) (r : Outcome E X)
| Noted (l : LogEntry).

Variable S : Type.
Variable env : forall X : Type, O X -> S -> Outcome E X * S.

Fixpoint exec {A : Type} (p : M A) (s : S) : Outcome E A * S * list Step :=
  match p with
  | Pure a => (Done a, s, [])
  | Throw e => (Thrown e, s, [])
  | Note l k =>
      let '(r, s', tr) := exec k s in (r, s', Noted l :: tr)
  | Call o k =>
      let '(x, s1) := env o s in
      let '(r, s2, tr) := exec (k x) s1 in
      (r, s2, Called o x :: tr)
  end.

End Programs.

Arguments Pure {O E A} a.
Arguments Throw {O E A} e.
Arguments Note {O E A} l k.
Arguments Call {O E A X} o k.
Arguments Called {O E X} o r.
Arguments Noted {O E} l.
Arguments andThen {O E A B} p f.
Arguments handle {O E A} p h.
Arguments await {O E X} o.
Arguments awaitBoth {O E X Y} a b.
Arguments note {O E} lv msg%_string.
Arguments exec {O E S} env {A} p s.

End Free.


(** * The LLM transport (lib/anthropic.ts) *)

Module Anthropic.

Import Free.

(** [String.prototype.includes] *)
Fixpoint includes (s sub : jsstring) : bool :=
  startsWith s sub
  || match s with
     | [] => false
     | _ :: s' => includes s' sub
     end.

(** [config.anthropic] and the retry settings of [config.extraction]
    (lib/config.ts); the three numbers come from [parseInt], which yields
    an integer or [NaN] ([None]). *)
Record Settings := {
  apiKey : jsstring;
  model : jsstring;
  defaultMaxTokens : option Z;
  retryAttempts : option Z;
  retryDelayMs : option Z
}.

(** [ClaudeRequest] *)
Record ClaudeRequest := {
  prompt : jsstring;
  maxTokens : option Z;
  temperature : option JSNum
}.

(** [ClaudeResponse] *)
Record ClaudeResponse := {
  content : jsstring;
  inputTokens : Z;
  outputTokens : Z
}.

(** A block of the content of a message of the API: a block of type
    [text], or a block of another type (a tool use, say). *)
Inductive Block :=
| TextBlock (text : jsstring)
| OtherBlock.

(** The message that the API returns: its content and its usage. *)
Record Message := {
  blocks : list Block;
  input_tokens : Z;
  output_tokens : Z
}.

(** The argument of [anthropic.messages.create]. *)
Record MessageParams := {
  pModel : jsstring;
  max_tokens : option Z;
  pTemperature : JSNum;
  userContent : jsstring
}.

(** What the transport throws: an [Error] with its message, or [null]
    (the initial value of [lastError]). *)
Inductive Failure :=
| ErrorOf (message : jsstring)
| Null.

Inductive Op : Type -> Type :=
| MessagesCreate (p : MessageParams) : Op Message
(* setTimeout, through sleep; the delay is a number of milliseconds or NaN *)
| Sleep (ms : option Z) : Op unit.

Definition Prog := M Op Failure.

Section WithSettings.

Variable cfg : Settings.

(** [request.maxTokens || config.extraction.maxTokens] *)
Definition maxTokensOf (request : ClaudeRequest) : option Z :=
  match maxTokens request with
  | Some 0%Z | None => defaultMaxTokens cfg
  | Some n => Some n
  end.

(** [response.content.find((block) => block.type === 'text')], and the
    text of the block found, or the empty string. *)
Fixpoint firstText (bs : list Block) : jsstring :=
  match bs with
  | [] => []
  | TextBlock t :: _ => t
  | OtherBlock :: bs' => firstText bs'
  end.

(** [invokeClaudeOnce]. [getClient] throws when the key is not set; the
    client that it creates otherwise is kept for the later calls. *)
Definition invokeClaudeOnce (request : ClaudeRequest) : Prog ClaudeResponse :=
  match apiKey cfg with
  | [] => Throw (ErrorOf (str "ANTHROPIC_API_KEY environment variable is not set"))
  | _ =>
      andThen
        (await (MessagesCreate
                  {| pModel := model cfg;
                     max_tokens := maxTokensOf request;
                     pTemperature := match temperature request with
                                     | Some t => t
                                     | None => zero
                                     end;
                     userContent := prompt request |}))
        (fun response =>
           andThen (note Debug "Claude extraction completed")
             (fun _ =>
                Pure {| content := firstText (blocks response);
                        inputTokens := input_tokens response;
                        outputTokens := output_tokens response |}))
  end.

(** [error instanceof Error ? error : new Error(String(error))] *)
Definition toError (f : Failure) : jsstring :=
  match f with
  | ErrorOf m => m
  | Null => str "null"
  end.

Definition isRateLimit (message : jsstring) : bool :=
  includes message (str "rate")
  || includes message (str "429")
  || includes message (str "overloaded").

(** [attempt < retryAttempts - 1] *)
Definition notLast (attempt : Z) : bool :=
  match retryAttempts cfg with
  | Some n => (attempt <? n - 1)%Z
  | None => false
  end.

(** [retryDelayMs * Math.pow(2, attempt)] *)
Definition delayOf (attempt : Z) : option Z :=
  match retryDelayMs cfg with
  | Some d => Some (d * 2 ^ attempt)%Z
  | None => None
  end.

(** The [for] loop of [invokeClaudeExtraction] from the attempt
    [attempt] on, with [remaining] turns left before its test fails, and
    the [throw lastError] that follows the loop. *)
Fixpoint attempts (remaining : nat) (attempt : Z) (lastError : Failure)
    (request : ClaudeRequest) : Prog ClaudeResponse :=
  match remaining with
  | O => Throw lastError
  | S remaining' =>
      handle (invokeClaudeOnce request)
        (fun error =>
           let lastError := ErrorOf (toError error) in
           if isRateLimit (toError error) && notLast attempt then
             andThen (note Warn "Rate limited by Anthropic API, retrying...")
               (fun _ =>
                  andThen (await (Sleep (delayOf attempt)))
                    (fun _ => attempts remaining' (attempt + 1) lastError request))
           else Throw lastError)
  end.

(** The number of turns of the loop: [attempt < retryAttempts] from 0. *)
Definition turns : nat :=
  match retryAttempts cfg with
  | Some n => Z.to_nat n
  | None => O
  end.

Definition invokeClaudeExtraction (request : ClaudeRequest) : Prog ClaudeResponse :=
  attempts turns 0 Null request.

End WithSettings.

(** ** An API that answers from a script *)

(** The answers of the API to the calls to come; the sleeps so far, the
    latest first. *)
Record Line := {
  script : list (Outcome Failure Message);
  slept : list (option Z)
}.

Definition scripted (X : Type) (o : Op X) (l : Line) : Outcome Failure X * Line :=
  match o in Op T return Outcome Failure T * Line with
  | MessagesCreate _ =>
      match script l with
      | [] => (Thrown (ErrorOf (str "Connection error")), l)
      | r :: rest => (r, {| script := rest; slept := slept l |})
      end
  | Sleep ms => (Done tt, {| script := script l; slept := ms :: slept l |})
  end.

(** The number of calls to the API in a run. *)
Fixpoint apiCalls (tr : list (Step Op Failure)) : nat :=
  match tr with
  | [] => O
  | Called o _ :: tr' =>
      match o with
      | MessagesCreate _ => S (apiCalls tr')
      | Sleep _ => apiCalls tr'
      end
  | Noted _ :: tr' => apiCalls tr'
  end.

(** The delays of the sleeps of a run, in order. *)
Fixpoint sleeps (tr : list (Step Op Failure)) : list (option Z) :=
  match tr with
  | [] => []
  | Called o _ :: tr' =>
      match o with
      | MessagesCreate _ => sleeps tr'
      | Sleep ms => ms :: sleeps tr'
      end
  | Noted _ :: tr' => sleeps tr'
  end.

(** The delays [d * 2^a, d * 2^(a+1), ...] of [k] retries from the
    attempt [a] on, and the delays [d, 2d, 4d, ...] of the first [k]
    retries. *)
Definition delaysFrom (d : Z) (a k : nat) : list (option Z) :=
  map (fun i => Some (d * 2 ^ Z.of_nat i)%Z) (seq a k).

Definition backoff (d : Z) (k : nat) : list (option Z) := delaysFrom d 0 k.

(** The answer of an API that is rate limited. *)
Definition rateLimited (message : jsstring) : Outcome Failure Message :=
  Thrown (ErrorOf message).

(** A message with one block of text. *)
Definition textMessage (t : string) : Message :=
  {| blocks := [TextBlock (str t)]; input_tokens := 100; output_tokens := 20 |}.

(** The settings with their defaults, and a key. *)
Definition defaults : Settings :=
  {| apiKey := str "sk-test"; model := str "claude-3-haiku-20240307";
     defaultMaxTokens := Some 8192%Z; retryAttempts := Some 3%Z;
     retryDelayMs := Some 1000%Z |}.

(** The request of the editor. *)
Definition editorRequest : ClaudeRequest :=
  {| prompt := str "Review"; maxTokens := Some 2048%Z; temperature := Some zero |}.

Definition fresh (answers : list (Outcome Failure Message)) : Line :=
  {| script := answers; slept := [] |}.

(** The settings when [EXTRACTION_RETRY_ATTEMPTS] is no number. *)
Definition noAttempts : Settings :=
  {| apiKey := str "sk-test"; model := str "claude-3-haiku-20240307";
     defaultMaxTokens := Some 8192%Z; retryAttempts := None;
     retryDelayMs := Some 1000%Z |}.

End Anthropic.

(** * The relationship service (lib/services/relationships.ts) *)

Module Relationships.

Import Free.

Inductive Status := DRAFT | PUBLISHED | RETRACTED.

Definition statusName (s : Status) : jsstring :=
  match s with
  | DRAFT => str "DRAFT"
  | PUBLISHED => str "PUBLISHED"
  | RETRACTED => str "RETRACTED"
  end.

(** [Relationship] (shared package). [sourceRefs] is written by every
    operation of the service; [publishRelationship] still provides for a
    stored relationship without it. *)
Record Relationship := {
  relationshipId : jsstring;
  fromEntityId : jsstring;
  toEntityId : jsstring;
  type : jsstring;
  status : Status;
  description : option jsstring;
  startDate : option jsstring;
  endDate : option jsstring;
  sourceRefs : option (list jsstring);
  ownershipPercentage : option JSNum;
  createdAt : jsstring;
  createdBy : jsstring;
  updatedAt : jsstring;
  updatedBy : option jsstring;
  publishedAt : option jsstring;
  publishedBy : option jsstring;
  retractionReason : option jsstring;
  retractedAt : option jsstring;
  retractedBy : option jsstring
}.

(** [RelationshipDbItem]: a relationship with its table key and its
    index keys. [stripKeys] gives the relationship back. *)
Record DbItem := {
  PK : jsstring;
  SK : jsstring;
  GSI1PK : option jsstring;
  GSI1SK : option jsstring;
  GSI2PK : option jsstring;
  GSI2SK : option jsstring;
  payload : Relationship
}.

(** [CreateRelationshipRequest] *)
Record CreateRequest := {
  cFrom : jsstring;
  cTo : jsstring;
  cType : jsstring;
  cDescription : option jsstring;
  cStartDate : option jsstring;
  cEndDate : option jsstring;
  cSourceRefs : option (list jsstring);
  cOwnership : option JSNum
}.

(** [UpdateRelationshipRequest] *)
Record UpdateRequest := {
  uType : option jsstring;
  uDescription : option jsstring;
  uStartDate : option jsstring;
  uEndDate : option jsstring;
  uSourceRefs : option (list jsstring);
  uOwnership : option JSNum
}.

(** What [getEntity] resolves to, as far as the service reads it. *)
Record EntityRef := {
  entityId : jsstring;
  name : jsstring;
  etype : jsstring
}.

(** [RelationshipWithEntities] *)
Record Hydrated := {
  rel : Relationship;
  fromEntity : option EntityRef;
  toEntity : option EntityRef
}.

(** The errors of lib/errors.ts that the service throws, and the errors
    of its collaborators. *)
Inductive ServiceError :=
| NotFoundError (resource id : jsstring)
| ValidationError (message : jsstring)
| OtherError (message : jsstring).

(** The two indexes of the table: by entity, and by status. *)
Inductive Index := GSI1 | GSI2.

(** A page of a query: the items, and the key from which the next page
    starts, if there is one. *)
Record Page := {
  pageItems : list DbItem;
  lastEvaluatedKey : option JSVal
}.

Inductive Op : Type -> Type :=
(* services/entities.ts *)
| GetEntity (id : jsstring) : Op EntityRef
(* lib/dynamodb.ts on the relationships table; a query names its index,
   the value of the partition key, Limit, ExclusiveStartKey and
   ScanIndexForward (true when the caller leaves it out, as DynamoDB
   takes it) *)
| GetItem (pk sk : jsstring) : Op (option DbItem)
| PutItem (item : DbItem) : Op unit
| Query (index : Index) (pk : jsstring) (limit : N) (start : option JSVal)
    (forward : bool) : Op Page
| EncodeCursor (key : JSVal) : Op jsstring
| DecodeCursor (cursor : jsstring) : Op JSVal
(* new Date().toISOString() and ulid() *)
| Now : Op jsstring
| Ulid : Op jsstring.

Definition Prog := M Op ServiceError.

Definition relKey (id : jsstring) : jsstring := str "REL#" ++ id.
Definition entityKey (id : jsstring) : jsstring := str "ENTITY#" ++ id.
Definition statusKey (s : Status) : jsstring := str "STATUS#" ++ statusName s.
Definition timeKey (t : jsstring) : jsstring := str "TS#" ++ t.

(** The item of a relationship under which it is found by its first
    entity and by its status. *)
Definition metaItem (r : Relationship) (ts : jsstring) : DbItem :=
  {| PK := relKey (relationshipId r); SK := str "META";
     GSI1PK := Some (entityKey (fromEntityId r));
     GSI1SK := Some (relKey (relationshipId r));
     GSI2PK := Some (statusKey (status r));
     GSI2SK := Some (timeKey ts);
     payload := r |}.

(** The item under which it is found by its second entity. *)
Definition reverseItem (r : Relationship) : DbItem :=
  {| PK := relKey (relationshipId r); SK := str "REVERSE";
     GSI1PK := Some (entityKey (toEntityId r));
     GSI1SK := Some (relKey (relationshipId r));
     GSI2PK := None; GSI2SK := None;
     payload := r |}.

(** [p < 0 || p > 100] *)
Definition outOfRange (p : option JSNum) : bool :=
  match p with
  | Some x => num_lt x zero || num_lt (Fin 100) x
  | None => false
  end.

Definition ownershipMessage : jsstring :=
  str "ownershipPercentage must be between 0 and 100".

(** [a ?? b] *)
Definition orElse {A : Type} (a : option A) (b : A) : A :=
  match a with
  | Some x => x
  | None => b
  end.

(** [a ?? b] for a field that is optional itself *)
Definition orKeep {A : Type} (a b : option A) : option A :=
  match a with
  | Some x => Some x
  | None => b
  end.

Definition createRelationship (input : CreateRequest) (userId : jsstring)
  : Prog Relationship :=
  andThen (awaitBoth (GetEntity (cFrom input)) (GetEntity (cTo input))) (fun _ =>
  if outOfRange (cOwnership input) then Throw (ValidationError ownershipMessage)
  else
    andThen (await Now) (fun now =>
    andThen (await Ulid) (fun id =>
    let relationship :=
      {| relationshipId := id;
         fromEntityId := cFrom input;
         toEntityId := cTo input;
         type := cType input;
         status := DRAFT;
         description := cDescription input;
         startDate := cStartDate input;
         endDate := cEndDate input;
         sourceRefs := Some (orElse (cSourceRefs input) []);
         ownershipPercentage := cOwnership input;
         createdAt := now;
         createdBy := userId;
         updatedAt := now;
         updatedBy := None;
         publishedAt := None; publishedBy := None;
         retractionReason := None; retractedAt := None; retractedBy := None |} in
    andThen (await (PutItem (metaItem relationship now))) (fun _ =>
    andThen (await (PutItem (reverseItem relationship))) (fun _ =>
    Pure relationship))))).

Definition getRelationship (id : jsstring) : Prog Relationship :=
  andThen (await (GetItem (relKey id) (str "META"))) (fun item =>
  match item with
  | None => Throw (NotFoundError (str "Relationship") id)
  | Some i => Pure (payload i)
  end).

(** The two writes of an update, a publication or a retraction. The keys
    are built from the identifier that was asked for and from the
    relationship that was read. *)
Definition writeBoth (id : jsstring) (updated : Relationship) (ts : jsstring)
  : Prog unit :=
  andThen
    (awaitBoth
       (PutItem {| PK := relKey id; SK := str "META";
                   GSI1PK := Some (entityKey (fromEntityId updated));
                   GSI1SK := Some (relKey id);
                   GSI2PK := Some (statusKey (status updated));
                   GSI2SK := Some (timeKey ts);
                   payload := updated |})
       (PutItem {| PK := relKey id; SK := str "REVERSE";
                   GSI1PK := Some (entityKey (toEntityId updated));
                   GSI1SK := Some (relKey id);
                   GSI2PK := None; GSI2SK := None;
                   payload := updated |}))
    (fun _ => Pure tt).

Definition isDraft (s : Status) : bool :=
  match s with DRAFT => true | _ => false end.

Definition isPublished (s : Status) : bool :=
  match s with PUBLISHED => true | _ => false end.

Definition updateRelationship (id : jsstring) (input : UpdateRequest) (userId : jsstring)
  : Prog Relationship :=
  andThen (getRelationship id) (fun existing =>
  if negb (isDraft (status existing))
  then Throw (ValidationError (str "Only DRAFT relationships can be updated"))
  else if outOfRange (uOwnership input) then Throw (ValidationError ownershipMessage)
  else
    andThen (await Now) (fun now =>
    let updated :=
      {| relationshipId := relationshipId existing;
         fromEntityId := fromEntityId existing;
         toEntityId := toEntityId existing;
         type := orElse (uType input) (type existing);
         status := status existing;
         description := orKeep (uDescription input) (description existing);
         startDate := orKeep (uStartDate input) (startDate existing);
         endDate := orKeep (uEndDate input) (endDate existing);
         sourceRefs := orKeep (uSourceRefs input) (sourceRefs existing);
         ownershipPercentage := orKeep (uOwnership input) (ownershipPercentage existing);
         createdAt := createdAt existing;
         createdBy := createdBy existing;
         updatedAt := now;
         updatedBy := Some userId;
         publishedAt := publishedAt existing; publishedBy := publishedBy existing;
         retractionReason := retractionReason existing;
         retractedAt := retractedAt existing; retractedBy := retractedBy existing |} in
    andThen (writeBoth id updated (createdAt updated)) (fun _ => Pure updated))).

(** [!existing.sourceRefs || existing.sourceRefs.length === 0] *)
Definition noSource (r : Relationship) : bool :=
  match sourceRefs r with
  | Some (_ :: _) => false
  | _ => true
  end.

Definition publishRelationship (id : jsstring) (userId : jsstring) : Prog Relationship :=
  andThen (getRelationship id) (fun existing =>
  if negb (isDraft (status existing))
  then Throw (ValidationError (str "Only DRAFT relationships can be published"))
  else if noSource existing
  then Throw (ValidationError
                (str "At least one source reference is required to publish"))
  else
    andThen (await Now) (fun now =>
    let updated :=
      {| relationshipId := relationshipId existing;
         fromEntityId := fromEntityId existing;
         toEntityId := toEntityId existing;
         type := type existing;
         status := PUBLISHED;
         description := description existing;
         startDate := startDate existing;
         endDate := endDate existing;
         sourceRefs := sourceRefs existing;
         ownershipPercentage := ownershipPercentage existing;
         createdAt := createdAt existing;
         createdBy := createdBy existing;
         updatedAt := now;
         updatedBy := Some userId;
         publishedAt := Some now; publishedBy := Some userId;
         retractionReason := retractionReason existing;
         retractedAt := retractedAt existing; retractedBy := retractedBy existing |} in
    andThen (writeBoth id updated now) (fun _ => Pure updated))).

(** [!reason || reason.trim().length === 0] *)
Definition blank (reason : jsstring) : bool :=
  match trim reason with
  | [] => true
  | _ => false
  end.

Definition retractRelationship (id : jsstring) (reason : jsstring) (userId : jsstring)
  : Prog Relationship :=
  andThen (getRelationship id) (fun existing =>
  if negb (isPublished (status existing))
  then Throw (ValidationError (str "Only PUBLISHED relationships can be retracted"))
  else if blank reason
  then Throw (ValidationError (str "A retraction reason is required"))
  else
    andThen (await Now) (fun now =>
    let updated :=
      {| relationshipId := relationshipId existing;
         fromEntityId := fromEntityId existing;
         toEntityId := toEntityId existing;
         type := type existing;
         status := RETRACTED;
         description := description existing;
         startDate := startDate existing;
         endDate := endDate existing;
         sourceRefs := sourceRefs existing;
         ownershipPercentage := ownershipPercentage existing;
         createdAt := createdAt existing;
         createdBy := createdBy existing;
         updatedAt := now;
         updatedBy := Some userId;
         publishedAt := publishedAt existing; publishedBy := publishedBy existing;
         retractionReason := Some reason;
         retractedAt := Some now; retractedBy := Some userId |} in
    andThen (writeBoth id updated now) (fun _ => Pure updated))).

(** ** getRelationshipsForEntity *)

Definition sameStatus (a b : Status) : bool :=
  match a, b with
  | DRAFT, DRAFT | PUBLISHED, PUBLISHED | RETRACTED, RETRACTED => true
  | _, _ => false
  end.

(** The elements of a [Set], in the order of their first insertion. *)
Fixpoint distinct (seen ids : list jsstring) : list jsstring :=
  match ids with
  | [] => []
  | id :: rest =>
      if existsb (str_eqb id) seen then distinct seen rest
      else id :: distinct (id :: seen) rest
  end.

Definition unknownEntity (id : jsstring) : EntityRef :=
  {| entityId := id; name := str "[Unknown Entity]"; etype := str "UNKNOWN" |}.

(** The lookups of the entities: one per identifier, each with its own
    [try]; the entries of the [Map], in the order of the lookups. *)
Fixpoint hydrate (ids : list jsstring) : Prog (list (jsstring * EntityRef)) :=
  match ids with
  | [] => Pure []
  | id :: rest =>
      andThen
        (handle
           (andThen (await (GetEntity id))
              (fun entity =>
                 Pure {| entityId := entityId entity; name := name entity;
                         etype := etype entity |}))
           (fun _ => Pure (unknownEntity id)))
        (fun ref => andThen (hydrate rest) (fun entries => Pure ((id, ref) :: entries)))
  end.

(** [entityMap.get(id)] *)
Fixpoint mapGet (entries : list (jsstring * EntityRef)) (id : jsstring)
  : option EntityRef :=
  match entries with
  | [] => None
  | (k, v) :: rest => if str_eqb k id then Some v else mapGet rest id
  end.

Definition endpoints (rs : list Relationship) : list jsstring :=
  flat_map (fun r => [fromEntityId r; toEntityId r]) rs.

Definition getRelationshipsForEntity (id : jsstring) (wanted : option Status)
  : Prog (list Hydrated) :=
  andThen (await (Query GSI1 (entityKey id) 100 None true)) (fun page =>
  let relationships :=
    match wanted with
    | Some s => filter (fun r => sameStatus (status r) s) (map payload (pageItems page))
    | None => map payload (pageItems page)
    end in
  andThen (hydrate (distinct [] (endpoints relationships))) (fun entityMap =>
  Pure (map (fun r => {| rel := r;
                         fromEntity := mapGet entityMap (fromEntityId r);
                         toEntity := mapGet entityMap (toEntityId r) |})
            relationships))).

Definition getPublicRelationshipsForEntity (id : jsstring) : Prog (list Hydrated) :=
  getRelationshipsForEntity id (Some PUBLISHED).

(** ** listRelationships *)

(** [RelationshipQueryParams]; a limit that is not given is [None]. *)
Record QueryParams := {
  qEntityId : option jsstring;
  qType : option jsstring;
  qStatus : option Status;
  qLimit : option N;
  qCursor : option jsstring
}.

(** [PaginatedResponse<Relationship>] *)
Record Listing := {
  listed : list Relationship;
  cursor : option jsstring;
  hasMore : bool
}.

(** [params.limit || 20] *)
Definition limitOf (params : QueryParams) : N :=
  match qLimit params with
  | Some 0 | None => 20
  | Some n => n
  end.

(** A string that is given and not empty. *)
Definition given (s : option jsstring) : option jsstring :=
  match s with
  | Some (c :: t) => Some (c :: t)
  | _ => None
  end.

(** [relationships.filter((r) => r.type === params.type)], when a type
    is asked for. *)
Definition ofType (t : option jsstring) (rs : list Relationship) : list Relationship :=
  match given t with
  | Some ty => filter (fun r => str_eqb (type r) ty) rs
  | None => rs
  end.

Definition ofStatus (s : option Status) (rs : list Relationship) : list Relationship :=
  match s with
  | Some st => filter (fun r => sameStatus (status r) st) rs
  | None => rs
  end.

(** The response for a page: [cursor] and [hasMore] from the key of the
    next page. *)
Definition respond (rs : list Relationship) (page : Page) : Prog Listing :=
  match lastEvaluatedKey page with
  | Some key =>
      andThen (await (EncodeCursor key)) (fun c =>
      Pure {| listed := rs; cursor := Some c; hasMore := true |})
  | None => Pure {| listed := rs; cursor := None; hasMore := false |}
  end.

Definition listRelationships (params : QueryParams) : Prog Listing :=
  let limit := limitOf params in
  andThen
    (match given (qCursor params) with
     | Some c => andThen (await (DecodeCursor c)) (fun k => Pure (Some k))
     | None => Pure None
     end)
    (fun exclusiveStartKey =>
       match given (qEntityId params) with
       | Some id =>
           andThen (await (Query GSI1 (entityKey id) limit exclusiveStartKey true))
             (fun page =>
                respond (ofStatus (qStatus params)
                           (ofType (qType params) (map payload (pageItems page))))
                        page)
       | None =>
           match qStatus params with
           | Some st =>
               andThen (await (Query GSI2 (statusKey st) limit exclusiveStartKey false))
                 (fun page =>
                    respond (ofType (qType params) (map payload (pageItems page))) page)
           | None =>
               andThen (await (Query GSI2 (statusKey DRAFT) limit exclusiveStartKey false))
                 (fun page => respond (map payload (pageItems page)) page)
           end
       end).

(** The queries of a run, with their index and partition key. *)
Fixpoint queries (tr : list (Step Op ServiceError)) : list (Index * jsstring) :=
  match tr with
  | [] => []
  | Called o _ :: tr' =>
      match o with
      | Query index pk _ _ _ => (index, pk) :: queries tr'
      | _ => queries tr'
      end
  | Noted _ :: tr' => queries tr'
  end.

(** The query of a listing: by entity when one is asked for, else by the
    status asked for, else the drafts. *)
Definition queryOf (params : QueryParams) : Index * jsstring :=
  match given (qEntityId params), qStatus params with
  | Some id, _ => (GSI1, entityKey id)
  | None, Some st => (GSI2, statusKey st)
  | None, None => (GSI2, statusKey DRAFT)
  end.

(** ** The operations that change a stored relationship *)

Inductive Change :=
| Update (input : UpdateRequest)
| Publish
| Retract (reason : jsstring).

Definition perform (c : Change) (id userId : jsstring) : Prog Relationship :=
  match c with
  | Update input => updateRelationship id input userId
  | Publish => publishRelationship id userId
  | Retract reason => retractRelationship id reason userId
  end.

(** The status that a change requires, and the status that it leaves. *)
Definition requires (c : Change) : Status :=
  match c with
  | Update _ | Publish => DRAFT
  | Retract _ => PUBLISHED
  end.

Definition leaves (c : Change) : Status :=
  match c with
  | Update _ => DRAFT
  | Publish => PUBLISHED
  | Retract _ => RETRACTED
  end.

(** What a change answers to a relationship that is not in the status
    that it requires. *)
Definition refusal (c : Change) : jsstring :=
  match c with
  | Update _ => str "Only DRAFT relationships can be updated"
  | Publish => str "Only DRAFT relationships can be published"
  | Retract _ => str "Only PUBLISHED relationships can be retracted"
  end.

(** The items that a run writes, in order. *)
Fixpoint writes (tr : list (Step Op ServiceError)) : list DbItem :=
  match tr with
  | [] => []
  | Called o _ :: tr' =>
      match o with
      | PutItem item => item :: writes tr'
      | _ => writes tr'
      end
  | Noted _ :: tr' => writes tr'
  end.

(** The entities that a run looks up, in order. *)
Fixpoint lookups (tr : list (Step Op ServiceError)) : list jsstring :=
  match tr with
  | [] => []
  | Called o _ :: tr' =>
      match o with
      | GetEntity id => id :: lookups tr'
      | _ => lookups tr'
      end
  | Noted _ :: tr' => lookups tr'
  end.

(** The two items of a relationship agree: the same key, the same
    relationship, the one indexed under the first entity and under the
    status, the other under the second entity only. *)
Definition paired (id : jsstring) (r : Relationship) (items : list DbItem) : Prop :=
  exists m v,
    items = [m; v]
    /\ PK m = relKey id /\ SK m = str "META"
    /\ PK v = relKey id /\ SK v = str "REVERSE"
    /\ payload m = r /\ payload v = r
    /\ GSI1PK m = Some (entityKey (fromEntityId r))
    /\ GSI1PK v = Some (entityKey (toEntityId r))
    /\ GSI2PK m = Some (statusKey (status r))
    /\ GSI2PK v = None.

(** ** A table in memory *)

(** Modelled from the spec: the relationships table, which stands for
    lib/dynamodb.ts ("a keyed document store with secondary lookup
    indexes"), and the entity directory; neither is part of the sources at
    hand. An item is found under its key, a write replaces the item of the
    same key. *)
Record Store := {
  table : list DbItem;
  directory : list EntityRef;
  clock : N;
  nextId : N
}.

Definition hasKey (pk sk : jsstring) (i : DbItem) : bool :=
  str_eqb (PK i) pk && str_eqb (SK i) sk.

Definition lookup (pk sk : jsstring) (tb : list DbItem) : option DbItem :=
  find (hasKey pk sk) tb.

Fixpoint put (item : DbItem) (tb : list DbItem) : list DbItem :=
  match tb with
  | [] => [item]
  | i :: rest => if hasKey (PK item) (SK item) i then item :: rest else i :: put item rest
  end.

Definition stored (X : Type) (o : Op X) (s : Store) : Outcome ServiceError X * Store :=
  match o in Op T return Outcome ServiceError T * Store with
  | GetEntity id =>
      (match find (fun e => str_eqb (entityId e) id) (directory s) with
       | Some e => Done e
       | None => Thrown (NotFoundError (str "Entity") id)
       end, s)
  | GetItem pk sk => (Done (lookup pk sk (table s)), s)
  | PutItem item =>
      (Done tt, {| table := put item (table s); directory := directory s;
                   clock := clock s; nextId := nextId s |})
  | Query index pk limit _ _ =>
      (Done {| pageItems :=
                 firstn (N.to_nat limit)
                   (filter (fun i => match (match index with
                                             | GSI1 => GSI1PK i
                                             | GSI2 => GSI2PK i
                                             end) with
                                     | Some k => str_eqb k pk
                                     | None => false
                                     end) (table s));
               lastEvaluatedKey := None |}, s)
  (* every query is answered with one page: no cursor is handed out, and
     none is accepted *)
  | EncodeCursor _ => (Thrown (OtherError (str "No cursor")), s)
  | DecodeCursor _ => (Thrown (OtherError (str "No cursor")), s)
  | Now =>
      (Done (str "t" ++ natToString (clock s)),
       {| table := table s; directory := directory s;
          clock := clock s + 1; nextId := nextId s |})
  | Ulid =>
      (Done (str "rel_" ++ natToString (nextId s)),
       {| table := table s; directory := directory s;
          clock := clock s; nextId := nextId s + 1 |})
  end.

(** A request to the service that returns a relationship, and the
    identifier under which the relationship is then read. *)
Inductive Request :=
| Creating (input : CreateRequest)
| Changing (c : Change) (id : jsstring).

Definition issue (q : Request) (userId : jsstring) : Prog Relationship :=
  match q with
  | Creating input => createRelationship input userId
  | Changing c id => perform c id userId
  end.

Definition target (q : Request) (r : Relationship) : jsstring :=
  match q with
  | Creating _ => relationshipId r
  | Changing _ id => id
  end.

(** The data of the examples: two entities, and the relationship that
    the editor asks for. *)
Definition ftc : EntityRef :=
  {| entityId := str "ent_1"; name := str "Federal Trade Commission";
     etype := str "AGENCY" |}.

Definition acmeInc : EntityRef :=
  {| entityId := str "ent_2"; name := str "Acme Corp"; etype := str "CORPORATION" |}.

Definition emptyStore : Store :=
  {| table := []; directory := [ftc; acmeInc]; clock := 0; nextId := 1 |}.

(** A relationship of Acme Corp to an entity that the directory does
    not hold, as stored. *)
Definition orphan : Relationship :=
  {| relationshipId := str "rel_7"; fromEntityId := str "ent_2";
     toEntityId := str "ent_9"; type := str "OWNS"; status := DRAFT;
     description := None; startDate := None; endDate := None;
     sourceRefs := Some []; ownershipPercentage := None;
     createdAt := str "t0"; createdBy := str "admin"; updatedAt := str "t0";
     updatedBy := None; publishedAt := None; publishedBy := None;
     retractionReason := None; retractedAt := None; retractedBy := None |}.

Definition orphanStore : Store :=
  {| table := [metaItem orphan (str "t0"); reverseItem orphan];
     directory := [ftc; acmeInc]; clock := 1; nextId := 8 |}.

(** The drafts of one type that involve an entity, first page. *)
Definition draftsOf (id ty : jsstring) : QueryParams :=
  {| qEntityId := Some id; qType := Some ty; qStatus := Some DRAFT;
     qLimit := None; qCursor := None |}.

Definition regulated (refs : option (list jsstring)) : CreateRequest :=
  {| cFrom := str "ent_2"; cTo := str "ent_1"; cType := str "REGULATED_BY";
     cDescription := Some (str "FTC fined Acme Corp");
     cStartDate := None; cEndDate := None;
     cSourceRefs := refs; cOwnership := None |}.

End Relationships.

(** * The prompt of the editor (buildEditorPrompt, lib/services/editor.ts) *)

Module Prompt.

(** [GetSubstitution] (ECMA-262 22.1.3.19.1) for a pattern that is a
    string, which captures nothing: in the replacement, [$$] stands for a
    dollar sign, [$&] for the match, [$`] and [$'] for the text before and
    after the match; any other dollar sign stands for itself. *)
Fixpoint substitution (replacement matched before after : jsstring) : jsstring :=
  match replacement with
  | [] => []
  | c :: rest =>
      if c =? 36 then
        match rest with
        | d :: rest' =>
            if d =? 36 then 36 :: substitution rest' matched before after
            else if d =? 38 then matched ++ substitution rest' matched before after
            else if d =? 96 then before ++ substitution rest' matched before after
            else if d =? 39 then after ++ substitution rest' matched before after
            else 36 :: substitution rest matched before after
        | [] => [36]
        end
      else c :: substitution rest matched before after
  end.

(** A replacement in which every dollar sign stands for itself: none is
    followed by a dollar sign, an ampersand, a grave accent or an
    apostrophe. *)
Fixpoint literal (replacement : jsstring) : bool :=
  match replacement with
  | [] => true
  | c :: rest =>
      (if c =? 36 then
         match rest with
         | d :: _ => negb ((d =? 36) || (d =? 38) || (d =? 96) || (d =? 39))
         | [] => true
         end
       else true)
      && literal rest
  end.

(** [s.replace(pattern, replacement)] for a pattern that is a string: the
    first occurrence of the pattern is replaced; [before] is the text
    already passed. *)
Fixpoint replaceFrom (pattern replacement before s : jsstring) : jsstring :=
  if startsWith s pattern then
    let after := skipn (List.length pattern) s in
    before ++ substitution replacement pattern before after ++ after
  else
    match s with
    | [] => before
    | c :: s' => replaceFrom pattern replacement (before ++ [c]) s'
    end.

Definition replace (pattern : string) (replacement s : jsstring) : jsstring :=
  replaceFrom (str pattern) replacement [] s.

(** [JSON.stringify(value, null, 2)] of the suggested entities, of the
    suggested relationships of the item, and of the matched entities. *)
Record Json := {
  stringifyEntities : list SuggestedEntity -> jsstring;
  stringifyRelationships : IntakeItem -> jsstring;
  stringifyMatched : list Entity -> jsstring
}.

(** [a || b || ''] *)
Definition firstNonEmpty (a b : option jsstring) : jsstring :=
  match a with
  | Some (c :: s) => c :: s
  | _ => match b with
         | Some (c :: s) => c :: s
         | _ => []
         end
  end.

Definition buildEditorPrompt (json : Json) (template : jsstring) (item : IntakeItem)
    (matchedEntities : list Entity) : jsstring :=
  let entitiesJson := stringifyEntities json (suggestionsOf item) in
  let relationshipsJson := stringifyRelationships json item in
  let matchedJson := stringifyMatched json matchedEntities in
  replace "{{MATCHED_ENTITIES_JSON}}" matchedJson
    (replace "{{RELATIONSHIPS_JSON}}" relationshipsJson
       (replace "{{ENTITIES_JSON}}" entitiesJson
          (replace "{{EXTRACTED_SUMMARY}}"
             (firstNonEmpty (extractedSummary item) (summary item))
             (replace "{{URL}}" (canonicalUrl item)
                (replace "{{PUBLISHED_AT}}" (publishedAt item)
                   (replace "{{PUBLISHER}}" (publisher item)
                      (replace "{{TITLE}}" (ititle item) template))))))).

(** A stand-in for [JSON.stringify] in the examples. *)
Definition brackets : Json :=
  {| stringifyEntities := fun _ => str "[]";
     stringifyRelationships := fun _ => str "[]";
     stringifyMatched := fun _ => str "[]" |}.

End Prompt.

(** * Properties *)

(** ** Strings *)

Lemma str_eqb_refl (a : jsstring) : str_eqb a a = true.
Proof.
  induction a as [|x a IH]; simpl; [reflexivity|].
  now rewrite N.eqb_refl, IH.
Qed.

Lemma str_eqb_eq (a b : jsstring) : str_eqb a b = true <-> a = b.
Proof.
  split.
  - revert b. induction a as [|x a IH]; destruct b as [|y b]; simpl; try discriminate; auto.
    intros H. apply andb_true_iff in H as [Hx Hab].
    apply N.eqb_eq in Hx. subst y. f_equal. now apply IH.
  - intros ->. apply str_eqb_refl.
Qed.

Lemma sameString_true (s : jsstring) (v : JSVal) : sameString s v = true <-> v = VStr s.
Proof.
  destruct v; simpl; split; try discriminate; try (intros H; inversion H; fail).
  - intros H. apply str_eqb_eq in H. now subst.
  - intros H. inversion H. apply str_eqb_refl.
Qed.

Lemma dropWhile_app_stop (p : jschar -> bool) (a b : jsstring) (c : jschar) :
  Forall (fun x => p x = true) a -> p c = false ->
  dropWhile p (a ++ c :: b) = c :: b.
Proof.
  induction 1 as [|x a Hx _ IH]; simpl; intros Hc.
  - now rewrite Hc.
  - rewrite Hx. now apply IH.
Qed.

(** Dropping a prefix of a list whose elements before [c] all satisfy
    [p] stops at the latest at [c]. *)
Lemma dropWhile_suffix (p : jschar -> bool) (a b : jsstring) (c : jschar) :
  p c = false ->
  exists a1 a2, a = a1 ++ a2 /\ dropWhile p (a ++ c :: b) = a2 ++ c :: b.
Proof.
  intros Hc. induction a as [|x a IH]; simpl.
  - exists [], []. now rewrite Hc.
  - destruct (p x) eqn:Hx.
    + destruct IH as (a1 & a2 & -> & E). exists (x :: a1), a2. now rewrite E.
    + exists [], (x :: a). split; reflexivity.
Qed.

(** ** Runs of compound programs *)

Section RunLemmas.

Variable W : Type.
Variable env : forall X : Type, Op X -> W -> Result X * W.

Lemma run_bind (A B : Type) (p : Prog A) (f : A -> Prog B) (w : W) :
  run env (bind p f) w =
  match run env p w with
  | (Ok a, w1, t1) => let '(r, w2, t2) := run env (f a) w1 in (r, w2, t1 ++ t2)
  | (Err e, w1, t1) => (Err e, w1, t1)
  end.
Proof.
  revert w. induction p as [a|e|l k IH|X o k IH]; intros w; simpl.
  - now destruct (run env (f a) w) as [[r w2] t2].
  - reflexivity.
  - rewrite IH. destruct (run env k w) as [[[a|e] w1] t1]; [|reflexivity].
    now destruct (run env (f a) w1) as [[r w2] t2].
  - destruct (env o w) as [x w1]. rewrite IH.
    destruct (run env (k x) w1) as [[[a|e] w2] t1]; [|reflexivity].
    now destruct (run env (f a) w2) as [[r w3] t2].
Qed.

Lemma run_catch (A : Type) (p : Prog A) (h : Exn -> Prog A) (w : W) :
  run env (catch p h) w =
  match run env p w with
  | (Ok a, w1, t1) => (Ok a, w1, t1)
  | (Err e, w1, t1) => let '(r, w2, t2) := run env (h e) w1 in (r, w2, t1 ++ t2)
  end.
Proof.
  revert w. induction p as [a|e|l k IH|X o k IH]; intros w; simpl.
  - reflexivity.
  - now destruct (run env (h e) w) as [[r w2] t2].
  - rewrite IH. destruct (run env k w) as [[[a|e] w1] t1]; [reflexivity|].
    now destruct (run env (h e) w1) as [[r w2] t2].
  - destruct (env o w) as [x w1]. rewrite IH.
    destruct (run env (k x) w1) as [[[a|e] w2] t1]; [reflexivity|].
    now destruct (run env (h e) w2) as [[r w3] t2].
Qed.

Lemma run_call (X : Type) (o : Op X) (w : W) :
  run env (call o) w = (fst (env o w), snd (env o w), [ECall o (fst (env o w))]).
Proof.
  unfold call. simpl. destruct (env o w) as [[x|e] w1]; reflexivity.
Qed.

Lemma run_call_ok (X : Type) (o : Op X) (w w1 : W) (x : X) :
  env o w = (Ok x, w1) -> run env (call o) w = (Ok x, w1, [ECall o (Ok x)]).
Proof. intros H. rewrite run_call, H. reflexivity. Qed.

Lemma run_call_err (X : Type) (o : Op X) (w w1 : W) (e : Exn) :
  env o w = (Err e, w1) -> run env (call o) w = (Err e, w1, [ECall o (Err e)]).
Proof. intros H. rewrite run_call, H. reflexivity. Qed.

Lemma run_log (lv : Level) (msg : string) (w : W) :
  run env (log lv msg) w = (Ok tt, w, [ELog (lv, msg)]).
Proof. reflexivity. Qed.

End RunLemmas.

(** ** parseEditorResponse *)

Lemma decisionOf_some (v : JSVal) (d : Decision) :
  decisionOf v = Some d -> v = VStr (decisionName d).
Proof.
  unfold decisionOf. destruct (negb (truthy v)); [discriminate|].
  destruct (sameString (str "PUBLISH") v) eqn:Ep.
  - intros H. inversion H. now apply sameString_true in Ep.
  - destruct (sameString (str "SKIP") v) eqn:Es; [|discriminate].
    intros H. inversion H. now apply sameString_true in Es.
Qed.

Lemma decisionOf_none (v : JSVal) :
  v <> VStr (str "PUBLISH") -> v <> VStr (str "SKIP") -> decisionOf v = None.
Proof.
  intros Hp Hs. destruct (decisionOf v) as [d|] eqn:E; [|reflexivity].
  apply decisionOf_some in E. destruct d; contradiction.
Qed.

(** A response that parses carries the decision that was written: the
    parser never supplies one. *)
Lemma parse_some_decision (content : jsstring) (r : EditorResponse) :
  parseEditorResponse content = Some r ->
  exists text parsed,
    matchObject (stripFences content) = Some text
    /\ JSON_parse text = Some parsed
    /\ field parsed "decision" = VStr (decisionName (erDecision r)).
Proof.
  unfold parseEditorResponse, parseOutcome.
  destruct (matchObject (stripFences content)) as [text|]; [|discriminate].
  destruct (JSON_parse text) as [parsed|] eqn:Ej; [|discriminate].
  destruct (decisionOf (field parsed "decision")) as [d|] eqn:Ed; [|discriminate].
  destruct (toNumber _) as [c|]; [|discriminate].
  intros H. inversion H; subst r; clear H. simpl.
  exists text, parsed.
  split; [reflexivity|]. split; [exact Ej|]. now apply decisionOf_some.
Qed.

Lemma parse_invalid (content : jsstring) :
  NoValidDecision content -> parseEditorResponse content = None.
Proof.
  unfold parseEditorResponse, parseOutcome.
  intros [H|(text & Ht & [H|(parsed & Hp & H)])].
  - now rewrite H.
  - now rewrite Ht, H.
  - rewrite Ht, Hp.
    assert (Hd : decisionOf (field parsed "decision") = None).
    { destruct H as [H|[H1 H2]].
      - unfold field. now rewrite H.
      - now apply decisionOf_none. }
    now rewrite Hd.
Qed.

Lemma parseOutcome_none (content : jsstring) :
  parseEditorResponse content = None ->
  exists failure, parseOutcome content = inl failure.
Proof.
  unfold parseEditorResponse. destruct (parseOutcome content) as [f|r]; [|discriminate].
  intros _. now exists f.
Qed.

(** The match of the regular expression: from the first opening brace to
    the last closing brace. *)
Lemma matchObject_spec (s text : jsstring) :
  matchObject s = Some text ->
  exists pre body post,
    s = pre ++ text ++ post
    /\ text = 123 :: body ++ [125]
    /\ noChar 123 pre /\ noChar 125 post.
Proof.
  unfold matchObject.
  assert (Hsplit : forall (c : jschar) (l : jsstring),
             exists a b, l = a ++ b /\ noChar c a
                         /\ dropWhile (fun x => negb (x =? c)) l = b
                         /\ (b = [] \/ exists b', b = c :: b')).
  { intros c l. induction l as [|x l IH]; simpl.
    - exists [], []. repeat split; auto. constructor.
    - destruct (x =? c) eqn:E; simpl.
      + apply N.eqb_eq in E. subst x. exists [], (c :: l).
        repeat split; auto. constructor. right. now exists l.
      + destruct IH as (a & b & -> & Ha & Hb & Hc).
        exists (x :: a), b. repeat split; auto.
        constructor; auto. now apply N.eqb_neq. }
  destruct (Hsplit 123 s) as (pre & b & Hs & Hpre & Hb & Hform). rewrite Hb.
  destruct Hform as [->|[rest ->]]; [discriminate|]. cbv beta iota.
  destruct (Hsplit 125 (rev rest)) as (a2 & b2 & Hr & Ha2 & Hb2 & Hform2). rewrite Hb2.
  destruct Hform2 as [->|[b2' ->]]; [discriminate|].
  intros H. inversion H; subst text; clear H.
  exists pre, (rev b2'), (rev a2).
  split; [|split; [reflexivity|split; [exact Hpre|]]].
  - subst s. f_equal. simpl. f_equal.
    rewrite <- (rev_involutive rest), Hr, rev_app_distr. simpl.
    now rewrite <- app_assoc.
  - unfold noChar in *. now apply Forall_rev.
Qed.

Lemma trimStart_brace (s : jsstring) : trimStart (123 :: s) = 123 :: s.
Proof. reflexivity. Qed.

(** Trimming an object followed by text leaves the object and a prefix of
    the text. *)
Lemma trim_object (body trailing : jsstring) :
  exists t1 t2,
    trailing = t1 ++ t2
    /\ trim (123 :: body ++ [125] ++ trailing) = 123 :: body ++ [125] ++ t1.
Proof.
  unfold trim. rewrite trimStart_brace. unfold trimEnd.
  replace (rev (123 :: body ++ [125] ++ trailing))
    with (rev trailing ++ 125 :: rev (123 :: body)).
  2:{ simpl. rewrite !rev_app_distr. simpl. now rewrite <- !app_assoc. }
  destruct (@dropWhile_suffix isWhiteSpace (rev trailing) (rev (123 :: body)) 125 eq_refl)
    as (a1 & a2 & Ha & Hd).
  rewrite Hd. exists (rev a2), (rev a1). split.
  - rewrite <- rev_app_distr, <- Ha. now rewrite rev_involutive.
  - rewrite rev_app_distr. simpl. rewrite rev_app_distr, rev_involutive. simpl.
    now rewrite <- !app_assoc.
Qed.

Lemma matchObject_object (body t1 : jsstring) :
  noChar 125 t1 ->
  matchObject (123 :: body ++ [125] ++ t1) = Some (123 :: body ++ [125]).
Proof.
  intros Ht. unfold matchObject. simpl dropWhile. cbv beta iota.
  replace (rev (body ++ 125 :: t1)) with (rev t1 ++ 125 :: rev body).
  2:{ rewrite rev_app_distr. simpl. now rewrite <- app_assoc. }
  rewrite dropWhile_app_stop.
  - simpl. now rewrite rev_involutive.
  - apply Forall_rev. unfold noChar in Ht.
    eapply Forall_impl; [|exact Ht]. intros c Hc. simpl.
    apply negb_true_iff. now apply N.eqb_neq.
  - reflexivity.
Qed.

Lemma span_of_object (body trailing : jsstring) :
  noChar 125 trailing ->
  matchObject (stripFences (123 :: body ++ [125] ++ trailing))
  = Some (123 :: body ++ [125]).
Proof.
  intros Ht. unfold stripFences.
  destruct (trim_object body trailing) as (t1 & t2 & Hsplit & Htrim).
  rewrite Htrim. simpl startsWith. cbv iota.
  apply matchObject_object. unfold noChar in *. subst trailing.
  now apply Forall_app in Ht as [H1 _].
Qed.

(** The tests of the parser in the repository hold of the model. *)

Example test_parse_publish :
  exists r, parseEditorResponse testPublish = Some r
            /\ erDecision r = PUBLISH /\ erConfidence r = Fin (19 # 20)
            /\ (exists second, erEntities r = VArr [byId (VStr (str "ent_123")); second])
            /\ (exists only, erRelationships r = VArr [only]).
Proof.
  eexists. split; [reflexivity|]. repeat split; eexists; reflexivity.
Qed.

Example test_parse_fenced :
  option_map erDecision (parseEditorResponse testFenced) = Some SKIP.
Proof. reflexivity. Qed.

Example test_parse_embedded :
  option_map erDecision (parseEditorResponse testEmbedded) = Some PUBLISH.
Proof. reflexivity. Qed.

Example test_parse_clamps :
  option_map erConfidence
    (parseEditorResponse (json "{'decision': 'PUBLISH', 'reason': 'Test', 'confidence': 1.5}"))
  = Some (Fin 1)
  /\ option_map erConfidence
       (parseEditorResponse (json "{'decision': 'PUBLISH', 'reason': 'Test', 'confidence': -0.5}"))
     = Some (Fin 0).
Proof. split; reflexivity. Qed.

Example test_parse_invalid :
  parseOutcome (json "{'decision': 'MAYBE', 'reason': 'Test', 'confidence': 0.5}")
  = inl InvalidDecision
  /\ parseOutcome (json "{'reason': 'Test', 'confidence': 0.5}") = inl InvalidDecision
  /\ parseOutcome (str "This is not JSON at all") = inl NoJSONObject.
Proof. repeat split; reflexivity. Qed.

Example test_parse_defaults :
  parseEditorResponse (json "{'decision': 'SKIP'}")
  = Some {| erDecision := SKIP; erReason := VStr (str "No reason provided");
            erConfidence := Fin 0; erCategory := VUndefined; erEntities := VArr [];
            erRelationships := VArr []; erCardSummary := VStr [] |}.
Proof. reflexivity. Qed.

(** A confidence that is no number becomes [NaN], which is not below any
    threshold: the gate lets the response pass. *)
Example test_parse_confidence_not_a_number :
  exists r,
    parseEditorResponse (json "{'decision': 'PUBLISH', 'confidence': 'high'}") = Some r
    /\ erConfidence r = NaN
    /\ belowThreshold (defaultConfig false) r = false.
Proof. eexists. repeat split; reflexivity. Qed.

(** ** C1: the confidence gate *)


(** ** Calls along the branches of a program *)

Section Branches.

Variables pre gate : OpPred.

Lemma until_bind (A B : Type) (p : Prog A) (f : A -> Prog B) :
  Until pre gate p -> (forall a, Until pre gate (f a)) -> Until pre gate (bind p f).
Proof.
  intros Hp Hf. induction Hp; simpl.
  - apply Hf.
  - constructor.
  - now constructor.
  - apply U_pre; auto.
  - now apply U_gate.
Qed.

Lemma until_catch (A : Type) (p : Prog A) (h : Exn -> Prog A) :
  Until pre gate p -> (forall e, Until pre gate (h e)) -> Until pre gate (catch p h).
Proof.
  intros Hp Hh. induction Hp; simpl.
  - constructor.
  - apply Hh.
  - now constructor.
  - apply U_pre; auto.
  - now apply U_gate.
Qed.

Lemma until_call (X : Type) (o : Op X) :
  @pre X o = true -> Until pre gate (call o).
Proof.
  intros H. unfold call. apply U_pre; [exact H|]. intros [x|e]; constructor.
Qed.

Lemma until_gate_call (X : Type) (o : Op X) :
  @gate X o = true -> Until pre gate (call o).
Proof. intros H. unfold call. now apply U_gate. Qed.

Lemma until_log (lv : Level) (msg : string) : Until pre gate (log lv msg).
Proof. unfold log. repeat constructor. Qed.

End Branches.

Section Soundness.

Variable W : Type.
Variable env : forall X : Type, Op X -> W -> Result X * W.

Lemma until_sound (pre gate : OpPred) (A : Type) (p : Prog A) :
  Until pre gate p ->
  forall w, exists t1 t2,
    snd (run env p w) = t1 ++ t2
    /\ Forall (evSat pre) t1
    /\ (t2 = [] \/ exists X (o : Op X) r t, t2 = ECall o r :: t /\ gate X o = true).
Proof.
  induction 1 as [a|e|l k Hk IH|X o k Ho Hk IH|X o k Ho]; intros w; simpl.
  - exists [], []. auto.
  - exists [], []. auto.
  - destruct (IH w) as (t1 & t2 & E & H1 & H2).
    destruct (run env k w) as [[r w'] tr]. simpl in *. subst tr.
    exists (ELog l :: t1), t2.
    split; [reflexivity|]. split; [constructor; simpl; auto|exact H2].
  - destruct (env o w) as [x w1].
    destruct (IH x w1) as (t1 & t2 & E & H1 & H2).
    destruct (run env (k x) w1) as [[r w'] tr]. simpl in *. subst tr.
    exists (ECall o x :: t1), t2.
    split; [reflexivity|]. split; [constructor; simpl; auto|exact H2].
  - destruct (env o w) as [x w1].
    destruct (run env (k x) w1) as [[r w'] tr]. simpl.
    exists [], (ECall o x :: tr).
    split; [reflexivity|]. split; [constructor|].
    right. now exists X, o, x, tr.
Qed.

Lemma always_sound (P : OpPred) (A : Type) (p : Prog A) (w : W) :
  Always P p -> Forall (evSat P) (snd (run env p w)).
Proof.
  intros Hp. destruct (until_sound Hp w) as (t1 & t2 & E & H1 & [->|H2]).
  - rewrite E, app_nil_r. exact H1.
  - destruct H2 as (X & o & r & t & _ & Hg). discriminate.
Qed.

End Soundness.

(** ** The calls of the editor's programs *)

(** Splits a goal about the branches of a program along the program. *)
Ltac branch_step :=
  match goal with
  | |- Until _ _ (bind _ _) => apply until_bind
  | |- Until _ _ (catch _ _) => apply until_catch
  | |- Until _ _ (log _ _) => apply until_log
  | |- Until _ _ (Ret _) => apply U_ret
  | |- Until _ _ (Raise _) => apply U_raise
  | |- Until _ _ (call _) =>
      first [ apply until_call; solve [reflexivity | auto]
            | apply until_gate_call; reflexivity ]
  | |- Until _ _ (Do _ _) =>
      first [ apply U_pre; [solve [reflexivity | auto]|]
            | apply U_gate; reflexivity ]
  | |- Until _ _ (Log _ _) => apply U_log
  | |- Until _ _ (match ?x with _ => _ end) => destruct x eqn:?
  | |- forall _, _ => intro
  end.

Ltac branches := repeat branch_step.

Section Calls.

Variables pre gate : OpPred.

Hypothesis pre_get : forall id, @pre _ (GetEntity id) = true.
Hypothesis pre_find : forall nm, @pre _ (FindEntityByName nm) = true.

Lemma matchLoop_calls (suggestions : list SuggestedEntity)
    (matched : list Entity) (seen : list (list N)) :
  Until pre gate (matchLoop suggestions matched seen).
Proof.
  revert matched seen.
  induction suggestions as [|s rest IH]; intros matched seen; simpl; branches; auto.
Qed.

Lemma getMatchedEntities_calls (suggestions : list SuggestedEntity) :
  Until pre gate (getMatchedEntities suggestions).
Proof. apply matchLoop_calls. Qed.

Lemma scanCards_calls (t : list N) (ids : list JSVal) (cards : list Card) :
  Until pre gate (scanCards t ids cards).
Proof. induction cards as [|c rest IH]; simpl; branches; auto. Qed.

Section Resolve.

Variable dry : bool.
Hypothesis pre_create :
  dry = false -> forall nm ty, @pre _ (CreateEntity nm ty) = true.

Lemma resolveRef_calls (matched : list Entity) (resolved : list JSVal)
    (entityRef : JSVal) :
  Until pre gate (resolveRef dry matched resolved entityRef).
Proof.
  unfold resolveRef. branches; auto.
  apply U_pre; [|branches].
  apply pre_create.
  match goal with
  | H : _ && negb dry = true |- _ =>
      apply andb_true_iff in H as [_ H]; now apply negb_true_iff in H
  end.
Qed.

Lemma resolveLoop_calls (matched : list Entity) (refs resolved : list JSVal) :
  Until pre gate (resolveLoop dry matched refs resolved).
Proof.
  revert resolved. induction refs as [|x rest IH]; intros resolved; simpl.
  - constructor.
  - apply until_bind; [apply resolveRef_calls|auto].
Qed.

Lemma resolveEntities_calls (matched : list Entity) (entities : JSVal) :
  Until pre gate (resolveEntities dry matched entities).
Proof.
  unfold resolveEntities. destruct (iterate entities);
    [apply resolveLoop_calls|constructor].
Qed.

End Resolve.

Hypothesis pre_now : @pre _ Now = true.
Hypothesis pre_scan : forall id n, @pre _ (ScanItems id n) = true.

Lemma updateIntakeEditorStatus_calls (id : list N) (es : EditorStatus)
    (d : EditorDecision) (card source : option (list N)) :
  (forall row, marks es row = true -> @pre _ (PutItem row) = true) ->
  Until pre gate (updateIntakeEditorStatus id es d card source).
Proof.
  intros pre_put. unfold updateIntakeEditorStatus. branches.
  apply until_call. apply pre_put. unfold marks, updatedRow. simpl.
  destruct es; reflexivity.
Qed.

End Calls.

Ltac editor_step :=
  first
    [ branch_step
    | apply getMatchedEntities_calls; intros; reflexivity
    | apply scanCards_calls
    | apply resolveEntities_calls; intros; solve [reflexivity | discriminate]
    | apply updateIntakeEditorStatus_calls;
      [reflexivity | intros; reflexivity
      | intros ? ?; solve [reflexivity | assumption | discriminate] ] ].

Ltac editor_branches := repeat editor_step.

(** In a dry run no branch of [processItem] makes a call that writes. *)
Lemma processItem_dry_reads (cfg : Config) (plat : Platform) (item : IntakeItem)
    (template rid : list N) :
  Always notWrite (processItem cfg plat item template rid true).
Proof.
  unfold Always, processItem, attempt, afterParse, afterResolve, checkForDuplicate.
  editor_branches.
Qed.

Lemma afterResolve_check_first (plat : Platform) (item : IntakeItem) (rid : list N)
    (dry : bool) (r : EditorResponse) (d : EditorDecision) (resolved : list JSVal) :
  Until allowedEarly isListCards (afterResolve plat item rid dry r d resolved).
Proof.
  unfold afterResolve. destruct resolved as [|x resolved].
  - editor_branches.
  - unfold checkForDuplicate. simpl. apply U_gate. reflexivity.
Qed.

(** Along every branch of [processItem], the calls made before the recent
    cards are fetched write nothing but new entities and the SKIPPED
    annotation. *)
Lemma processItem_check_first (cfg : Config) (plat : Platform) (item : IntakeItem)
    (template rid : list N) (dry : bool) :
  Until allowedEarly isListCards (processItem cfg plat item template rid dry).
Proof.
  unfold processItem, attempt, afterParse.
  editor_branches; try apply afterResolve_check_first.
Qed.

Lemma forallb_evSat (P : OpPred) (f : Event -> bool) (tr : Trace) :
  (forall e, evSat P e -> f e = true) -> Forall (evSat P) tr -> forallb f tr = true.
Proof.
  intros Hf H. apply forallb_forall. intros e He.
  apply Hf. eapply Forall_forall; eauto.
Qed.

Lemma beforeCheck_allowed (t1 t2 : Trace) :
  Forall (evSat allowedEarly) t1 ->
  (t2 = [] \/ exists X (o : Op X) r t, t2 = ECall o r :: t /\ isListCards o = true) ->
  forallb eventAllowedEarly (beforeCheck (t1 ++ t2)) = true.
Proof.
  intros H1 H2. induction H1 as [|e t1 He _ IH]; simpl.
  - destruct H2 as [->|(X & o & r & t & -> & Hg)]; simpl; [reflexivity|].
    now rewrite Hg.
  - destruct (isDuplicateCheck e); [reflexivity|]. simpl.
    rewrite IH, andb_true_r. destruct e; simpl in *; auto.
Qed.

(** ** Runs of [processItem] from the stage that the item reaches *)

Section Paths.

Variable W : Type.
Variable env : forall X : Type, Op X -> W -> Result X * W.
Variable cfg : Config.
Variable plat : Platform.

Lemma after_after (A : Type) (a b : Trace) (out : Result A * W * Trace) :
  after a (after b out) = after (a ++ b) out.
Proof. destruct out as [[r w] t]. simpl. now rewrite app_assoc. Qed.

Lemma run_bind_ok (A B : Type) (p : Prog A) (f : A -> Prog B)
    (w w1 : W) (a : A) (t1 : Trace) :
  run env p w = (Ok a, w1, t1) ->
  run env (bind p f) w = after t1 (run env (f a) w1).
Proof. intros H. rewrite run_bind, H. reflexivity. Qed.

Lemma run_bind_err (A B : Type) (p : Prog A) (f : A -> Prog B)
    (w w1 : W) (e : Exn) (t1 : Trace) :
  run env p w = (Err e, w1, t1) ->
  run env (bind p f) w = (Err e, w1, t1).
Proof. intros H. rewrite run_bind, H. reflexivity. Qed.

Lemma run_processItem (item : IntakeItem) (template rid : list N) (dry : bool) (w : W) :
  run env (processItem cfg plat item template rid dry) w
  = settle item (run env (attempt cfg plat item template rid dry) w).
Proof.
  unfold processItem. rewrite run_catch.
  destruct (run env (attempt cfg plat item template rid dry) w) as [[[x|e] w1] t1];
    reflexivity.
Qed.


Lemma attempt_from_response (item : IntakeItem) (template rid : list N) (dry : bool)
    (w w2 : W) (matched : list Entity) (content : list N) (t2 : Trace) :
  reachesResponse env item template w matched content w2 t2 ->
  run env (attempt cfg plat item template rid dry) w
  = after t2
      (run env
         (match parseOutcome content with
          | inl failure =>
              bind (log Warn (parseWarning failure))
                   (fun _ => Ret (failed item (str "Failed to parse editor response")))
          | inr parsed => afterParse cfg plat item rid dry matched parsed
          end) w2).
Proof.
  intros (w1 & t1 & Hm & Hc & ->). unfold attempt.
  fold (suggestionsOf item).
  erewrite run_bind_ok; [|exact Hm].
  erewrite run_bind_ok; [|apply run_call_ok; exact Hc].
  erewrite run_bind_ok; [|apply run_log].
  rewrite !after_after, <- app_assoc. reflexivity.
Qed.

(** A response that passes the gate as PUBLISH is left untouched. *)
Lemma gate_publish (parsed r : EditorResponse) (rec d : EditorDecision) :
  confidenceGate cfg plat parsed rec = (r, d) -> erDecision r = PUBLISH ->
  belowThreshold cfg parsed = false /\ r = parsed /\ d = rec.
Proof.
  unfold confidenceGate. destruct (belowThreshold cfg parsed).
  - intros H Hd. inversion H; subst. discriminate.
  - intros H _. inversion H. auto.
Qed.

Lemma attempt_from_resolved (item : IntakeItem) (template rid : list N) (dry : bool)
    (w w4 : W) (r : EditorResponse) (d : EditorDecision) (resolved : list JSVal)
    (tr : Trace) :
  reachesResolved env cfg plat item template rid dry w r d resolved w4 tr ->
  run env (attempt cfg plat item template rid dry) w
  = after tr (run env (afterResolve plat item rid dry r d resolved) w4).
Proof.
  intros (matched & content & w2 & t2 & parsed & now & w3 & t4
          & Hresp & Hparse & Hnow & Hgate & Hpub & Hres & ->).
  rewrite (attempt_from_response rid dry Hresp).
  unfold parseEditorResponse in Hparse.
  destruct (parseOutcome content) as [f|p]; [discriminate|].
  inversion Hparse; subst p; clear Hparse.
  unfold afterParse.
  erewrite run_bind_ok; [|apply run_call_ok; exact Hnow].
  destruct (gate_publish _ _ Hgate Hpub) as (Hbelow & -> & ->).
  rewrite Hbelow, Hgate, Hpub.
  change (bind (Ret tt) ?f) with (f tt). cbv beta.
  erewrite run_bind_ok; [|exact Hres].
  rewrite !after_after, <- app_assoc. reflexivity.
Qed.

End Paths.

(** ** C1: witness *)


(** ** C6: a response without a valid decision *)

(** C6. For every LLM response from which no valid decision can be
    extracted (no JSON object found, text that does not parse, no
    [decision] member, or a [decision] that is neither PUBLISH nor SKIP),
    [parseEditorResponse] returns null, and [processItem] gives the item
    the outcome ERROR with the reason "Failed to parse editor response",
    not SKIP. *)
Theorem C6_invalid_response_is_error (W : Type)
    (env : forall X : Type, Op X -> W -> Result X * W)
    (cfg : Config) (plat : Platform) (item : IntakeItem) (template rid : list N)
    (dry : bool) (w w2 : W) (matched : list Entity) (content : list N) (t2 : Trace) :
  NoValidDecision content ->
  reachesResponse env item template w matched content w2 t2 ->
  parseEditorResponse content = None
  /\ exists failure,
       run env (processItem cfg plat item template rid dry) w
       = (Ok (failed item (str "Failed to parse editor response")), w2,
          t2 ++ [ELog (Warn, parseWarning failure)])
       /\ rDecision (failed item (str "Failed to parse editor response")) = R_ERROR.
Proof.
  intros Hinv Hresp.
  pose proof (parse_invalid Hinv) as Hnone. split; [exact Hnone|].
  destruct (parseOutcome_none _ Hnone) as [failure Hf]. exists failure.
  split; [|reflexivity].
  rewrite run_processItem, (attempt_from_response cfg plat rid dry Hresp), Hf.
  reflexivity.
Qed.

Lemma C6_invalid_response_is_error_witness :
  parseEditorResponse (str "This is not JSON at all") = None
  /\ exists failure,
       run Mem.env (processItem (defaultConfig false) platform acme (str "T")
                      (str "run_0") false) proseLedger
       = (Ok (failed acme (str "Failed to parse editor response")), proseLedger,
          ([] ++ [ECall (InvokeClaude (str "T") acme []) (Ok (str "This is not JSON at all"));
                  ELog (Debug, "Editor Claude call completed"%string)])
            ++ [ELog (Warn, parseWarning failure)])
       /\ rDecision (failed acme (str "Failed to parse editor response")) = R_ERROR.
Proof.
  apply (@C6_invalid_response_is_error World Mem.env (defaultConfig false) platform
           acme (str "T") (str "run_0") false proseLedger proseLedger []
           (str "This is not JSON at all")).
  - left. reflexivity.
  - exists proseLedger, []. repeat split; reflexivity.
Defined.

(** ** C7: the text that is parsed *)

(** C7, as stated, fails: a valid decision object followed by text that
    contains a closing brace is not parsed. *)
Lemma C7_trailing_brace_counterexample :
  (exists r, parseEditorResponse c7_object = Some r /\ erDecision r = PUBLISH)
  /\ parseEditorResponse (c7_object ++ c7_trailing) = None.
Proof.
  split; [eexists; split; reflexivity|reflexivity].
Qed.

(** C7, amended. The text handed to the JSON parser runs from the first
    opening brace of the response (trimmed, and without its code fence)
    to the last closing brace, whatever lies between; and for a response
    that consists of a decision object followed by text that contains no
    closing brace, the object is parsed, with the result it gives on its
    own. *)
Theorem C7_first_brace_to_last_brace :
  (forall content text : list N,
     matchObject (stripFences content) = Some text ->
     exists pre body post,
       stripFences content = pre ++ text ++ post
       /\ text = 123 :: body ++ [125]
       /\ noChar 123 pre /\ noChar 125 post)
  /\ (forall (body trailing : list N) (r : EditorResponse),
        noChar 125 trailing ->
        parseEditorResponse (123 :: body ++ [125]) = Some r ->
        parseEditorResponse ((123 :: body ++ [125]) ++ trailing) = Some r).
Proof.
  split.
  - intros content text H. now apply matchObject_spec.
  - intros body trailing r Ht Hr.
    unfold parseEditorResponse, parseOutcome in *.
    replace ((123 :: body ++ [125]) ++ trailing) with (123 :: body ++ [125] ++ trailing)
      by (simpl; now rewrite <- app_assoc).
    rewrite (span_of_object body Ht).
    assert (H0 : matchObject (stripFences (123 :: body ++ [125]))
                 = Some (123 :: body ++ [125])).
    { pose proof (@span_of_object body [] (Forall_nil _)) as H.
      now rewrite !app_nil_r in H. }
    rewrite H0 in Hr. exact Hr.
Qed.

Lemma C7_first_brace_to_last_brace_witness :
  (exists pre body post,
     stripFences (str "Here it is: " ++ c7_object ++ str " Done.")
     = pre ++ c7_object ++ post
     /\ c7_object = 123 :: body ++ [125]
     /\ noChar 123 pre /\ noChar 125 post)
  /\ (exists r, parseEditorResponse (c7_object ++ str " End of response.") = Some r
                /\ erDecision r = PUBLISH).
Proof.
  destruct C7_first_brace_to_last_brace as [Hspan Htrail]. split.
  - apply (Hspan (str "Here it is: " ++ c7_object ++ str " Done.") c7_object).
    reflexivity.
  - eexists. split.
    + apply (Htrail (removelast (tl c7_object)) (str " End of response.")).
      * unfold noChar. repeat constructor; discriminate.
      * reflexivity.
    + reflexivity.
Defined.

(** ** C4: what is written before the duplicate check *)

Lemma late_write_after_check (t1 t2 pre post : Trace) (e : Event) :
  Forall (evSat allowedEarly) t1 ->
  (t2 = [] \/ exists X (o : Op X) r t, t2 = ECall o r :: t /\ isListCards o = true) ->
  t1 ++ t2 = pre ++ e :: post ->
  eventLateWrite e = true ->
  existsb isDuplicateCheck pre = true.
Proof.
  intros H1 H2. revert pre. induction H1 as [|a t1 Ha _ IH]; intros pre Heq Hlate.
  - simpl in Heq. destruct H2 as [->|(X & o & r & t & -> & Hg)].
    + destruct pre; discriminate.
    + destruct pre as [|x pre]; simpl in Heq; inversion Heq; subst.
      * simpl in Hlate. unfold lateWrite in Hlate.
        destruct o; simpl in *; discriminate.
      * simpl. now rewrite Hg.
  - destruct pre as [|x pre]; simpl in Heq; inversion Heq; subst.
    + destruct e as [X o r|l]; simpl in *; [|discriminate].
      unfold lateWrite in Hlate. unfold allowedEarly in Ha.
      apply andb_true_iff in Hlate as [Hw He].
      rewrite Hw in Ha. simpl in Ha. rewrite Ha in He. discriminate.
    + simpl. rewrite (IH pre); auto. apply orb_true_r.
Qed.

(** C4, as stated, fails: in the scenario of the specification the new
    entity is created before the recent cards are fetched. *)
Lemma C4_entity_written_before_check_counterexample :
  kinds (snd (processAcme false emptyLedger))
  = [KInvokeClaude; KNow; KFindEntityByName; KCreateEntity; KListCards;
     KCreateSource; KCaptureHtmlSnapshot; KCreateCard; KPublishCard;
     KNow; KScanItems; KPutItem; KLogAuditEvent]
  /\ kinds (beforeCheck (snd (processAcme false emptyLedger)))
     = [KInvokeClaude; KNow; KFindEntityByName; KCreateEntity]
  /\ noWrites (beforeCheck (snd (processAcme false emptyLedger))) = false.
Proof. repeat split; reflexivity. Qed.

(** C4, amended. In every run of [processItem], whatever the services
    answer, the only writes made before the duplicate check (the fetch of
    the recent cards) are new entities for create-variant references and
    the SKIPPED annotation of an item that does not reach the check: no
    source, card or relationship is created or published, the item is not
    marked APPROVED and no audit event is written before the check. *)
Theorem C4_only_entities_before_check (W : Type)
    (env : forall X : Type, Op X -> W -> Result X * W)
    (cfg : Config) (plat : Platform) (item : IntakeItem) (template rid : list N)
    (dry : bool) (w : W) :
  forallb eventAllowedEarly
    (beforeCheck (snd (run env (processItem cfg plat item template rid dry) w))) = true
  /\ forall (pre post : Trace) (e : Event),
       snd (run env (processItem cfg plat item template rid dry) w) = pre ++ e :: post ->
       eventLateWrite e = true ->
       existsb isDuplicateCheck pre = true.
Proof.
  destruct (until_sound env (processItem_check_first cfg plat item template rid dry) w)
    as (t1 & t2 & E & H1 & H2).
  rewrite E. split.
  - now apply beforeCheck_allowed.
  - intros pre post e. now apply late_write_after_check.
Qed.

Lemma C4_only_entities_before_check_witness :
  forallb eventAllowedEarly (beforeCheck (snd (processAcme false emptyLedger))) = true
  /\ existsb isDuplicateCheck (firstn 11 (snd (processAcme false emptyLedger))) = true.
Proof.
  destruct (@C4_only_entities_before_check World Mem.env (defaultConfig false) platform
              acme (str "T") (str "run_0") false emptyLedger) as [H1 H2].
  split; [exact H1|].
  apply (H2 (firstn 11 (snd (processAcme false emptyLedger)))
            (skipn 12 (snd (processAcme false emptyLedger)))
            (nth 11 (snd (processAcme false emptyLedger)) (ELog (Info, ""%string))));
    reflexivity.
Defined.

(** ** C3: dry runs *)

Lemma noWrites_sound (tr : Trace) : Forall (evSat notWrite) tr -> noWrites tr = true.
Proof.
  apply forallb_evSat. intros [X o r|l]; simpl; auto.
Qed.

(** A dry run writes nothing, whatever the item and the services. *)
Lemma dry_run_writes_nothing (W : Type)
    (env : forall X : Type, Op X -> W -> Result X * W)
    (cfg : Config) (plat : Platform) (item : IntakeItem) (template rid : list N) (w : W) :
  noWrites (snd (run env (processItem cfg plat item template rid true) w)) = true.
Proof.
  apply noWrites_sound, always_sound, processItem_dry_reads.
Qed.

(** C3, as stated, fails: the item of the scenario is published by a real
    run, and skipped by a dry run, which does not resolve create-variant
    references. *)
Lemma C3_create_only_dry_run_counterexample :
  (exists res, fst (fst (processAcme false emptyLedger)) = Ok res
               /\ rDecision res = R_PUBLISH /\ rCardId res = Some (str "card_3"))
  /\ fst (fst (processAcme true emptyLedger))
     = Ok (skipResult acme "No entities could be resolved").
Proof.
  split; [eexists; repeat split; reflexivity|reflexivity].
Qed.

(** C3, amended. In dry-run mode, an item that is on the PUBLISH path
    (PUBLISH decision, confidence not below the threshold), of which at
    least one entity reference resolves by index or by identifier
    (create-variant references are not resolved in a dry run), and for
    which no duplicate is found, gets the result PUBLISH with the reason
    "[DRY RUN] Would publish with n entities", the resolved entity
    identifiers, and no card or relationship identifiers; and the run makes
    no call that writes. *)
Theorem C3_dry_run_publish (W : Type)
    (env : forall X : Type, Op X -> W -> Result X * W)
    (cfg : Config) (plat : Platform) (item : IntakeItem) (template rid : list N)
    (w w4 w5 : W) (r : EditorResponse) (d : EditorDecision)
    (resolved : list JSVal) (tr t5 : Trace) :
  reachesResolved env cfg plat item template rid true w r d resolved w4 tr ->
  resolved <> [] ->
  run env (checkForDuplicate (ititle item) resolved) w4 = (Ok false, w5, t5) ->
  run env (processItem cfg plat item template rid true) w
  = (Ok {| rIntakeId := intakeId item; rDecision := R_PUBLISH;
           rReason := VStr (str "[DRY RUN] Would publish with "
                              ++ natToString (N.of_nat (List.length resolved))
                              ++ str " entities");
           rCardId := None; rEntityIds := Some resolved;
           rRelationshipIds := None |}, w5, tr ++ t5)
  /\ noWrites (tr ++ t5) = true.
Proof.
  intros Hreach Hne Hdup.
  assert (Hrun : run env (processItem cfg plat item template rid true) w
                 = (Ok {| rIntakeId := intakeId item; rDecision := R_PUBLISH;
                          rReason := VStr (dryRunReason resolved);
                          rCardId := None; rEntityIds := Some resolved;
                          rRelationshipIds := None |}, w5, tr ++ t5)).
  { rewrite run_processItem, (attempt_from_resolved Hreach).
    unfold afterResolve. destruct resolved as [|x rest]; [contradiction|].
    erewrite run_bind_ok; [|exact Hdup]. simpl. now rewrite app_nil_r. }
  split; [exact Hrun|].
  pose proof (dry_run_writes_nothing env cfg plat item template rid w) as Hw.
  now rewrite Hrun in Hw.
Qed.

Lemma C3_dry_run_publish_witness :
  exists tr t5,
    processAcme true entityLedger
    = (Ok {| rIntakeId := str "item1"; rDecision := R_PUBLISH;
             rReason := VStr (str "[DRY RUN] Would publish with 1 entities");
             rCardId := None; rEntityIds := Some [VStr (str "ent_1")];
             rRelationshipIds := None |}, tick entityLedger, tr ++ t5)
    /\ noWrites (tr ++ t5) = true.
Proof.
  do 2 eexists.
  eapply (@C3_dry_run_publish World Mem.env (defaultConfig true) platform acme
            (str "T") (str "run_0") entityLedger _ _ _ _ [VStr (str "ent_1")]).
  - exists [], byIdResponse, entityLedger. do 5 eexists.
    split; [exists entityLedger, []; repeat split; reflexivity|].
    repeat split; reflexivity.
  - discriminate.
  - reflexivity.
Defined.

(** ** C5 and C8: the two forced SKIPs *)

Lemma noCreation_sound (tr : Trace) : Forall (evSat notCreates) tr -> noCreation tr = true.
Proof.
  apply forallb_evSat. intros [X o r|l]; simpl; auto.
Qed.

Lemma noCreation_app (a b : Trace) : noCreation (a ++ b) = noCreation a && noCreation b.
Proof. apply forallb_app. Qed.

Section Skips.

Variable W : Type.
Variable env : forall X : Type, Op X -> W -> Result X * W.
Variable cfg : Config.
Variable plat : Platform.

Lemma noCreation_run (A : Type) (p : Prog A) (w : W) :
  Always notCreates p -> noCreation (snd (run env p w)) = true.
Proof. intros H. now apply noCreation_sound, always_sound. Qed.

Lemma snd_after (A : Type) (pre : Trace) (out : Result A * W * Trace) :
  snd (after pre out) = pre ++ snd out.
Proof. now destruct out as [[r w] t]. Qed.

Lemma noCreation_settle (item : IntakeItem) (out : Result EditorItemResult * W * Trace) :
  noCreation (snd (settle item out)) = noCreation (snd out).
Proof.
  destruct out as [[[x|e] w] t]; simpl; [reflexivity|].
  rewrite noCreation_app. simpl. now rewrite andb_true_r.
Qed.

(** Nothing is created on the way to the end of the entity resolution. *)
Lemma reachesResolved_noCreation (item : IntakeItem) (template rid : list N) (dry : bool)
    (w w4 : W) (r : EditorResponse) (d : EditorDecision) (resolved : list JSVal)
    (tr : Trace) :
  reachesResolved env cfg plat item template rid dry w r d resolved w4 tr ->
  noCreation tr = true.
Proof.
  intros (matched & content & w2 & t2 & parsed & now & w3 & t4
          & (w1 & t1 & Hm & Hc & ->) & _ & _ & _ & _ & Hres & ->).
  rewrite !noCreation_app. simpl.
  assert (H1 : noCreation t1 = true).
  { change t1 with (snd (Ok matched, w1, t1)). rewrite <- Hm.
    apply noCreation_run. apply getMatchedEntities_calls; intros; reflexivity. }
  assert (H4 : noCreation t4 = true).
  { change t4 with (snd (Ok resolved, w4, t4)). rewrite <- Hres.
    apply noCreation_run. apply resolveEntities_calls; intros; reflexivity. }
  now rewrite H1, H4.
Qed.

(** The end of a forced SKIP: the annotation, then the result. *)
Lemma skip_tail_run (item : IntakeItem) (dry : bool) (d : EditorDecision) (why : string)
    (w w' : W) (t : Trace) :
  annotated env item dry d why w w' t ->
  run env (bind (if dry then Ret tt
                 else updateIntakeEditorStatus (intakeId item) SKIPPED
                        (skipDecision d why) None None)
                (fun _ => Ret (mkResult (intakeId item) R_SKIP (VStr (str why))))) w
  = (Ok (skipResult item why), w', t).
Proof.
  unfold annotated. destruct dry.
  - intros [-> ->]. reflexivity.
  - intros H. erewrite run_bind_ok; [|exact H]. simpl. now rewrite app_nil_r.
Qed.

Lemma afterResolve_none_calls (item : IntakeItem) (rid : list N) (dry : bool)
    (r : EditorResponse) (d : EditorDecision) :
  Always notCreates (afterResolve plat item rid dry r d []).
Proof. unfold Always, afterResolve. editor_branches. Qed.

(** A card of the window whose normalised title is the normalised title
    of the candidate is found to be a duplicate, by this card or by an
    earlier one. *)
Lemma scanCards_finds (t : list N) (ids : list JSVal) (cards : list Card) (w : W) :
  (exists card, In card cards /\ normalizeTitle (title card) = t) ->
  exists found, run env (scanCards t ids cards) w = (Ok true, w, [ELog (Info, found)]).
Proof.
  intros (card & Hin & Heq). induction cards as [|c rest IH]; [contradiction|].
  simpl. destruct (duplicateOf t ids c) as [[|]|] eqn:Ed.
  - eexists. reflexivity.
  - eexists. reflexivity.
  - destruct Hin as [->|Hin]; [|auto].
    unfold duplicateOf in Ed. rewrite Heq, str_eqb_refl in Ed. discriminate.
Qed.

End Skips.

Section ForcedSkips.

Variable W : Type.
Variable env : forall X : Type, Op X -> W -> Result X * W.
Variable cfg : Config.
Variable plat : Platform.

Lemma skip_tail_calls (item : IntakeItem) (dry : bool) (d : EditorDecision) (why : string) :
  Always notCreates
    (bind (if dry then Ret tt
           else updateIntakeEditorStatus (intakeId item) SKIPPED
                  (skipDecision d why) None None)
          (fun _ => Ret (mkResult (intakeId item) R_SKIP (VStr (str why))))).
Proof. unfold Always. editor_branches. Qed.

Lemma checkForDuplicate_finds (ttl : list N) (ids : list JSVal) (cards : list Card)
    (w w' : W) :
  env (ListCards 100) w = (Ok cards, w') ->
  (exists card, In card cards /\ normalizeTitle (title card) = normalizeTitle ttl) ->
  exists found,
    run env (checkForDuplicate ttl ids) w
    = (Ok true, w', [ECall (ListCards 100) (Ok cards); ELog (Info, found)]).
Proof.
  intros Hlist Hdup. unfold checkForDuplicate.
  destruct (@scanCards_finds W env (normalizeTitle ttl) ids cards w' Hdup) as [found Hf].
  exists found. erewrite run_bind_ok; [|apply run_call_ok; exact Hlist].
  rewrite Hf. reflexivity.
Qed.

End ForcedSkips.

(** C5, as stated, fails: when the write of the SKIPPED annotation is
    rejected, the item that resolved to no entity ends in ERROR. *)
Lemma C5_annotation_rejected_counterexample :
  (exists r d w4 tr,
     reachesResolved Mem.env (defaultConfig false) platform acme (str "T") (str "run_0")
       false (failing noEntityLedger rejectsPutItem) r d [] w4 tr)
  /\ fst (fst (processIn acme false (failing noEntityLedger rejectsPutItem)))
     = Ok (failed acme (str "Service unavailable"))
  /\ kinds (snd (processIn acme false (failing noEntityLedger rejectsPutItem)))
     = [KInvokeClaude; KNow; KNow; KScanItems; KPutItem].
Proof.
  split; [|split; reflexivity].
  do 4 eexists. exists [], noEntityResponse. do 6 eexists.
  split; [eexists; exists []; repeat split; reflexivity|].
  repeat split; reflexivity.
Qed.

(** C5, amended. For every item on the PUBLISH path whose entity
    resolution yields no identifier, no source, card or relationship is
    created; and the outcome is SKIP with the reason "No entities could be
    resolved" whenever the SKIPPED annotation of the intake item is
    recorded, which a dry run does not attempt. (When that write is
    rejected, the outcome is ERROR.) *)
Theorem C5_no_entities_skip (W : Type)
    (env : forall X : Type, Op X -> W -> Result X * W)
    (cfg : Config) (plat : Platform) (item : IntakeItem) (template rid : list N)
    (dry : bool) (w w4 : W) (r : EditorResponse) (d : EditorDecision) (tr : Trace) :
  reachesResolved env cfg plat item template rid dry w r d [] w4 tr ->
  noCreation (snd (run env (processItem cfg plat item template rid dry) w)) = true
  /\ forall (w5 : W) (t5 : Trace),
       annotated env item dry d "No entities could be resolved" w4 w5 t5 ->
       run env (processItem cfg plat item template rid dry) w
       = (Ok (skipResult item "No entities could be resolved"), w5,
          tr ++ ELog (Warn, "No entities resolved, skipping item"%string) :: t5).
Proof.
  intros Hreach.
  rewrite run_processItem, (attempt_from_resolved Hreach). split.
  - rewrite noCreation_settle, snd_after, noCreation_app.
    rewrite (reachesResolved_noCreation Hreach), andb_true_l.
    apply noCreation_run, afterResolve_none_calls.
  - intros w5 t5 Hann. unfold afterResolve.
    erewrite run_bind_ok; [|apply run_log].
    erewrite skip_tail_run; [|exact Hann]. reflexivity.
Qed.

Lemma C5_no_entities_skip_witness :
  noCreation (snd (processIn acme false noEntityLedger)) = true
  /\ exists w5 tr t5,
       processIn acme false noEntityLedger
       = (Ok (skipResult acme "No entities could be resolved"), w5,
          tr ++ ELog (Warn, "No entities resolved, skipping item"%string) :: t5).
Proof.
  edestruct (@C5_no_entities_skip World Mem.env (defaultConfig false) platform acme
               (str "T") (str "run_0") false noEntityLedger) as [H1 H2].
  - exists [], noEntityResponse. do 6 eexists.
    split; [eexists; exists []; repeat split; reflexivity|].
    repeat split; reflexivity.
  - split; [exact H1|].
    do 3 eexists. apply H2. reflexivity.
Defined.

(** ** C8: duplicates by title *)

(** C8, as stated, fails: a title that differs from the title of a
    published card by a doubled space is not found to be a duplicate, and
    a second card is created and published. *)
Lemma C8_inner_whitespace_counterexample :
  sameTitleIgnoringCaseAndSpace (ititle spacedAcme) (title acmeCard) = true
  /\ (exists res, fst (fst (processIn spacedAcme false (publishedLedger spacedAcme))) = Ok res
                  /\ rDecision res = R_PUBLISH /\ rCardId res = Some (str "card_2"))
  /\ map title (wCards (snd (fst (processIn spacedAcme false (publishedLedger spacedAcme)))))
     = [str "FTC  Fines Acme Corp $5M"; str "FTC Fines Acme Corp $5M"]
  /\ map isPublished
       (wCards (snd (fst (processIn spacedAcme false (publishedLedger spacedAcme)))))
     = [true; true].
Proof.
  split; [reflexivity|]. split; [eexists; repeat split; reflexivity|].
  split; reflexivity.
Qed.

(** C8, amended. For every candidate item that reaches the duplicate
    check (PUBLISH path, at least one entity resolved) and whose title,
    lower-cased and trimmed of leading and trailing white space, equals the
    likewise normalised title of a card in the fetched window, no source,
    card or relationship is created; and the outcome is SKIP with the
    reason "Duplicate card detected" whenever the SKIPPED annotation of the
    intake item is recorded, which a dry run does not attempt. *)
Theorem C8_duplicate_title_skip (W : Type)
    (env : forall X : Type, Op X -> W -> Result X * W)
    (cfg : Config) (plat : Platform) (item : IntakeItem) (template rid : list N)
    (dry : bool) (w w4 w5 : W) (r : EditorResponse) (d : EditorDecision)
    (resolved : list JSVal) (tr : Trace) (cards : list Card) :
  reachesResolved env cfg plat item template rid dry w r d resolved w4 tr ->
  resolved <> [] ->
  env _ (ListCards 100) w4 = (Ok cards, w5) ->
  (exists card, In card cards
                /\ normalizeTitle (title card) = normalizeTitle (ititle item)) ->
  noCreation (snd (run env (processItem cfg plat item template rid dry) w)) = true
  /\ forall (w6 : W) (t6 : Trace),
       annotated env item dry d "Duplicate card detected" w5 w6 t6 ->
       exists found,
         run env (processItem cfg plat item template rid dry) w
         = (Ok (skipResult item "Duplicate card detected"), w6,
            tr ++ [ECall (ListCards 100) (Ok cards); ELog (Info, found)] ++ t6).
Proof.
  intros Hreach Hne Hlist Hdup.
  destruct (@checkForDuplicate_finds W env (ititle item) resolved cards w4 w5 Hlist Hdup)
    as [found Hfound].
  rewrite run_processItem, (attempt_from_resolved Hreach).
  unfold afterResolve. destruct resolved as [|x rest]; [contradiction|].
  erewrite run_bind_ok; [|exact Hfound]. split.
  - rewrite noCreation_settle, !snd_after, !noCreation_app.
    rewrite (reachesResolved_noCreation Hreach), andb_true_l.
    change (noCreation [ECall (ListCards 100) (Ok cards); ELog (Info, found)]) with true.
    rewrite andb_true_l.
    apply noCreation_run, skip_tail_calls.
  - intros w6 t6 Hann. exists found.
    erewrite skip_tail_run; [|exact Hann]. reflexivity.
Qed.

Lemma C8_duplicate_title_skip_witness :
  noCreation (snd (processIn shoutedAcme false (publishedLedger shoutedAcme))) = true
  /\ exists w6 tr t6 found,
       processIn shoutedAcme false (publishedLedger shoutedAcme)
       = (Ok (skipResult shoutedAcme "Duplicate card detected"), w6,
          tr ++ [ECall (ListCards 100) (Ok [acmeCard]); ELog (Info, found)] ++ t6).
Proof.
  edestruct (@C8_duplicate_title_skip World Mem.env (defaultConfig false) platform
               shoutedAcme (str "T") (str "run_0") false (publishedLedger shoutedAcme))
    as [H1 H2].
  - exists [], byIdResponse. do 6 eexists.
    split; [eexists; exists []; repeat split; reflexivity|].
    repeat split; reflexivity.
  - discriminate.
  - reflexivity.
  - exists acmeCard. split; [left; reflexivity|reflexivity].
  - split; [exact H1|].
    edestruct H2 as [found Hf]; [reflexivity|].
    do 4 eexists. exact Hf.
Defined.

(** ** C9: the run and the handler *)

Section Returns.

Lemma leaves_bind (A B : Type) (Q' : A -> Prop) (Q : B -> Prop)
    (p : Prog A) (f : A -> Prog B) :
  Leaves Q' p -> (forall a, Q' a -> Leaves Q (f a)) -> Leaves Q (bind p f).
Proof.
  intros Hp Hf. induction Hp; simpl.
  - now apply Hf.
  - constructor.
  - now constructor.
  - constructor. auto.
Qed.

Lemma leaves_catch (A : Type) (Q : A -> Prop) (p : Prog A) (h : Exn -> Prog A) :
  Leaves Q p -> (forall e, Leaves Q (h e)) -> Leaves Q (catch p h).
Proof.
  intros Hp Hh. induction Hp; simpl.
  - now constructor.
  - apply Hh.
  - now constructor.
  - constructor. auto.
Qed.

Lemma leaves_weaken (A : Type) (Q Q' : A -> Prop) (p : Prog A) :
  Leaves Q p -> (forall a, Q a -> Q' a) -> Leaves Q' p.
Proof.
  intros Hp HQ. induction Hp.
  - constructor. auto.
  - constructor.
  - now constructor.
  - constructor. auto.
Qed.

Lemma leaves_any (A : Type) (Q : A -> Prop) (p : Prog A) :
  (forall a, Q a) -> Leaves Q p.
Proof.
  intros HQ. induction p as [a|e|l k IH|X o k IH].
  - now constructor.
  - constructor.
  - now constructor.
  - constructor. auto.
Qed.

Variable W : Type.
Variable env : forall X : Type, Op X -> W -> Result X * W.

Lemma leaves_sound (A : Type) (Q : A -> Prop) (p : Prog A) :
  Leaves Q p ->
  forall (w w' : W) (a : A) (t : Trace), run env p w = (Ok a, w', t) -> Q a.
Proof.
  induction 1 as [a Ha|e|l k Hk IH|X o k Hk IH]; intros w w' a' t; simpl.
  - intros H. inversion H; subst. exact Ha.
  - discriminate.
  - destruct (run env k w) as [[r w1] t1] eqn:E. intros H. inversion H; subst.
    eapply IH. exact E.
  - destruct (env o w) as [x w1].
    destruct (run env (k x) w1) as [[r w2] t1] eqn:E. intros H. inversion H; subst.
    eapply IH. exact E.
Qed.

End Returns.





Section Summary.

Variable cfg : Config.
Variable plat : Platform.

(** The loop gives every item a result and counts it. *)
Lemma processAll_leaves (items : list IntakeItem) (template rid : list N) (dry : bool)
    (acc : list EditorItemResult) (pub skp errs : N) :
  Leaves (fun out =>
            exists new,
              out = (acc ++ new, pub + tally R_PUBLISH new, skp + tally R_SKIP new,
                     errs + tally R_ERROR new)
              /\ List.length new = List.length items)
         (processAll cfg plat items template rid dry acc pub skp errs).
Proof.
  revert acc pub skp errs.
  induction items as [|item rest IH]; intros acc pub skp errs; cbn [processAll].
  - constructor. exists []. rewrite app_nil_r. cbn [tally List.length].
    now rewrite !N.add_0_r.
  - eapply leaves_bind; [apply (@leaves_any _ (fun _ => True)); auto|].
    intros result _.
    eapply leaves_bind; [apply (@leaves_any _ (fun _ => True)); auto|].
    intros _ _. eapply leaves_weaken; [apply IH|].
    intros out (new & -> & Hlen).
    exists (result :: new). cbn [tally List.length].
    rewrite <- app_assoc, !N.add_assoc. split; [reflexivity|]. now rewrite Hlen.
Qed.

Lemma runEditor_leaves : Leaves consistent (runEditor cfg plat).
Proof.
  unfold runEditor.
  eapply leaves_bind; [apply (@leaves_any _ (fun _ => True)); auto|]. intros rid _.
  eapply leaves_bind; [apply (@leaves_any _ (fun _ => True)); auto|]. intros started _.
  eapply leaves_bind; [apply (@leaves_any _ (fun _ => True)); auto|]. intros _ _.
  destruct (negb (enabled cfg)).
  - eapply leaves_bind; [apply (@leaves_any _ (fun _ => True)); auto|]. intros _ _.
    eapply leaves_bind; [apply (@leaves_any _ (fun _ => True)); auto|]. intros completed _.
    constructor. repeat split; reflexivity.
  - eapply leaves_bind; [apply (@leaves_any _ (fun _ => True)); auto|]. intros template _.
    eapply leaves_bind; [apply (@leaves_any _ (fun _ => True)); auto|]. intros items _.
    eapply leaves_bind; [apply (@leaves_any _ (fun _ => True)); auto|]. intros _ _.
    eapply leaves_bind; [apply (processAll_leaves items template rid (dryRun cfg) [] 0 0 0)|].
    intros out (new & -> & Hlen).
    eapply leaves_bind; [apply (@leaves_any _ (fun _ => True)); auto|]. intros completed _.
    eapply leaves_bind; [apply (@leaves_any _ (fun _ => True)); auto|]. intros _ _.
    constructor. unfold consistent. simpl. now rewrite Hlen.
Qed.

End Summary.

Section HandlerRuns.

Variable W : Type.
Variable env : forall X : Type, Op X -> W -> Result X * W.



End HandlerRuns.




(** ** C10: an ERROR after the publication *)

(** C10. There are executions in which the result of the item is ERROR,
    with no card identifier, although its entities, its source, its card
    and its relationship were written and published: one in which the audit
    event is rejected (the item is then marked APPROVED and promoted), and
    one in which the write that marks the item APPROVED is rejected (the
    item then keeps no trace of the editor). Nothing is undone: the rejected
    call is the last one. *)
Theorem C10_error_after_publish :
  (exists w : World,
     fst (fst (processIn acme false w)) = Ok (failed acme (str "Service unavailable"))
     /\ rCardId (failed acme (str "Service unavailable")) = None
     /\ written (snd (fst (processIn acme false w)))
        = ([(str "card_4", true)], [str "ent_1"; str "ent_2"], [str "src_3"],
           [(str "rel_5", REL_PUBLISHED)])
     /\ annotations (snd (fst (processIn acme false w)))
        = [(Some APPROVED, PROMOTED, Some (str "card_4"))]
     /\ kinds (snd (processIn acme false w))
        = [KInvokeClaude; KNow; KFindEntityByName; KCreateEntity;
           KFindEntityByName; KCreateEntity; KListCards; KCreateSource;
           KCaptureHtmlSnapshot; KCreateCard; KCreateRelationship;
           KPublishCard; KPublishRelationship; KNow; KScanItems; KPutItem;
           KLogAuditEvent])
  /\ (exists w : World,
        fst (fst (processIn acme false w)) = Ok (failed acme (str "Service unavailable"))
        /\ written (snd (fst (processIn acme false w)))
           = ([(str "card_4", true)], [str "ent_1"; str "ent_2"], [str "src_3"],
              [(str "rel_5", REL_PUBLISHED)])
        /\ annotations (snd (fst (processIn acme false w))) = [(None, NEW, None)]
        /\ kinds (snd (processIn acme false w))
           = [KInvokeClaude; KNow; KFindEntityByName; KCreateEntity;
              KFindEntityByName; KCreateEntity; KListCards; KCreateSource;
              KCaptureHtmlSnapshot; KCreateCard; KCreateRelationship;
              KPublishCard; KPublishRelationship; KNow; KScanItems; KPutItem]).
Proof.
  split.
  - exists (failing finedLedger rejectsAudit). repeat split; reflexivity.
  - exists (failing finedLedger rejectsPutItem). repeat split; reflexivity.
Qed.

(** ** C2: an entity reference by an unknown identifier *)

Section ById.

Variable W : Type.
Variable env : forall X : Type, Op X -> W -> Result X * W.

(** Were the directory to answer null for the identifier, the reference
    would be dropped with a warning and the loop would go on. *)
Lemma byId_null_is_dropped (dry : bool) (matched : list Entity)
    (id : JSVal) (rest resolved : list JSVal) (w w1 : W) :
  env (GetEntity id) w = (Ok None, w1) ->
  run env (resolveLoop dry matched (byId id :: rest) resolved) w
  = after [ECall (GetEntity id) (Ok None);
           ELog (Warn, "Entity ID not found in database, skipping"%string)]
      (run env (resolveLoop dry matched rest resolved) w1).
Proof.
  intros H. cbn [resolveLoop]. unfold resolveRef, byId. simpl hasProp. cbv iota.
  unfold field. simpl getProp. cbv iota.
  change (hasOwn [(str "entityId", id)] (str "matchedIndex")) with false.
  change (hasOwn [(str "entityId", id)] (str "entityId")) with true. cbv iota.
  rewrite run_bind.
  erewrite run_bind_ok; [|apply run_call_ok; exact H].
  destruct (run env (resolveLoop dry matched rest resolved) w1) as [[r w2] t2] eqn:E.
  simpl. rewrite E. reflexivity.
Qed.

(** When the directory rejects the lookup, the loop is abandoned: the
    references that follow are not looked at. *)
Lemma byId_rejection_aborts (dry : bool) (matched : list Entity)
    (id : JSVal) (rest resolved : list JSVal) (w w1 : W) (e : Exn) :
  env (GetEntity id) w = (Err e, w1) ->
  run env (resolveLoop dry matched (byId id :: rest) resolved) w
  = (Err e, w1, [ECall (GetEntity id) (Err e)]).
Proof.
  intros H. cbn [resolveLoop]. unfold resolveRef, byId. simpl hasProp. cbv iota.
  unfold field. simpl getProp. cbv iota.
  change (hasOwn [(str "entityId", id)] (str "matchedIndex")) with false.
  change (hasOwn [(str "entityId", id)] (str "entityId")) with true. cbv iota.
  rewrite run_bind.
  erewrite run_bind_err; [reflexivity|]. apply run_call_err. exact H.
Qed.

End ById.

(** C2 fails on the code. The directory rejects the lookup of an
    identifier that it does not hold, the rejection is caught by the
    [catch] of [processItem], and the item ends in ERROR; the reference
    that follows is never resolved. *)
Theorem C2_unknown_entity_id_ends_in_error :
  findEntity unknownIdLedger (VStr (str "ftc-1")) = None
  /\ fst (fst (processIn acme false unknownIdLedger))
     = Ok (failed acme (str "Entity not found"))
  /\ kinds (snd (processIn acme false unknownIdLedger))
     = [KInvokeClaude; KNow; KGetEntity]
  /\ written (snd (fst (processIn acme false unknownIdLedger))) = ([], [], [], []).
Proof. repeat split; reflexivity. Qed.

(** ** The confidence gate inside [processItem] *)

(** An item whose PUBLISH decision falls below the threshold ends in SKIP
    with the reason of the threshold check, once the SKIPPED annotation is
    recorded (a dry run records nothing): its entity references are not
    resolved and the duplicate check is not made. *)
Lemma below_threshold_item_is_skipped (W : Type)
    (env : forall X : Type, Op X -> W -> Result X * W)
    (cfg : Config) (plat : Platform) (item : IntakeItem) (template rid : list N)
    (dry : bool) (w w2 w3 w4 : W) (matched : list Entity) (content : list N)
    (parsed : EditorResponse) (now : list N) (t2 t4 : Trace) :
  reachesResponse env item template w matched content w2 t2 ->
  parseEditorResponse content = Some parsed ->
  belowThreshold cfg parsed = true ->
  env _ Now w2 = (Ok now, w3) ->
  (if dry then w4 = w3 /\ t4 = []
   else run env (updateIntakeEditorStatus (intakeId item) SKIPPED
                   (snd (confidenceGate cfg plat parsed
                           {| decision := erDecision parsed; reason := erReason parsed;
                              dconfidence := erConfidence parsed; decidedAt := now;
                              runId := rid |})) None None) w3
        = (Ok tt, w4, t4)) ->
  run env (processItem cfg plat item template rid dry) w
  = (Ok (mkResult (intakeId item) R_SKIP (VStr (thresholdReason cfg plat parsed))), w4,
     t2 ++ [ECall Now (Ok now);
            ELog (Info, "Confidence below threshold, treating as SKIP"%string)] ++ t4).
Proof.
  intros Hresp Hparse Hbelow Hnow Hann.
  rewrite run_processItem, (attempt_from_response cfg plat rid dry Hresp).
  unfold parseEditorResponse in Hparse.
  destruct (parseOutcome content) as [f|p]; [discriminate|].
  inversion Hparse; subst p; clear Hparse.
  unfold afterParse.
  erewrite run_bind_ok; [|apply run_call_ok; exact Hnow].
  rewrite Hbelow.
  erewrite run_bind_ok; [|apply run_log].
  unfold confidenceGate in *. rewrite Hbelow in *. cbn [snd] in Hann. cbv iota beta.
  cbn [erDecision erReason].
  destruct dry.
  - destruct Hann as [-> ->]. reflexivity.
  - erewrite run_bind_ok; [|exact Hann]. simpl. now rewrite app_nil_r.
Qed.

(** ** Results that are errors *)

(** Splits a goal about the values returned by a program whose
    intermediate values do not matter. *)
Ltac leaves_step :=
  match goal with
  | |- Leaves _ (catch _ _) => apply leaves_catch
  | |- Leaves _ (bind _ _) =>
      eapply leaves_bind; [apply (@leaves_any _ (fun _ => True)); auto|intros ? _]
  | |- Leaves _ (Ret _) => apply L_ret; simpl; intros; try discriminate; auto
  | |- Leaves _ (Raise _) => apply L_raise
  | |- Leaves _ (match ?x with _ => _ end) => destruct x
  | |- forall _, _ => intro
  end.

(** Whatever the services answer, a result ERROR carries no card
    identifier, no entity identifiers and no relationship identifiers,
    whatever was written before the failure. *)
Lemma error_result_is_bare (cfg : Config) (plat : Platform) (item : IntakeItem)
    (template rid : list N) (dry : bool) :
  Leaves (fun res => rDecision res = R_ERROR ->
                     rCardId res = None /\ rEntityIds res = None
                     /\ rRelationshipIds res = None)
         (processItem cfg plat item template rid dry).
Proof.
  unfold processItem, attempt, afterParse, afterResolve, publish.
  repeat leaves_step.
Qed.

(** * Properties of the code around the editor *)

Import Terms.
Import Free.

Lemma clamp_range (c : JSNum) :
  mathMin one (mathMax zero c) = NaN \/ inUnitInterval (mathMin one (mathMax zero c)).
Proof.
  destruct c as [| | |q]; simpl; auto.
  - right. split; [discriminate|apply Qle_refl].
  - right. split; [apply Qle_refl|discriminate].
  - right. unfold Qltb.
    destruct (Qle_bool q 0) eqn:E0; simpl.
    + split; [apply Qle_refl|discriminate].
    + unfold Qltb. destruct (Qle_bool 1 q) eqn:E1; simpl.
      * split; [discriminate|apply Qle_refl].
      * split.
        -- apply Qlt_le_weak, Qnot_le_lt. intros H. apply Qle_bool_iff in H. congruence.
        -- apply Qlt_le_weak, Qnot_le_lt. intros H. apply Qle_bool_iff in H. congruence.
Qed.

(** X1. Whenever parseEditorResponse accepts a response, the confidence it
    returns is a number from 0 to 1, or NaN; and a response whose
    confidence is NaN passes the confidence threshold unchanged, whatever
    the threshold is. *)
Theorem parsed_confidence_is_clamped (content : list N) (r : EditorResponse) :
  parseEditorResponse content = Some r ->
  inUnitInterval (erConfidence r)
  \/ (erConfidence r = NaN
      /\ forall cfg plat d, confidenceGate cfg plat r d = (r, d)).
Proof.
  unfold parseEditorResponse, parseOutcome.
  destruct (matchObject (stripFences content)) as [text|]; [|discriminate].
  destruct (JSON_parse text) as [parsed|]; [|discriminate].
  destruct (decisionOf (field parsed "decision")) as [d|]; [|discriminate].
  destruct (toNumber _) as [c|]; [|discriminate].
  pose proof (clamp_range c) as Hc.
  set (m := mathMin one (mathMax zero c)) in *. clearbody m.
  intros H. injection H as <-.
  cbn [erConfidence].
  destruct Hc as [Hn|Hr]; [right|left; exact Hr].
  split; [exact Hn|]. intros cfg plat d0.
  unfold confidenceGate, belowThreshold. cbn [erConfidence erDecision]. rewrite Hn.
  now destruct d.
Qed.

(** ** Code fences *)

Lemma takeWhile_dropWhile (p : N -> bool) (s : list N) :
  s = takeWhile p s ++ dropWhile p s /\ Forall (fun c => p c = true) (takeWhile p s).
Proof.
  induction s as [|c s [IH1 IH2]]; simpl; [split; [reflexivity|constructor]|].
  destruct (p c) eqn:E; simpl.
  - split; [now rewrite <- IH1|now constructor].
  - split; [reflexivity|constructor].
Qed.

(** Trimming removes white space at both ends, and nothing else. *)
Lemma trim_decompose (s : list N) :
  exists a b,
    s = a ++ trim s ++ b
    /\ Forall (fun c => isWhiteSpace c = true) a
    /\ Forall (fun c => isWhiteSpace c = true) b.
Proof.
  unfold trim, trimEnd, trimStart.
  destruct (takeWhile_dropWhile isWhiteSpace s) as [H1 H2].
  destruct (takeWhile_dropWhile isWhiteSpace (rev (dropWhile isWhiteSpace s))) as [H3 H4].
  exists (takeWhile isWhiteSpace s),
         (rev (takeWhile isWhiteSpace (rev (dropWhile isWhiteSpace s)))).
  split; [|split; [exact H2|now apply Forall_rev]].
  rewrite <- rev_app_distr, <- H3, rev_involutive. exact H1.
Qed.

Lemma matchObject_skip_prefix (w s : list N) :
  Forall (fun c => c <> 123) w -> matchObject (w ++ s) = matchObject s.
Proof.
  intros H. unfold matchObject.
  replace (dropWhile (fun c => negb (c =? 123)) (w ++ s))
    with (dropWhile (fun c => negb (c =? 123)) s); [reflexivity|].
  induction H as [|c w Hc _ IH]; simpl; [reflexivity|].
  apply N.eqb_neq in Hc. now rewrite Hc.
Qed.

Lemma dropWhile_app_all (p : N -> bool) (a b : list N) :
  Forall (fun c => p c = true) a -> dropWhile p (a ++ b) = dropWhile p b.
Proof.
  induction 1 as [|c a Hc _ IH]; simpl; [reflexivity|]. now rewrite Hc.
Qed.

Lemma dropWhile_app_found (p : N -> bool) (a b : list N) :
  dropWhile p a <> [] -> dropWhile p (a ++ b) = dropWhile p a ++ b.
Proof.
  induction a as [|c a IH]; simpl; [contradiction|].
  destruct (p c); auto.
Qed.

Lemma dropWhile_nil_all (p : N -> bool) (a : list N) :
  dropWhile p a = [] -> Forall (fun c => p c = true) a.
Proof.
  induction a as [|c a IH]; simpl; [constructor|].
  destruct (p c) eqn:E; [|discriminate]. intros H. constructor; auto.
Qed.

Lemma matchObject_skip_suffix (s w : list N) :
  Forall (fun c => c <> 123 /\ c <> 125) w -> matchObject (s ++ w) = matchObject s.
Proof.
  intros H. unfold matchObject.
  assert (Ho : Forall (fun c => negb (c =? 123) = true) w).
  { eapply Forall_impl; [|exact H]. intros c [Hc _]. simpl.
    apply negb_true_iff. now apply N.eqb_neq. }
  assert (Hc : Forall (fun c => negb (c =? 125) = true) (rev w)).
  { apply Forall_rev. eapply Forall_impl; [|exact H]. intros c [_ Hc]. simpl.
    apply negb_true_iff. now apply N.eqb_neq. }
  destruct (dropWhile (fun c => negb (c =? 123)) s) as [|open rest] eqn:E.
  - apply dropWhile_nil_all in E.
    rewrite dropWhile_app_all by exact E.
    assert (En : dropWhile (fun c => negb (c =? 123)) w = []).
    { clear -Ho. induction Ho as [|c w Hc _ IH]; simpl; [reflexivity|]. now rewrite Hc. }
    now rewrite En.
  - rewrite dropWhile_app_found by (rewrite E; discriminate).
    rewrite E. simpl app. cbv beta iota.
    rewrite rev_app_distr, dropWhile_app_all by exact Hc. reflexivity.
Qed.

Lemma whitespace_no_brace (c : N) : isWhiteSpace c = true -> c <> 123 /\ c <> 125.
Proof.
  intros H. split; intros ->; discriminate.
Qed.

Lemma matchObject_trim (s : list N) : matchObject (trim s) = matchObject s.
Proof.
  destruct (trim_decompose s) as (a & b & Hs & Ha & Hb).
  rewrite Hs at 2.
  rewrite matchObject_skip_prefix, matchObject_skip_suffix; [reflexivity| |].
  - eapply Forall_impl; [|exact Hb]. intros c Hc. now apply whitespace_no_brace.
  - eapply Forall_impl; [|exact Ha]. intros c Hc. now apply whitespace_no_brace.
Qed.

Lemma trimEnd_last (s : list N) (c : N) :
  isWhiteSpace c = false -> trimEnd (s ++ [c]) = s ++ [c].
Proof.
  intros H. unfold trimEnd. rewrite rev_app_distr. simpl. rewrite H.
  simpl. now rewrite rev_involutive.
Qed.

Lemma startsWith_app (p s : list N) : startsWith (p ++ s) p = true.
Proof.
  induction p as [|c p IH]; simpl; [now destruct s|]. now rewrite N.eqb_refl.
Qed.

Lemma endsWith_app (s suffix : list N) : endsWith (s ++ suffix) suffix = true.
Proof. unfold endsWith. rewrite rev_app_distr. apply startsWith_app. Qed.

Lemma dropLast_app (s suffix : list N) :
  dropLast (List.length suffix) (s ++ suffix) = s.
Proof.
  unfold dropLast. rewrite length_app.
  replace (List.length s + List.length suffix - List.length suffix)%nat
    with (List.length s + 0)%nat by lia.
  rewrite firstn_app_2. simpl. apply app_nil_r.
Qed.

Lemma stripFences_fenced (tagged : bool) (body : list N) :
  stripFences (fenced tagged body) = body.
Proof.
  unfold stripFences.
  assert (Ht : trim (fenced tagged body) = fenced tagged body).
  { unfold trim. unfold fenced at 2. unfold trimStart. simpl dropWhile.
    change (96 :: 96 :: 96 :: (if tagged then str "json" else []) ++ 10 :: body ++ 10 :: fence)
      with (fenced tagged body).
    unfold fenced, fence.
    replace (str "```" ++ (if tagged then str "json" else []) ++ 10 :: body ++ 10 :: str "```")
      with ((str "```" ++ (if tagged then str "json" else []) ++ 10 :: body ++ [10; 96; 96]) ++ [96]).
    - now apply trimEnd_last.
    - rewrite <- !app_assoc. simpl. f_equal. f_equal. f_equal. f_equal. f_equal.
      rewrite <- !app_assoc. reflexivity. }
  rewrite Ht.
  assert (Hl : stripLeadingFence (fenced tagged body) = body ++ 10 :: fence).
  { destruct tagged; reflexivity. }
  assert (Hs : startsWith (fenced tagged body) fence = true) by (destruct tagged; reflexivity).
  rewrite Hs, Hl. unfold stripTrailingFence.
  rewrite (endsWith_app body (10 :: fence)).
  apply (dropLast_app body (10 :: fence)).
Qed.

(** X2. A response wrapped in a Markdown code fence, with or without the
    json tag, is parsed by parseEditorResponse exactly as the same
    response without the fence; the response itself must not start with a
    fence. *)
Theorem fenced_response_parses_alike (tagged : bool) (body : list N) :
  startsWith (trim body) fence = false ->
  parseOutcome (fenced tagged body) = parseOutcome body.
Proof.
  intros H. unfold parseOutcome.
  rewrite stripFences_fenced.
  unfold stripFences at 1. rewrite H, matchObject_trim. reflexivity.
Qed.

Lemma fenced_response_parses_alike_witness :
  startsWith (trim (json "{'decision': 'SKIP', 'reason': 'Test', 'confidence': 0.5}")) fence
  = false
  /\ parseOutcome (fenced true (json "{'decision': 'SKIP', 'reason': 'Test', 'confidence': 0.5}"))
     = parseOutcome (json "{'decision': 'SKIP', 'reason': 'Test', 'confidence': 0.5}").
Proof.
  split; [reflexivity|].
  apply fenced_response_parses_alike. reflexivity.
Defined.

(** ** The translation tables *)



(** ** The duplicate check *)

Section Duplicates.

Variable W : Type.
Variable env : forall X : Type, Op X -> W -> Result X * W.



End Duplicates.


(** ** Publication of the relationships *)

(** X5. The publication of the relationships of an approved item never
    fails: a relationship that cannot be published is logged and passed
    over, and the publication of every identifier is attempted, in order. *)
Theorem every_relationship_publication_is_attempted (W : Type)
    (env : forall X : Type, Op X -> W -> Result X * W) (ids : list (list N)) (w : W) :
  exists w' t,
    run env (publishRelationships ids) w = (Ok tt, w', t) /\ publishedIds t = ids.
Proof.
  revert w. induction ids as [|relId rest IH]; intros w; cbn [publishRelationships].
  - exists w, []. split; reflexivity.
  - rewrite run_bind, run_catch, run_call.
    destruct (env _ (PublishRelationship relId) w) as [[[]|e] w1]; cbn [fst snd].
    + destruct (IH w1) as (w' & t & Hr & Ht). rewrite Hr.
      do 2 eexists. split; [reflexivity|]. simpl. now rewrite Ht.
    + rewrite run_log. cbv beta iota zeta.
      destruct (IH w1) as (w' & t & Hr & Ht). rewrite Hr.
      do 2 eexists. split; [reflexivity|]. simpl. now rewrite Ht.
Qed.

(** ** Entity references by index *)

Lemma Qred_integer (i : Z) : Qred (i # 1) = i # 1.
Proof.
  unfold Qred.
  pose proof (Z.ggcd_gcd i 1) as Hg. pose proof (Z.ggcd_correct_divisors i 1) as Hd.
  destruct (Z.ggcd i 1) as [g [aa bb]]. simpl in *.
  rewrite Z.gcd_1_r in Hg. subst g. destruct Hd as [Ha Hb].
  rewrite Z.mul_1_l in Ha, Hb. subst. reflexivity.
Qed.

Lemma index_in_range (i : Z) (n : nat) :
  num_ge (Fin (i # 1)) zero && num_lt (Fin (i # 1)) (Fin (Z.of_nat n # 1))
  = ((0 <=? i) && (i <? Z.of_nat n))%Z.
Proof.
  unfold num_ge, num_lt, zero, Qltb, Qle_bool. cbn [Qnum Qden].
  rewrite negb_involutive, !Z.mul_1_r. cbn [Z.mul].
  now rewrite (Z.ltb_antisym (Z.of_nat n) i).
Qed.

Section ByIndex.

Variable W : Type.
Variable env : forall X : Type, Op X -> W -> Result X * W.

Lemma resolveRef_byIndex (dry : bool) (matched : list Entity) (resolved : list JSVal)
    (i : Z) (w : W) :
  exists t,
    run env (resolveRef dry matched resolved (byIndex i)) w
    = (Ok (resolved ++ resolvedByIndex matched i), w, t)
    /\ kinds t = [].
Proof.
  assert (Hh : hasProp (str "matchedIndex") (byIndex i) = Some true) by reflexivity.
  assert (Hf : field (byIndex i) "matchedIndex" = VNum (Fin (i # 1))) by reflexivity.
  unfold resolveRef. rewrite Hh, Hf.
  change (toNumber (VNum (Fin (i # 1)))) with (Some (Fin (i # 1))).
  cbv beta iota. rewrite index_in_range. unfold resolvedByIndex.
  destruct ((0 <=? i) && (i <? Z.of_nat (List.length matched)))%Z eqn:E.
  - apply andb_true_iff in E as [E0 E1].
    unfold propertyKeyPrim. rewrite Qred_integer. cbn [Qnum Qden].
    rewrite E0. cbn [Z.eqb Pos.eqb andb]. rewrite Z_N_nat.
    destruct (nth_error matched (Z.to_nat i)) as [e|] eqn:En.
    + eexists. split; reflexivity.
    + apply nth_error_None in En. apply Z.ltb_lt in E1. apply Z.leb_le in E0. lia.
  - eexists. split; [rewrite app_nil_r; reflexivity|reflexivity].
Qed.

Lemma resolveLoop_byIndex (dry : bool) (matched : list Entity) (idxs : list Z)
    (resolved : list JSVal) (w : W) :
  exists t,
    run env (resolveLoop dry matched (map byIndex idxs) resolved) w
    = (Ok (resolved ++ flat_map (resolvedByIndex matched) idxs), w, t)
    /\ kinds t = [].
Proof.
  revert resolved. induction idxs as [|i rest IH]; intros resolved; cbn [map resolveLoop].
  - exists []. simpl. now rewrite app_nil_r.
  - destruct (resolveRef_byIndex dry matched resolved i w) as (t1 & H1 & K1).
    destruct (IH (resolved ++ resolvedByIndex matched i)) as (t2 & H2 & K2).
    exists (t1 ++ t2). split.
    + erewrite run_bind_ok; [|exact H1]. rewrite H2. cbn [flat_map].
      now rewrite app_assoc.
    + clear -K1 K2. induction t1 as [|[X o r|l] t1 IHt]; simpl in *; try discriminate; auto.
Qed.

End ByIndex.

(** X6. Entity references by index resolve without any service call, to
    the identifiers of the matched entities at these indices, in the order
    of the references; an index out of range contributes nothing. *)
Theorem references_by_index_resolve_in_order (W : Type)
    (env : forall X : Type, Op X -> W -> Result X * W)
    (dry : bool) (matched : list Entity) (idxs : list Z) (w : W) :
  exists t,
    run env (resolveEntities dry matched (VArr (map byIndex idxs))) w
    = (Ok (flat_map (resolvedByIndex matched) idxs), w, t)
    /\ kinds t = [].
Proof.
  unfold resolveEntities. cbn [iterate].
  apply (resolveLoop_byIndex env dry matched idxs [] w).
Qed.

(** ** The matched entities *)

Lemma matchLoop_distinct (suggestions : list SuggestedEntity) (matched : list Entity)
    (seen : list (list N)) :
  NoDup (map entityId matched) ->
  (forall e, In e matched -> In (entityId e) seen) ->
  Leaves (fun l => NoDup (map entityId l)
                   /\ (List.length l <= List.length matched + List.length suggestions)%nat)
         (matchLoop suggestions matched seen).
Proof.
  revert matched seen.
  induction suggestions as [|s rest IH]; intros matched seen Hnd Hseen; cbn [matchLoop].
  - constructor. split; [exact Hnd|lia].
  - eapply leaves_bind; [apply (@leaves_any _ (fun _ => True)); auto|]. intros byId _.
    eapply leaves_bind; [apply (@leaves_any _ (fun _ => True)); auto|]. intros entity _.
    assert (Hskip : Leaves (fun l => NoDup (map entityId l)
                              /\ (List.length l
                                  <= List.length matched + List.length (s :: rest))%nat)
                      (matchLoop rest matched seen)).
    { eapply leaves_weaken; [apply IH; assumption|].
      intros l [H1 H2]. split; [exact H1|]. cbn [List.length]. lia. }
    destruct entity as [e|]; [|exact Hskip].
    destruct (existsb (str_eqb (entityId e)) seen) eqn:E; [exact Hskip|].
    eapply leaves_weaken.
    + apply IH.
      * rewrite map_app. simpl.
        apply NoDup_app; [exact Hnd|repeat constructor; auto|].
        intros x Hx [Hy|[]]. subst x.
        apply in_map_iff in Hx as (e' & He' & Hin).
        assert (Hs : existsb (str_eqb (entityId e)) seen = true).
        { apply existsb_exists. exists (entityId e'). split; [now apply Hseen|].
          rewrite He'. apply str_eqb_refl. }
        congruence.
      * intros e' Hin. apply in_app_or in Hin as [Hin|[<-|[]]].
        -- right. now apply Hseen.
        -- now left.
    + intros l [H1 H2]. split; [exact H1|].
      rewrite length_app in H2. cbn [List.length] in *. lia.
Qed.

(** X7. The entities that getMatchedEntities returns have pairwise
    distinct identifiers, and there are no more of them than suggestions. *)
Theorem matched_entities_are_distinct (W : Type)
    (env : forall X : Type, Op X -> W -> Result X * W)
    (suggestions : list SuggestedEntity) (w w' : W) (l : list Entity) (t : Trace) :
  run env (getMatchedEntities suggestions) w = (Ok l, w', t) ->
  NoDup (map entityId l) /\ (List.length l <= List.length suggestions)%nat.
Proof.
  intros H.
  assert (HL := @matchLoop_distinct suggestions [] [] (NoDup_nil _)
                  (fun e (F : In e []) => match F with end)).
  apply (leaves_sound env HL _ H).
Qed.

Lemma matched_entities_are_distinct_witness :
  exists w' l t,
    run Mem.env (getMatchedEntities [acmeSuggestion; staleSuggestion]) entityLedger
    = (Ok l, w', t)
    /\ l = [acmeCorp]
    /\ NoDup (map entityId l) /\ (List.length l <= 2)%nat.
Proof.
  do 3 eexists. split; [reflexivity|]. split; [reflexivity|].
  eapply (@matched_entities_are_distinct World Mem.env [acmeSuggestion; staleSuggestion]
            entityLedger).
  reflexivity.
Defined.

(** X8. getMatchedEntities tolerates every failure of the lookup by
    identifier: as long as the lookup by name answers, it returns a list
    of entities, whatever getEntity does. *)
Theorem stale_matches_do_not_fail (W : Type)
    (env : forall X : Type, Op X -> W -> Result X * W)
    (suggestions : list SuggestedEntity) (w : W) :
  (forall nm w0, exists r w1, env _ (FindEntityByName nm) w0 = (Ok r, w1)) ->
  exists l w' t, run env (getMatchedEntities suggestions) w = (Ok l, w', t).
Proof.
  intros Hfind. unfold getMatchedEntities. generalize (@nil Entity) (@nil (list N)).
  revert w. induction suggestions as [|s rest IH]; intros w matched seen; cbn [matchLoop].
  - do 3 eexists. reflexivity.
  - rewrite run_bind.
    assert (Hid : exists byId w1 t1,
               run env (match matchedEntityId s with
                        | Some (c :: id) =>
                            catch (call (GetEntity (VStr (c :: id)))) (fun _ => Ret None)
                        | _ => Ret None
                        end) w = (Ok byId, w1, t1)).
    { destruct (matchedEntityId s) as [[|c id]|]; try (do 3 eexists; reflexivity).
      rewrite run_catch, run_call.
      destruct (env _ (GetEntity (VStr (c :: id))) w) as [[x|e] w1];
        do 3 eexists; reflexivity. }
    destruct Hid as (byId & w1 & t1 & ->).
    rewrite run_bind.
    assert (Hent : exists entity w2 t2,
               run env (match byId, extractedName s with
                        | None, c :: nm => call (FindEntityByName (VStr (c :: nm)))
                        | _, _ => Ret byId
                        end) w1 = (Ok entity, w2, t2)).
    { destruct byId as [e|]; [do 3 eexists; reflexivity|].
      destruct (extractedName s) as [|c nm]; [do 3 eexists; reflexivity|].
      destruct (Hfind (VStr (c :: nm)) w1) as (r & w2 & Hr).
      do 3 eexists. apply run_call_ok. exact Hr. }
    destruct Hent as (entity & w2 & t2 & ->).
    destruct entity as [e|].
    + destruct (existsb (str_eqb (entityId e)) seen).
      * destruct (IH w2 matched seen) as (l & w' & t & ->). do 3 eexists. reflexivity.
      * destruct (IH w2 (matched ++ [e]) (entityId e :: seen)) as (l & w' & t & ->).
        do 3 eexists. reflexivity.
    + destruct (IH w2 matched seen) as (l & w' & t & ->). do 3 eexists. reflexivity.
Qed.

Lemma stale_matches_do_not_fail_witness :
  (forall nm w0, exists r w1, healthy (FindEntityByName nm) w0 = (Ok r, w1))
  /\ getEntity entityLedger (VStr (str "ent_gone")) = Err (str "Entity not found")
  /\ exists l w' t,
       run healthy (getMatchedEntities [staleSuggestion]) entityLedger = (Ok l, w', t).
Proof.
  assert (H : forall nm w0, exists r w1, healthy (FindEntityByName nm) w0 = (Ok r, w1)).
  { intros nm w0. do 2 eexists. reflexivity. }
  split; [exact H|]. split; [reflexivity|].
  exact (@stale_matches_do_not_fail World healthy [staleSuggestion] entityLedger H).
Defined.

(** ** The eligible items *)

Lemma in_firstn (A : Type) (n : nat) (xs : list A) (x : A) :
  In x (firstn n xs) -> In x xs.
Proof.
  revert xs. induction n as [|n IH]; intros [|y xs]; simpl; try contradiction.
  intros [->|H]; [now left|right; now apply IH].
Qed.

Lemma sliceTo_incl (A : Type) (limit : option Z) (xs : list A) (x : A) :
  In x (sliceTo limit xs) -> In x xs.
Proof.
  unfold sliceTo. destruct limit as [z|]; [|contradiction].
  destruct (z <? 0)%Z; apply in_firstn.
Qed.

(** X9. getEligibleItems makes one query and nothing else; it returns at
    most limit items when limit is not negative, no item when limit is
    NaN, and only items with a summary and a suggested entity of
    confidence 0.5 or more. *)
Theorem eligible_items_are_bounded_and_usable (W : Type)
    (env : forall X : Type, Op X -> W -> Result X * W)
    (limit : option Z) (w w' : W) (items : list IntakeItem) (t : Trace) :
  run env (getEligibleItems limit) w = (Ok items, w', t) ->
  (forall n, limit = Some n -> (0 <= n)%Z -> (Z.of_nat (List.length items) <= n)%Z)
  /\ (limit = None -> items = [])
  /\ Forall usable items
  /\ kinds t = [KQueryItems].
Proof.
  unfold getEligibleItems. rewrite run_bind, run_call.
  destruct (env _ (QueryItems (option_map (fun z => (z * 2)%Z) limit)) w) as [[rows|e] w1];
    cbn [fst snd]; [|discriminate].
  cbn [run]. intros H. inversion H; subst; clear H.
  split; [|split; [|split]].
  - intros n -> Hn. rewrite length_map. unfold sliceTo.
    destruct (n <? 0)%Z eqn:E; [apply Z.ltb_lt in E; lia|].
    pose proof (firstn_le_length (Z.to_nat n) (filter eligible rows)).
    rewrite length_firstn. lia.
  - intros ->. reflexivity.
  - apply Forall_forall. intros item Hin.
    apply in_map_iff in Hin as (row & <- & Hin).
    apply sliceTo_incl, filter_In in Hin as [_ He].
    unfold eligible in He. apply andb_true_iff in He as [Hs Hc].
    split; [exact Hs|].
    apply existsb_exists in Hc as (e & Hin & Hc). exists e. split; assumption.
  - reflexivity.
Qed.

Lemma eligible_items_are_bounded_and_usable_witness :
  exists w' items t,
    run Mem.env (getEligibleItems (Some 20%Z)) proseRun = (Ok items, w', t)
    /\ items = [flagged]
    /\ (forall n, Some 20%Z = Some n -> (0 <= n)%Z -> (Z.of_nat (List.length items) <= n)%Z)
    /\ (Some 20%Z = None -> items = [])
    /\ Forall usable items
    /\ kinds t = [KQueryItems].
Proof.
  do 3 eexists. split; [reflexivity|]. split; [reflexivity|].
  eapply (@eligible_items_are_bounded_and_usable World Mem.env (Some 20%Z) proseRun).
  reflexivity.
Defined.

(** ** The prompt template *)

(** X10. Once loadEditorPrompt has returned the template, a second call
    returns the same template from the cache, without reading the bucket
    again. *)
Theorem prompt_is_loaded_once (cfg : Config) (w w1 : World) (template : list N)
    (tr : Trace) :
  run Mem.env (loadEditorPrompt cfg) w = (Ok template, w1, tr) ->
  run Mem.env (loadEditorPrompt cfg) w1
  = (Ok template, w1, [ECall CacheGet (Ok (Some template))]).
Proof.
  unfold loadEditorPrompt. rewrite !run_bind, !run_call.
  unfold Mem.env at 1 2 3. destruct (wFails w CacheGet) eqn:Fg; cbn [fst snd answer].
  - discriminate.
  - destruct (wCache w) as [[|c t]|] eqn:Ec.
    + (* an empty cached template counts as none *)
      destruct (promptTemplateBucket cfg) as [|b bucket]; [discriminate|].
      rewrite run_bind, run_log. cbv beta iota zeta.
      rewrite run_bind, run_call. unfold Mem.env at 1 2 3.
      destruct (wFails w (S3GetObject (b :: bucket) (promptTemplateKey cfg)));
        cbn [fst snd answer]; [discriminate|].
      destruct (wTemplate w) as [[|c t]|]; try discriminate.
      rewrite run_bind, run_call. unfold Mem.env at 1 2 3.
      destruct (wFails w (CacheSet (c :: t))); cbn [fst snd answer]; [discriminate|].
      rewrite run_bind, run_log. cbn [run]. intros H. inversion H; subst; clear H.
      unfold Mem.env. cbn [wFails setCache wCache]. rewrite Fg. reflexivity.
    + cbn [run]. intros H. inversion H; subst; clear H.
      unfold Mem.env. rewrite Fg. cbn [fst snd answer]. rewrite Ec. reflexivity.
    + destruct (promptTemplateBucket cfg) as [|b bucket]; [discriminate|].
      rewrite run_bind, run_log. cbv beta iota zeta.
      rewrite run_bind, run_call. unfold Mem.env at 1 2 3.
      destruct (wFails w (S3GetObject (b :: bucket) (promptTemplateKey cfg)));
        cbn [fst snd answer]; [discriminate|].
      destruct (wTemplate w) as [[|c t]|]; try discriminate.
      rewrite run_bind, run_call. unfold Mem.env at 1 2 3.
      destruct (wFails w (CacheSet (c :: t))); cbn [fst snd answer]; [discriminate|].
      rewrite run_bind, run_log. cbn [run]. intros H. inversion H; subst; clear H.
      unfold Mem.env. cbn [wFails setCache wCache]. rewrite Fg. reflexivity.
Qed.

Lemma prompt_is_loaded_once_witness :
  exists w1 tr,
    run Mem.env (loadEditorPrompt (defaultConfig false)) emptyLedger
    = (Ok (str "Review {{TITLE}}"), w1, tr)
    /\ kinds tr = [KCacheGet; KS3GetObject; KCacheSet]
    /\ run Mem.env (loadEditorPrompt (defaultConfig false)) w1
       = (Ok (str "Review {{TITLE}}"), w1,
          [ECall CacheGet (Ok (Some (str "Review {{TITLE}}")))]).
Proof.
  do 2 eexists. split; [reflexivity|]. split; [reflexivity|].
  eapply (@prompt_is_loaded_once (defaultConfig false) emptyLedger).
  reflexivity.
Defined.

(** ** A run that is switched off, and a run without its prompt *)

Section Runs.

Variable W : Type.
Variable env : forall X : Type, Op X -> W -> Result X * W.
Variable cfg : Config.
Variable plat : Platform.

(** X11. A run of the editor that is switched off asks for a run
    identifier and for the time only; the summary it returns reports no
    item at all, and carries the dry-run setting of the configuration. *)
Theorem disabled_editor_touches_nothing (w w' : W) (r : Result EditorRunSummary)
    (t : Trace) :
  enabled cfg = false ->
  run env (runEditor cfg plat) w = (r, w', t) ->
  forallb clockOnly (kinds t) = true
  /\ forall s, r = Ok s -> emptySummary s /\ sDryRun s = dryRun cfg.
Proof.
  intros Hen. unfold runEditor. rewrite Hen. cbn [negb].
  rewrite run_bind, run_call.
  destruct (@env _ Ulid w) as [[rid|e] w1]; cbn [fst snd].
  2:{ intros H. inversion H; subst. split; [reflexivity|discriminate]. }
  rewrite run_bind, run_call.
  destruct (@env _ Now w1) as [[started|e] w2]; cbn [fst snd].
  2:{ intros H. inversion H; subst. split; [reflexivity|discriminate]. }
  rewrite run_bind, run_log. cbv beta iota zeta.
  rewrite run_bind, run_log. cbv beta iota zeta.
  rewrite run_bind, run_call.
  destruct (@env _ Now w2) as [[completed|e] w3]; cbn [fst snd].
  2:{ intros H. inversion H; subst. split; [reflexivity|discriminate]. }
  cbn [run]. intros H. inversion H; subst. split; [reflexivity|].
  intros s Hs. inversion Hs; subst. repeat split.
Qed.

(** X12. When the editor is enabled, the prompt is not cached and no
    prompt bucket is configured, the handler fails with the error of
    loadEditorPrompt, rethrown as it is, before any item is queried. *)
Theorem run_without_prompt_bucket_fails_at_once (w : W) (rid started : list N) (w1 w2 w3 : W) :
  enabled cfg = true ->
  promptTemplateBucket cfg = [] ->
  @env _ Ulid w = (Ok rid, w1) ->
  @env _ Now w1 = (Ok started, w2) ->
  @env _ CacheGet w2 = (Ok None, w3) ->
  exists t,
    run env (handler cfg plat) w
    = (Err (str "EXTRACTION_PROMPT_BUCKET environment variable is not set"), w3, t)
    /\ kinds t = [KUlid; KNow; KCacheGet].
Proof.
  intros Hen Hb Hu Hn Hc. unfold handler.
  erewrite run_bind_ok; [|apply run_log].
  rewrite run_catch, run_bind. unfold runEditor. rewrite Hen. cbn [negb].
  erewrite run_bind_ok; [|apply run_call_ok; exact Hu].
  erewrite run_bind_ok; [|apply run_call_ok; exact Hn].
  erewrite run_bind_ok; [|apply run_log].
  rewrite run_bind. unfold loadEditorPrompt.
  erewrite run_bind_ok; [|apply run_call_ok; exact Hc].
  rewrite Hb. cbn [run]. eexists. split; reflexivity.
Qed.

End Runs.

Lemma disabled_editor_touches_nothing_witness :
  exists r w' t,
    enabled disabledConfig = false
    /\ run Mem.env (runEditor disabledConfig platform) emptyLedger = (r, w', t)
    /\ forallb clockOnly (kinds t) = true
    /\ forall s, r = Ok s -> emptySummary s /\ sDryRun s = dryRun disabledConfig.
Proof.
  do 3 eexists. split; [reflexivity|]. split; [reflexivity|].
  eapply (@disabled_editor_touches_nothing World Mem.env disabledConfig platform emptyLedger);
    reflexivity.
Defined.

Lemma run_without_prompt_bucket_fails_at_once_witness :
  exists t,
    run Mem.env (handler noBucketConfig platform) emptyLedger
    = (Err (str "EXTRACTION_PROMPT_BUCKET environment variable is not set"),
       tick emptyLedger, t)
    /\ kinds t = [KUlid; KNow; KCacheGet].
Proof.
  eapply (@run_without_prompt_bucket_fails_at_once World Mem.env noBucketConfig platform
            emptyLedger); reflexivity.
Defined.

(** ** The annotation of an intake item *)

(** X13. A successful updateIntakeEditorStatus reads the time, finds the
    item by a scan and writes one row: the row keeps the key and the
    identifier of the item, records the decision, and no longer matches
    the query of getEligibleItems. On APPROVED the item becomes PROMOTED
    with the card and source given; otherwise status and promotion fields
    stay as they were. *)
Theorem annotation_keeps_the_item_and_retires_it (W : Type)
    (env : forall X : Type, Op X -> W -> Result X * W)
    (id : list N) (es : EditorStatus) (d : EditorDecision) (card source : option (list N))
    (w w' : W) (t : Trace) :
  run env (updateIntakeEditorStatus id es d card source) w = (Ok tt, w', t) ->
  exists now existing rest row,
    t = [ECall Now (Ok now); ECall (ScanItems id 100) (Ok (existing :: rest));
         ECall (PutItem row) (Ok tt)]
    /\ row = updatedRow existing es d card source now
    /\ PK row = PK existing /\ SK row = SK existing
    /\ intakeId (rowItem row) = intakeId (rowItem existing)
    /\ editorStatus (rowItem row) = Some es
    /\ editorDecision (rowItem row) = Some d
    /\ awaitsEditor row = false
    /\ match es with
       | APPROVED =>
           status (rowItem row) = PROMOTED
           /\ promotedCardId (rowItem row) = card
           /\ promotedSourceId (rowItem row) = source
           /\ GSI1PK row = str "STATUS#PROMOTED"
       | _ =>
           status (rowItem row) = status (rowItem existing)
           /\ promotedCardId (rowItem row) = promotedCardId (rowItem existing)
           /\ promotedSourceId (rowItem row) = promotedSourceId (rowItem existing)
       end.
Proof.
  unfold updateIntakeEditorStatus. rewrite run_bind, run_call.
  destruct (env _ Now w) as [[now|e] w1]; cbn [fst snd]; [|discriminate].
  rewrite run_bind, run_call.
  destruct (env _ (ScanItems id 100) w1) as [[[|existing rest]|e] w2]; cbn [fst snd];
    try discriminate.
  rewrite run_call.
  destruct (env _ (PutItem (updatedRow existing es d card source now)) w2)
    as [[[]|e] w3] eqn:Ep; cbn [fst snd]; [|discriminate].
  intros H. inversion H; subst; clear H.
  exists now, existing, rest, (updatedRow existing es d card source now).
  split; [reflexivity|]. split; [reflexivity|].
  repeat (split; [reflexivity|]).
  split.
  - unfold awaitsEditor, updatedRow. cbn [rowItem editorStatus extractionStatus GSI1PK].
    now rewrite andb_false_r.
  - destruct es; repeat split.
Qed.

Lemma annotation_keeps_the_item_and_retires_it_witness :
  exists w' t,
    run Mem.env (updateIntakeEditorStatus (str "item1") SKIPPED skipRecord None None)
      emptyLedger = (Ok tt, w', t)
    /\ map awaitsEditor (wIntake emptyLedger) = [true]
    /\ map awaitsEditor (wIntake w') = [false]
    /\ exists now existing rest row,
         t = [ECall Now (Ok now); ECall (ScanItems (str "item1") 100) (Ok (existing :: rest));
              ECall (PutItem row) (Ok tt)]
         /\ row = updatedRow existing SKIPPED skipRecord None None now
         /\ PK row = PK existing /\ SK row = SK existing
         /\ intakeId (rowItem row) = intakeId (rowItem existing)
         /\ editorStatus (rowItem row) = Some SKIPPED
         /\ editorDecision (rowItem row) = Some skipRecord
         /\ awaitsEditor row = false
         /\ status (rowItem row) = status (rowItem existing)
         /\ promotedCardId (rowItem row) = promotedCardId (rowItem existing)
         /\ promotedSourceId (rowItem row) = promotedSourceId (rowItem existing).
Proof.
  do 2 eexists. split; [reflexivity|]. split; [reflexivity|]. split; [reflexivity|].
  eapply (@annotation_keeps_the_item_and_retires_it World Mem.env (str "item1") SKIPPED
            skipRecord None None emptyLedger).
  reflexivity.
Defined.

(** X14. When the scan finds no item with the identifier,
    updateIntakeEditorStatus fails with the message Intake item <id> not
    found, and writes nothing. *)
Theorem annotation_of_a_missing_item_fails (W : Type)
    (env : forall X : Type, Op X -> W -> Result X * W)
    (id : list N) (es : EditorStatus) (d : EditorDecision) (card source : option (list N))
    (w w1 w2 : W) (now : list N) :
  env _ Now w = (Ok now, w1) ->
  env _ (ScanItems id 100) w1 = (Ok [], w2) ->
  run env (updateIntakeEditorStatus id es d card source) w
  = (Err (str "Intake item " ++ id ++ str " not found"), w2,
     [ECall Now (Ok now); ECall (ScanItems id 100) (Ok [])]).
Proof.
  intros Hn Hs. unfold updateIntakeEditorStatus.
  erewrite run_bind_ok; [|apply run_call_ok; exact Hn].
  erewrite run_bind_ok; [|apply run_call_ok; exact Hs].
  reflexivity.
Qed.

Lemma annotation_of_a_missing_item_fails_witness :
  run Mem.env (updateIntakeEditorStatus (str "item0") SKIPPED skipRecord None None)
    emptyLedger
  = (Err (str "Intake item item0 not found"), tick emptyLedger,
     [ECall Now (Ok (str "t0")); ECall (ScanItems (str "item0") 100) (Ok [])]).
Proof.
  apply (@annotation_of_a_missing_item_fails World Mem.env (str "item0") SKIPPED skipRecord
           None None emptyLedger (tick emptyLedger) (tick emptyLedger) (str "t0"));
    reflexivity.
Defined.

(** ** Relationships that cannot be created *)

Section Absorb.

Variable W : Type.
Variable env : forall X : Type, Op X -> W -> Result X * W.
Variable plat : Platform.

Lemma createRel_numeric (resolved : list JSVal) (src : list N) (spec : JSVal) (w : W) :
  numericSpec spec ->
  exists made w' t, run env (createRel plat resolved src spec) w = (Ok made, w', t).
Proof.
  intros (m & a & b & -> & Ha & Hb). unfold createRel.
  assert (Hg : getProp (VObj m) (str "fromEntityIndex") = Some (VNum a)).
  { unfold field in Ha. destruct (getProp (VObj m) (str "fromEntityIndex")) eqn:E;
      [now subst|discriminate]. }
  rewrite Hg, Hb.
  assert (Hk : forall n, exists v, arrayGet plat resolved (VNum n) = Some v).
  { intros n. unfold arrayGet, propertyKey. cbn [toPrimitiveThrows].
    destruct (propertyKeyPrim (VNum n)); eexists; reflexivity. }
  destruct (Hk a) as [fromId ->]. destruct (Hk b) as [toId ->].
  destruct (truthy fromId && truthy toId); [|do 3 eexists; reflexivity].
  rewrite run_catch.
  destruct (relTypeOf (field (VObj m) "type")) as [relType|].
  - rewrite run_bind, run_call.
    match goal with |- context [env ?o w] => destruct (env o w) as [[rel|e] w1] end;
      cbn [fst snd]; do 3 eexists; reflexivity.
  - do 3 eexists. reflexivity.
Qed.

Lemma createRelLoop_numeric (resolved : list JSVal) (src : list N) (specs : list JSVal)
    (ids : list (list N)) (w : W) :
  Forall numericSpec specs ->
  exists out w' t,
    run env (createRelLoop plat resolved src specs ids) w = (Ok out, w', t)
    /\ (List.length out <= List.length ids + List.length specs)%nat.
Proof.
  intros H. revert ids w. induction H as [|spec specs Hs _ IH]; intros ids w;
    cbn [createRelLoop].
  - do 3 eexists. split; [reflexivity|]. simpl. lia.
  - destruct (createRel_numeric resolved src w Hs) as (made & w1 & t1 & H1).
    erewrite run_bind_ok; [|exact H1].
    destruct (IH (match made with Some id => ids ++ [id] | None => ids end) w1)
      as (out & w' & t & -> & Hlen).
    do 3 eexists. split; [reflexivity|].
    destruct made; [rewrite length_app in Hlen|]; cbn [List.length] in *; lia.
Qed.

End Absorb.

(** X15. The creation of the relationships of an item never fails when the
    entity indices of the LLM are numbers: a relationship that cannot be
    created is logged and left out, so that at most one identifier per
    suggested relationship is returned. *)
Theorem relationship_failures_are_absorbed (W : Type)
    (env : forall X : Type, Op X -> W -> Result X * W) (plat : Platform)
    (resolved : list JSVal) (src : list N) (specs : list JSVal) (w : W) :
  Forall numericSpec specs ->
  exists ids w' t,
    run env (createRelationships plat resolved src (VArr specs)) w = (Ok ids, w', t)
    /\ (List.length ids <= List.length specs)%nat.
Proof.
  intros H. unfold createRelationships. cbn [iterate].
  apply (createRelLoop_numeric env plat resolved src [] w H).
Qed.

Lemma relationship_failures_are_absorbed_witness :
  Forall numericSpec [finedBy; finedBy]
  /\ exists ids w' t,
       run Mem.env (createRelationships platform [VStr (str "ent_1"); VStr (str "ent_9")]
                      (str "src_2") (VArr [finedBy; finedBy])) entityLedger
       = (Ok ids, w', t)
       /\ (List.length ids <= 2)%nat.
Proof.
  assert (H : Forall numericSpec [finedBy; finedBy]).
  { repeat constructor; do 3 eexists; repeat split; reflexivity. }
  split; [exact H|].
  exact (@relationship_failures_are_absorbed World Mem.env platform
           [VStr (str "ent_1"); VStr (str "ent_9")] (str "src_2") [finedBy; finedBy]
           entityLedger H).
Defined.

(** ** The results of a run *)

Section Results.

Variable cfg : Config.
Variable plat : Platform.

Lemma processItem_names_its_item (item : IntakeItem) (template rid : list N) (dry : bool) :
  Leaves (fun res => rIntakeId res = intakeId item)
         (processItem cfg plat item template rid dry).
Proof.
  unfold processItem, attempt, afterParse, afterResolve, publish.
  repeat leaves_step.
Qed.

Lemma processAll_in_order (items : list IntakeItem) (template rid : list N) (dry : bool)
    (acc : list EditorItemResult) (pub skp errs : N) :
  Leaves (fun out =>
            map rIntakeId (fst (fst (fst out))) = map rIntakeId acc ++ map intakeId items)
         (processAll cfg plat items template rid dry acc pub skp errs).
Proof.
  revert acc pub skp errs.
  induction items as [|item rest IH]; intros acc pub skp errs; cbn [processAll].
  - constructor. simpl. now rewrite app_nil_r.
  - eapply leaves_bind; [apply processItem_names_its_item|]. intros result Hres.
    eapply leaves_bind; [apply (@leaves_any _ (fun _ => True)); auto|]. intros _ _.
    eapply leaves_weaken; [apply IH|].
    intros out Hout. rewrite Hout, map_app. cbn [map]. rewrite Hres, <- app_assoc.
    reflexivity.
Qed.

Lemma tally_partition (rs : list EditorItemResult) :
  tally R_PUBLISH rs + tally R_SKIP rs + tally R_ERROR rs = N.of_nat (List.length rs).
Proof.
  induction rs as [|r rs IH]; cbn [tally List.length]; [reflexivity|].
  rewrite Nat2N.inj_succ, <- IH. unfold count. destruct (rDecision r); lia.
Qed.

End Results.

(** X16. The results of an enabled run are those of the eligible items of
    the one query, cut to the first maxItemsPerRun, one result per item
    and in the order of the query. *)
Theorem results_follow_the_items (W : Type)
    (env : forall X : Type, Op X -> W -> Result X * W) (cfg : Config) (plat : Platform)
    (w w' : W) (s : EditorRunSummary) (t : Trace) :
  enabled cfg = true ->
  run env (runEditor cfg plat) w = (Ok s, w', t) ->
  exists rows,
    In (ECall (QueryItems (option_map (fun z => (z * 2)%Z) (maxItemsPerRun cfg))) (Ok rows)) t
    /\ map rIntakeId (results s)
       = map (fun row => intakeId (rowItem row))
             (sliceTo (maxItemsPerRun cfg) (filter eligible rows)).
Proof.
  intros Hen. unfold runEditor. rewrite Hen. cbn [negb].
  rewrite run_bind, run_call.
  destruct (env _ Ulid w) as [[rid|e] w1]; cbn [fst snd]; [|discriminate].
  rewrite run_bind, run_call.
  destruct (env _ Now w1) as [[started|e] w2]; cbn [fst snd]; [|discriminate].
  rewrite run_bind, run_log. cbv beta iota zeta.
  rewrite run_bind.
  destruct (run env (loadEditorPrompt cfg) w2) as [[[template|e] w3] t3]; [|discriminate].
  rewrite run_bind. unfold getEligibleItems at 1. rewrite run_bind, run_call.
  destruct (env _ (QueryItems (option_map (fun z => (z * 2)%Z) (maxItemsPerRun cfg))) w3)
    as [[rows|e] w4]; cbn [fst snd]; [|discriminate].
  cbn [run]. rewrite run_bind, run_log. cbv beta iota zeta.
  rewrite run_bind.
  set (items := map rowItem (sliceTo (maxItemsPerRun cfg) (filter eligible rows))).
  pose proof (@processAll_in_order cfg plat items template rid (dryRun cfg) [] 0 0 0) as HL.
  destruct (run env (processAll cfg plat items template rid (dryRun cfg) [] 0 0 0) w4)
    as [[[out|e] w5] t5] eqn:Ep; [|discriminate].
  apply (leaves_sound env HL) in Ep.
  destruct out as [[[res pub] skp] errs]. cbn [fst] in Ep.
  rewrite run_bind, run_call.
  destruct (env _ Now w5) as [[completed|e] w6]; cbn [fst snd]; [|discriminate].
  rewrite run_bind, run_log. cbn [run].
  intros H. inversion H; subst; clear H. cbn [results].
  exists rows. split.
  - simpl. right. right. right. apply in_or_app. right. simpl. now left.
  - rewrite Ep. unfold items. simpl. now rewrite map_map.
Qed.

(** X17. In the summary of a run, processed is the number of results, and
    it is the sum of published, skipped and errors. *)
Theorem summary_counters_add_up (W : Type)
    (env : forall X : Type, Op X -> W -> Result X * W) (cfg : Config) (plat : Platform)
    (w w' : W) (s : EditorRunSummary) (t : Trace) :
  run env (runEditor cfg plat) w = (Ok s, w', t) ->
  processed s = published s + skipped s + errors s
  /\ processed s = N.of_nat (List.length (results s)).
Proof.
  intros H.
  destruct (leaves_sound env (runEditor_leaves cfg plat) _ H) as (Hp & Hpub & Hskp & Herr).
  split; [|exact Hp].
  rewrite Hp, Hpub, Hskp, Herr. symmetry. apply tally_partition.
Qed.

(** * The LLM transport *)

Section Exec.

Variable O : Type -> Type.
Variable E : Type.
Variable S : Type.
Variable env : forall X : Type, O X -> S -> Outcome E X * S.

Lemma exec_andThen (A B : Type) (p : M O E A) (f : A -> M O E B) (s : S) :
  exec env (andThen p f) s =
  match exec env p s with
  | (Done a, s1, t1) => let '(r, s2, t2) := exec env (f a) s1 in (r, s2, t1 ++ t2)
  | (Thrown e, s1, t1) => (Thrown e, s1, t1)
  end.
Proof.
  revert s. induction p as [a|e|l k IH|X o k IH]; intros s; simpl.
  - now destruct (exec env (f a) s) as [[r s2] t2].
  - reflexivity.
  - rewrite IH. destruct (exec env k s) as [[[a|e] s1] t1]; [|reflexivity].
    now destruct (exec env (f a) s1) as [[r s2] t2].
  - destruct (env o s) as [x s1]. rewrite IH.
    destruct (exec env (k x) s1) as [[[a|e] s2] t1]; [|reflexivity].
    now destruct (exec env (f a) s2) as [[r s3] t2].
Qed.

Lemma exec_handle (A : Type) (p : M O E A) (h : E -> M O E A) (s : S) :
  exec env (handle p h) s =
  match exec env p s with
  | (Done a, s1, t1) => (Done a, s1, t1)
  | (Thrown e, s1, t1) => let '(r, s2, t2) := exec env (h e) s1 in (r, s2, t1 ++ t2)
  end.
Proof.
  revert s. induction p as [a|e|l k IH|X o k IH]; intros s; simpl.
  - reflexivity.
  - now destruct (exec env (h e) s) as [[r s2] t2].
  - rewrite IH. destruct (exec env k s) as [[[a|e] s1] t1]; [reflexivity|].
    now destruct (exec env (h e) s1) as [[r s2] t2].
  - destruct (env o s) as [x s1]. rewrite IH.
    destruct (exec env (k x) s1) as [[[a|e] s2] t1]; [reflexivity|].
    now destruct (exec env (h e) s2) as [[r s3] t2].
Qed.

Lemma exec_await (X : Type) (o : O X) (s : S) :
  exec env (await o) s = (fst (env o s), snd (env o s), [Called o (fst (env o s))]).
Proof.
  unfold await. simpl. destruct (env o s) as [[x|e] s1]; reflexivity.
Qed.

Lemma exec_andThen_done (A B : Type) (p : M O E A) (f : A -> M O E B)
    (s s1 : S) (a : A) (t1 : list (Step O E)) :
  exec env p s = (Done a, s1, t1) ->
  exec env (andThen p f) s
  = (let '(r, s2, t2) := exec env (f a) s1 in (r, s2, t1 ++ t2)).
Proof. intros H. now rewrite exec_andThen, H. Qed.

End Exec.

Section Transport.

Import Anthropic.

Variable cfg : Settings.
Variable request : ClaudeRequest.

Lemma apiCalls_app (a b : list (Step Anthropic.Op Failure)) :
  apiCalls (a ++ b) = (apiCalls a + apiCalls b)%nat.
Proof.
  induction a as [|[X o r|l] a IH]; simpl; [reflexivity| |exact IH].
  destruct o; simpl; now rewrite IH.
Qed.

Lemma sleeps_app (a b : list (Step Anthropic.Op Failure)) :
  sleeps (a ++ b) = sleeps a ++ sleeps b.
Proof.
  induction a as [|[X o r|l] a IH]; simpl; [reflexivity| |exact IH].
  destruct o; simpl; now rewrite IH.
Qed.

(** One call to the API that answers from the script. *)
Lemma once_scripted (r : Outcome Failure Message) (rest : list (Outcome Failure Message))
    (sl : list (option Z)) :
  apiKey cfg <> [] ->
  exists tr,
    exec scripted (invokeClaudeOnce cfg request) {| script := r :: rest; slept := sl |}
    = (match r with
       | Done m => Done {| Anthropic.content := firstText (blocks m);
                           inputTokens := input_tokens m;
                           outputTokens := output_tokens m |}
       | Thrown e => Thrown e
       end, {| script := rest; slept := sl |}, tr)
    /\ apiCalls tr = 1%nat /\ sleeps tr = [].
Proof.
  intros Hk. unfold invokeClaudeOnce. destruct (apiKey cfg) as [|c k]; [contradiction|].
  rewrite exec_andThen, exec_await. cbn [scripted script slept fst snd].
  destruct r as [m|e].
  - eexists. split; [reflexivity|]. split; reflexivity.
  - eexists. split; [reflexivity|]. split; reflexivity.
Qed.

Lemma attempts_step (remaining : nat) (attempt : Z) (last : Failure) :
  attempts cfg (S remaining) attempt last request
  = handle (invokeClaudeOnce cfg request)
      (fun error =>
         if isRateLimit (toError error) && notLast cfg attempt then
           andThen (note Warn "Rate limited by Anthropic API, retrying...")
             (fun _ =>
                andThen (await (Sleep (delayOf cfg attempt)))
                  (fun _ => attempts cfg remaining (attempt + 1)
                              (ErrorOf (toError error)) request))
         else Throw (ErrorOf (toError error))).
Proof. reflexivity. Qed.

Lemma attempts_succeed (n d : Z) (msgs : list (list N)) :
  retryAttempts cfg = Some n -> retryDelayMs cfg = Some d -> apiKey cfg <> [] ->
  Forall (fun m => isRateLimit m = true) msgs ->
  forall (a remaining : nat) (last : Failure) (m : Message)
         (rest : list (Outcome Failure Message)) (sl : list (option Z)),
    Z.of_nat remaining = (n - Z.of_nat a)%Z ->
    (List.length msgs < remaining)%nat ->
    exists tr,
      exec scripted (attempts cfg remaining (Z.of_nat a) last request)
        {| script := map rateLimited msgs ++ Done m :: rest; slept := sl |}
      = (Done {| Anthropic.content := firstText (blocks m);
                 inputTokens := input_tokens m;
                 outputTokens := output_tokens m |},
         {| script := rest; slept := rev (delaysFrom d a (List.length msgs)) ++ sl |}, tr)
      /\ apiCalls tr = S (List.length msgs)
      /\ sleeps tr = delaysFrom d a (List.length msgs).
Proof.
  intros Hn Hd Hk Hall. induction Hall as [|x msgs Hx _ IH];
    intros a remaining last m rest sl Hrem Hlen.
  - destruct remaining as [|r']; [simpl in Hlen; lia|]. cbn [attempts map app].
    rewrite exec_handle.
    destruct (@once_scripted (Done m) rest sl Hk) as (tr & -> & Hc & Hs).
    exists tr. split; [reflexivity|]. split; assumption.
  - destruct remaining as [|r']; [simpl in Hlen; lia|]. cbn [attempts map app].
    unfold rateLimited at 1.
    rewrite exec_handle.
    destruct (@once_scripted (Thrown (ErrorOf x))
                (map rateLimited msgs ++ Done m :: rest) sl Hk)
      as (tr & -> & Hc & Hs).
    cbn [toError]. rewrite Hx.
    assert (Hnl : notLast cfg (Z.of_nat a) = true).
    { unfold notLast. rewrite Hn. apply Z.ltb_lt. cbn [List.length] in Hlen. lia. }
    rewrite Hnl. cbn [andb].
    rewrite exec_andThen. cbn [note exec]. rewrite exec_andThen, exec_await.
    unfold delayOf. rewrite Hd. cbn [scripted script slept fst snd].
    replace (Z.of_nat a + 1)%Z with (Z.of_nat (S a)) by lia.
    destruct (IH (S a) r' (ErrorOf x) m rest (Some (d * 2 ^ Z.of_nat a)%Z :: sl))
      as (tr2 & -> & Hc2 & Hs2).
    { lia. }
    { cbn [List.length] in Hlen. lia. }
    eexists. split; [|split].
    + cbn [List.length]. unfold delaysFrom. cbn [seq map rev].
      rewrite <- app_assoc. reflexivity.
    + rewrite apiCalls_app, Hc. simpl. now rewrite Hc2.
    + rewrite sleeps_app, Hs. simpl. now rewrite Hs2.
Qed.

Lemma last_cons (A : Type) (y x : A) (l : list A) : List.last (y :: l) x = List.last l y.
Proof.
  revert x y. induction l as [|z l IH]; intros x y; [reflexivity|].
  change (List.last (y :: z :: l) x) with (List.last (z :: l) x).
  now rewrite (IH x z), (IH y z).
Qed.

Lemma attempts_give_up (n d : Z) (x : list N) (msgs : list (list N)) :
  retryAttempts cfg = Some n -> retryDelayMs cfg = Some d -> apiKey cfg <> [] ->
  Forall (fun m => isRateLimit m = true) (x :: msgs) ->
  forall (a : nat) (last : Failure) (rest : list (Outcome Failure Message))
         (sl : list (option Z)),
    Z.of_nat (S (List.length msgs)) = (n - Z.of_nat a)%Z ->
    exists tr,
      exec scripted (attempts cfg (S (List.length msgs)) (Z.of_nat a) last request)
        {| script := map rateLimited (x :: msgs) ++ rest; slept := sl |}
      = (Thrown (ErrorOf (List.last msgs x)),
         {| script := rest; slept := rev (delaysFrom d a (List.length msgs)) ++ sl |}, tr)
      /\ apiCalls tr = S (List.length msgs)
      /\ sleeps tr = delaysFrom d a (List.length msgs).
Proof.
  intros Hn Hd Hk.
  revert x. induction msgs as [|y msgs IH]; intros x Hall a last rest sl Hrem.
  - cbn [map app List.length]. rewrite attempts_step. unfold rateLimited.
    rewrite exec_handle.
    destruct (@once_scripted (Thrown (ErrorOf x)) rest sl Hk) as (tr & -> & Hc & Hs).
    cbn [toError].
    assert (Hnl : notLast cfg (Z.of_nat a) = false).
    { unfold notLast. rewrite Hn. apply Z.ltb_ge. cbn [List.length] in Hrem. lia. }
    rewrite Hnl, andb_false_r. cbn [exec].
    exists (tr ++ []). split; [reflexivity|]. rewrite app_nil_r. split; assumption.
  - cbn [map app List.length]. rewrite attempts_step. unfold rateLimited at 1.
    rewrite exec_handle.
    destruct (@once_scripted (Thrown (ErrorOf x))
                (map rateLimited (y :: msgs) ++ rest) sl Hk)
      as (tr & Hex & Hc & Hs).
    cbn [map app] in Hex. rewrite Hex. clear Hex.
    cbn [toError]. inversion Hall as [|? ? Hx Hall']; subst. rewrite Hx.
    assert (Hnl : notLast cfg (Z.of_nat a) = true).
    { unfold notLast. rewrite Hn. apply Z.ltb_lt. cbn [List.length] in Hrem. lia. }
    rewrite Hnl. cbn [andb].
    rewrite exec_andThen. cbn [note exec]. rewrite exec_andThen, exec_await.
    unfold delayOf. rewrite Hd. cbn [scripted script slept fst snd].
    replace (Z.of_nat a + 1)%Z with (Z.of_nat (S a)) by lia.
    destruct (IH y Hall' (S a) (ErrorOf x) rest (Some (d * 2 ^ Z.of_nat a)%Z :: sl))
      as (tr2 & Hex2 & Hc2 & Hs2).
    { cbn [List.length] in Hrem. lia. }
    cbn [map app] in Hex2. rewrite Hex2.
    eexists. split; [|split].
    + rewrite last_cons. unfold delaysFrom. cbn [List.length seq map rev].
      rewrite <- app_assoc. reflexivity.
    + rewrite apiCalls_app, Hc. simpl. now rewrite Hc2.
    + rewrite sleeps_app, Hs. simpl. now rewrite Hs2.
Qed.

End Transport.

(** X18. When the API answers k times with a rate-limit error and then
    with a message, k being less than retryAttempts,
    invokeClaudeExtraction returns the first text of that message after k
    + 1 calls, and has slept retryDelayMs, twice that, four times that,
    and so on, k times. *)
Theorem transport_backs_off_exponentially (cfg : Anthropic.Settings)
    (request : Anthropic.ClaudeRequest) (n d : Z) (msgs : list (list N))
    (m : Anthropic.Message) (rest : list (Outcome Anthropic.Failure Anthropic.Message)) :
  Anthropic.retryAttempts cfg = Some n ->
  Anthropic.retryDelayMs cfg = Some d ->
  Anthropic.apiKey cfg <> [] ->
  Forall (fun x => Anthropic.isRateLimit x = true) msgs ->
  (Z.of_nat (List.length msgs) < n)%Z ->
  exists tr,
    exec Anthropic.scripted (Anthropic.invokeClaudeExtraction cfg request)
      (Anthropic.fresh (map Anthropic.rateLimited msgs ++ Done m :: rest))
    = (Done {| Anthropic.content := Anthropic.firstText (Anthropic.blocks m);
               Anthropic.inputTokens := Anthropic.input_tokens m;
               Anthropic.outputTokens := Anthropic.output_tokens m |},
       {| Anthropic.script := rest;
          Anthropic.slept := rev (Anthropic.backoff d (List.length msgs)) |}, tr)
    /\ Anthropic.apiCalls tr = S (List.length msgs)
    /\ Anthropic.sleeps tr = Anthropic.backoff d (List.length msgs).
Proof.
  intros Hn Hd Hk Hall Hlen.
  unfold Anthropic.invokeClaudeExtraction, Anthropic.turns, Anthropic.fresh. rewrite Hn.
  destruct (@attempts_succeed cfg request n d msgs Hn Hd Hk Hall 0%nat (Z.to_nat n)
              Anthropic.Null m rest []) as (tr & H & Hc & Hs); [lia|lia|].
  exists tr. rewrite app_nil_r in H. split; [exact H|]. split; assumption.
Qed.

(** X19. When the API answers retryAttempts times with a rate-limit error,
    invokeClaudeExtraction throws the last of these errors, after
    retryAttempts calls; it has slept after every attempt but the last. *)
Theorem transport_gives_up_after_the_last_attempt (cfg : Anthropic.Settings)
    (request : Anthropic.ClaudeRequest) (n d : Z) (x : list N) (msgs : list (list N))
    (rest : list (Outcome Anthropic.Failure Anthropic.Message)) :
  Anthropic.retryAttempts cfg = Some n ->
  Anthropic.retryDelayMs cfg = Some d ->
  Anthropic.apiKey cfg <> [] ->
  Forall (fun x => Anthropic.isRateLimit x = true) (x :: msgs) ->
  Z.of_nat (S (List.length msgs)) = n ->
  exists tr,
    exec Anthropic.scripted (Anthropic.invokeClaudeExtraction cfg request)
      (Anthropic.fresh (map Anthropic.rateLimited (x :: msgs) ++ rest))
    = (Thrown (Anthropic.ErrorOf (List.last msgs x)),
       {| Anthropic.script := rest;
          Anthropic.slept := rev (Anthropic.backoff d (List.length msgs)) |}, tr)
    /\ Anthropic.apiCalls tr = S (List.length msgs)
    /\ Anthropic.sleeps tr = Anthropic.backoff d (List.length msgs).
Proof.
  intros Hn Hd Hk Hall Hlen.
  unfold Anthropic.invokeClaudeExtraction, Anthropic.turns, Anthropic.fresh. rewrite Hn.
  replace (Z.to_nat n) with (S (List.length msgs)) by lia.
  destruct (@attempts_give_up cfg request n d x msgs Hn Hd Hk Hall 0%nat
              Anthropic.Null rest []) as (tr & H & Hc & Hs); [lia|].
  exists tr. rewrite app_nil_r in H. split; [exact H|]. split; assumption.
Qed.

(** X20. An error of an attempt that is no rate-limit error is thrown at
    once: invokeClaudeExtraction does what this one attempt did, and
    nothing after it. *)
Theorem other_errors_are_not_retried (S : Type)
    (env : forall X : Type, Anthropic.Op X -> S -> Outcome Anthropic.Failure X * S)
    (cfg : Anthropic.Settings) (request : Anthropic.ClaudeRequest) (n : Z)
    (s s1 : S) (e : Anthropic.Failure) (tr : list (Step Anthropic.Op Anthropic.Failure)) :
  Anthropic.retryAttempts cfg = Some n -> (1 <= n)%Z ->
  exec env (Anthropic.invokeClaudeOnce cfg request) s = (Thrown e, s1, tr) ->
  Anthropic.isRateLimit (Anthropic.toError e) = false ->
  exec env (Anthropic.invokeClaudeExtraction cfg request) s
  = (Thrown (Anthropic.ErrorOf (Anthropic.toError e)), s1, tr).
Proof.
  intros Hn Hpos Hex Hrate.
  unfold Anthropic.invokeClaudeExtraction, Anthropic.turns. rewrite Hn.
  destruct (Z.to_nat n) as [|k] eqn:Ek; [lia|].
  rewrite attempts_step, exec_handle, Hex, Hrate. cbn [andb exec].
  now rewrite app_nil_r.
Qed.

(** X21. With retryAttempts at most 0, or NaN, invokeClaudeExtraction
    calls nothing and throws null, the initial value of lastError, which
    is no Error. *)
Theorem transport_without_attempts_throws_null (S : Type)
    (env : forall X : Type, Anthropic.Op X -> S -> Outcome Anthropic.Failure X * S)
    (cfg : Anthropic.Settings) (request : Anthropic.ClaudeRequest) (s : S) :
  (forall n, Anthropic.retryAttempts cfg = Some n -> (n <= 0)%Z) ->
  exec env (Anthropic.invokeClaudeExtraction cfg request) s
  = (Thrown Anthropic.Null, s, []).
Proof.
  intros H. unfold Anthropic.invokeClaudeExtraction, Anthropic.turns.
  destruct (Anthropic.retryAttempts cfg) as [n|]; [|reflexivity].
  specialize (H n eq_refl). destruct (Z.to_nat n) eqn:E; [reflexivity|lia].
Qed.

Lemma transport_backs_off_exponentially_witness :
  exists tr,
    exec Anthropic.scripted
      (Anthropic.invokeClaudeExtraction Anthropic.defaults Anthropic.editorRequest)
      (Anthropic.fresh
         (map Anthropic.rateLimited [str "rate_limit_error"; str "529 overloaded_error"]
            ++ Done (Anthropic.textMessage "{}") :: []))
    = (Done {| Anthropic.content := str "{}"; Anthropic.inputTokens := 100;
               Anthropic.outputTokens := 20 |},
       {| Anthropic.script := [];
          Anthropic.slept := [Some 2000%Z; Some 1000%Z] |}, tr)
    /\ Anthropic.apiCalls tr = 3%nat
    /\ Anthropic.sleeps tr = [Some 1000%Z; Some 2000%Z].
Proof.
  apply (@transport_backs_off_exponentially Anthropic.defaults Anthropic.editorRequest
           3 1000 [str "rate_limit_error"; str "529 overloaded_error"]
           (Anthropic.textMessage "{}") []).
  - reflexivity.
  - reflexivity.
  - discriminate.
  - repeat constructor.
  - simpl. lia.
Defined.

Lemma transport_gives_up_after_the_last_attempt_witness :
  exists tr,
    exec Anthropic.scripted
      (Anthropic.invokeClaudeExtraction Anthropic.defaults Anthropic.editorRequest)
      (Anthropic.fresh
         (map Anthropic.rateLimited
            [str "rate_limit_error"; str "529 overloaded_error"; str "429 Too Many Requests"]
            ++ [Done (Anthropic.textMessage "{}")]))
    = (Thrown (Anthropic.ErrorOf (str "429 Too Many Requests")),
       {| Anthropic.script := [Done (Anthropic.textMessage "{}")];
          Anthropic.slept := [Some 2000%Z; Some 1000%Z] |}, tr)
    /\ Anthropic.apiCalls tr = 3%nat
    /\ Anthropic.sleeps tr = [Some 1000%Z; Some 2000%Z].
Proof.
  apply (@transport_gives_up_after_the_last_attempt Anthropic.defaults
           Anthropic.editorRequest 3 1000 (str "rate_limit_error")
           [str "529 overloaded_error"; str "429 Too Many Requests"]
           [Done (Anthropic.textMessage "{}")]).
  - reflexivity.
  - reflexivity.
  - discriminate.
  - repeat constructor.
  - reflexivity.
Defined.

Lemma other_errors_are_not_retried_witness :
  exec Anthropic.scripted
    (Anthropic.invokeClaudeExtraction Anthropic.defaults Anthropic.editorRequest)
    (Anthropic.fresh [Thrown (Anthropic.ErrorOf (str "401 invalid x-api-key"));
                      Done (Anthropic.textMessage "{}")])
  = (Thrown (Anthropic.ErrorOf (str "401 invalid x-api-key")),
     Anthropic.fresh [Done (Anthropic.textMessage "{}")],
     snd (exec Anthropic.scripted
            (Anthropic.invokeClaudeOnce Anthropic.defaults Anthropic.editorRequest)
            (Anthropic.fresh [Thrown (Anthropic.ErrorOf (str "401 invalid x-api-key"));
                              Done (Anthropic.textMessage "{}")]))).
Proof.
  apply (@other_errors_are_not_retried Anthropic.Line Anthropic.scripted
           Anthropic.defaults Anthropic.editorRequest 3
           (Anthropic.fresh [Thrown (Anthropic.ErrorOf (str "401 invalid x-api-key"));
                             Done (Anthropic.textMessage "{}")])
           (Anthropic.fresh [Done (Anthropic.textMessage "{}")])
           (Anthropic.ErrorOf (str "401 invalid x-api-key"))).
  - reflexivity.
  - lia.
  - reflexivity.
  - reflexivity.
Defined.

Lemma transport_without_attempts_throws_null_witness :
  exec Anthropic.scripted
    (Anthropic.invokeClaudeExtraction Anthropic.noAttempts Anthropic.editorRequest)
    (Anthropic.fresh [Done (Anthropic.textMessage "{}")])
  = (Thrown Anthropic.Null, Anthropic.fresh [Done (Anthropic.textMessage "{}")], []).
Proof.
  apply transport_without_attempts_throws_null. intros n H. discriminate H.
Defined.

(** * The relationship service *)

Section Lifecycle.

Import Relationships.

Variable S : Type.
Variable env : forall X : Type, Relationships.Op X -> S -> Outcome ServiceError X * S.

Lemma exec_awaitBoth (X Y : Type) (a : Relationships.Op X) (b : Relationships.Op Y) (s : S) :
  exec env (awaitBoth a b) s
  = (let '(ra, s1) := @env _ a s in
     let '(rb, s2) := @env _ b s1 in
     (match ra, rb with
      | Done x, Done y => Done (x, y)
      | Thrown e, _ => Thrown e
      | _, Thrown e => Thrown e
      end, s2, [Called a ra; Called b rb])).
Proof.
  unfold awaitBoth. cbn [exec].
  destruct (@env _ a s) as [ra s1]. destruct (@env _ b s1) as [rb s2].
  destruct ra, rb; reflexivity.
Qed.

Lemma writeBoth_done (id : list N) (r : Relationship) (ts : list N) (s s' : S)
    (tr : list (Step Relationships.Op ServiceError)) :
  exec env (writeBoth id r ts) s = (Done tt, s', tr) -> paired id r (writes tr).
Proof.
  unfold writeBoth. rewrite exec_andThen, exec_awaitBoth.
  match goal with |- context [@env _ (PutItem ?i) s] =>
    destruct (@env _ (PutItem i) s) as [[[]|e] s1] end.
  - match goal with |- context [@env _ (PutItem ?i) s1] =>
      destruct (@env _ (PutItem i) s1) as [[[]|e] s2] end; [|discriminate].
    cbn [exec]. intros H. inversion H; subst; clear H.
    do 2 eexists. cbn [writes app]. repeat split.
  - match goal with |- context [@env _ (PutItem ?i) s1] =>
      destruct (@env _ (PutItem i) s1) as [[[]|e2] s2] end; discriminate.
Qed.

Lemma getRelationship_done (id : list N) (s s' : S) (r : Relationship)
    (tr : list (Step Relationships.Op ServiceError)) :
  exec env (getRelationship id) s = (Done r, s', tr) ->
  exists item,
    @env _ (GetItem (relKey id) (str "META")) s = (Done (Some item), s')
    /\ r = payload item /\ writes tr = [].
Proof.
  unfold getRelationship. rewrite exec_andThen, exec_await.
  destruct (@env _ (GetItem (relKey id) (str "META")) s) as [[[item|]|e] s1];
    cbn [fst snd exec]; try discriminate.
  intros H. inversion H; subst; clear H. exists item. repeat split.
Qed.

Lemma writes_app (a b : list (Step Relationships.Op ServiceError)) :
  writes (a ++ b) = writes a ++ writes b.
Proof.
  induction a as [|[X o r|l] a IH]; simpl; [reflexivity| |exact IH].
  destruct o; simpl; now rewrite IH.
Qed.

End Lifecycle.

Lemma perform_done (S : Type)
    (env : forall X : Type, Relationships.Op X -> S
                            -> Outcome Relationships.ServiceError X * S)
    (c : Relationships.Change) (id userId : list N) (s s' : S)
    (r : Relationships.Relationship)
    (tr : list (Step Relationships.Op Relationships.ServiceError)) :
  exec env (Relationships.perform c id userId) s = (Done r, s', tr) ->
  exists item s1,
    env _ (Relationships.GetItem (Relationships.relKey id) (str "META")) s
    = (Done (Some item), s1)
    /\ Relationships.status (Relationships.payload item) = Relationships.requires c
    /\ Relationships.status r = Relationships.leaves c
    /\ Relationships.relationshipId r
       = Relationships.relationshipId (Relationships.payload item)
    /\ Relationships.fromEntityId r = Relationships.fromEntityId (Relationships.payload item)
    /\ Relationships.toEntityId r = Relationships.toEntityId (Relationships.payload item)
    /\ Relationships.createdAt r = Relationships.createdAt (Relationships.payload item)
    /\ Relationships.paired id r (Relationships.writes tr).
Proof.
  destruct c as [input| |reason]; cbn [Relationships.perform];
    unfold Relationships.updateRelationship, Relationships.publishRelationship,
           Relationships.retractRelationship;
    rewrite exec_andThen;
    destruct (exec env (Relationships.getRelationship id) s) as [[[existing|e] s1] t1] eqn:Eg;
    try discriminate;
    destruct (getRelationship_done env id s Eg) as (item & Hitem & -> & Hw1).
  - destruct (Relationships.status (Relationships.payload item)) eqn:Est;
      cbn [Relationships.isDraft negb]; try discriminate.
    destruct (Relationships.outOfRange (Relationships.uOwnership input)); [discriminate|].
    rewrite exec_andThen, exec_await.
    destruct (env _ Relationships.Now s1) as [[now|e] s2]; cbn [fst snd]; [|discriminate].
    rewrite exec_andThen.
    match goal with |- context [exec env (Relationships.writeBoth id ?u ?ts) s2] =>
      destruct (exec env (Relationships.writeBoth id u ts) s2) as [[[[]|e] s3] t3] eqn:Ew;
        [|discriminate];
      pose proof (writeBoth_done env id u ts s2 Ew) as Hp
    end.
    cbn [exec]. intros H. inversion H; subst; clear H.
    exists item, s1. split; [exact Hitem|]. repeat (split; [try reflexivity; assumption|]).
    rewrite !writes_app, Hw1. cbn [Relationships.writes app]. now rewrite app_nil_r.
  - destruct (Relationships.status (Relationships.payload item)) eqn:Est;
      cbn [Relationships.isDraft negb]; try discriminate.
    destruct (Relationships.noSource (Relationships.payload item)); [discriminate|].
    rewrite exec_andThen, exec_await.
    destruct (env _ Relationships.Now s1) as [[now|e] s2]; cbn [fst snd]; [|discriminate].
    rewrite exec_andThen.
    match goal with |- context [exec env (Relationships.writeBoth id ?u ?ts) s2] =>
      destruct (exec env (Relationships.writeBoth id u ts) s2) as [[[[]|e] s3] t3] eqn:Ew;
        [|discriminate];
      pose proof (writeBoth_done env id u ts s2 Ew) as Hp
    end.
    cbn [exec]. intros H. inversion H; subst; clear H.
    exists item, s1. split; [exact Hitem|]. repeat (split; [try reflexivity; assumption|]).
    rewrite !writes_app, Hw1. cbn [Relationships.writes app]. now rewrite app_nil_r.
  - destruct (Relationships.status (Relationships.payload item)) eqn:Est;
      cbn [Relationships.isPublished negb]; try discriminate.
    destruct (Relationships.blank reason); [discriminate|].
    rewrite exec_andThen, exec_await.
    destruct (env _ Relationships.Now s1) as [[now|e] s2]; cbn [fst snd]; [|discriminate].
    rewrite exec_andThen.
    match goal with |- context [exec env (Relationships.writeBoth id ?u ?ts) s2] =>
      destruct (exec env (Relationships.writeBoth id u ts) s2) as [[[[]|e] s3] t3] eqn:Ew;
        [|discriminate];
      pose proof (writeBoth_done env id u ts s2 Ew) as Hp
    end.
    cbn [exec]. intros H. inversion H; subst; clear H.
    exists item, s1. split; [exact Hitem|]. repeat (split; [try reflexivity; assumption|]).
    rewrite !writes_app, Hw1. cbn [Relationships.writes app]. now rewrite app_nil_r.
Qed.

(** X22. Updating or publishing a relationship that is no draft, or
    retracting one that is not published, fails with a ValidationError,
    and with a NotFoundError when the relationship does not exist; in both
    cases the only call is the read of the relationship. *)
Theorem changes_out_of_turn_write_nothing (S : Type)
    (env : forall X : Type, Relationships.Op X -> S
                            -> Outcome Relationships.ServiceError X * S)
    (c : Relationships.Change) (id userId : list N) (s s1 : S)
    (found : option Relationships.DbItem) :
  env _ (Relationships.GetItem (Relationships.relKey id) (str "META")) s
  = (Done found, s1) ->
  (forall item, found = Some item ->
     Relationships.status (Relationships.payload item) <> Relationships.requires c) ->
  exec env (Relationships.perform c id userId) s
  = (Thrown (match found with
             | Some _ => Relationships.ValidationError (Relationships.refusal c)
             | None => Relationships.NotFoundError (str "Relationship") id
             end), s1,
     [Called (Relationships.GetItem (Relationships.relKey id) (str "META")) (Done found)]).
Proof.
  intros Hget Hst.
  assert (Hg : exec env (Relationships.getRelationship id) s
               = (match found with
                  | Some i => Done (Relationships.payload i)
                  | None => Thrown (Relationships.NotFoundError (str "Relationship") id)
                  end, s1,
                  [Called (Relationships.GetItem (Relationships.relKey id) (str "META"))
                     (Done found)])).
  { unfold Relationships.getRelationship. rewrite exec_andThen, exec_await, Hget.
    cbn [fst snd]. destruct found; reflexivity. }
  destruct c as [input| |reason]; cbn [Relationships.perform];
    unfold Relationships.updateRelationship, Relationships.publishRelationship,
           Relationships.retractRelationship;
    rewrite exec_andThen, Hg; destruct found as [item|]; try reflexivity;
    specialize (Hst item eq_refl); cbn [Relationships.requires] in Hst;
    destruct (Relationships.status (Relationships.payload item)); try contradiction;
    reflexivity.
Qed.

Lemma changes_out_of_turn_write_nothing_witness :
  exists retracted,
    Relationships.status retracted = Relationships.RETRACTED
    /\ forall c,
         exec Relationships.stored
           (Relationships.perform c (str "rel_1") (str "admin"))
           {| Relationships.table := [Relationships.metaItem retracted (str "t0")];
              Relationships.directory := []; Relationships.clock := 1;
              Relationships.nextId := 2 |}
         = (Thrown (Relationships.ValidationError (Relationships.refusal c)),
            {| Relationships.table := [Relationships.metaItem retracted (str "t0")];
               Relationships.directory := []; Relationships.clock := 1;
               Relationships.nextId := 2 |},
            [Called (Relationships.GetItem (Relationships.relKey (str "rel_1")) (str "META"))
               (Done (Some (Relationships.metaItem retracted (str "t0"))))]).
Proof.
  exists {| Relationships.relationshipId := str "rel_1";
            Relationships.fromEntityId := str "ent_2";
            Relationships.toEntityId := str "ent_1";
            Relationships.type := str "REGULATED_BY";
            Relationships.status := Relationships.RETRACTED;
            Relationships.description := None;
            Relationships.startDate := None; Relationships.endDate := None;
            Relationships.sourceRefs := Some [str "src_1"];
            Relationships.ownershipPercentage := None;
            Relationships.createdAt := str "t0"; Relationships.createdBy := str "llm-editor";
            Relationships.updatedAt := str "t0"; Relationships.updatedBy := None;
            Relationships.publishedAt := None; Relationships.publishedBy := None;
            Relationships.retractionReason := Some (str "Superseded");
            Relationships.retractedAt := Some (str "t0");
            Relationships.retractedBy := Some (str "admin") |}.
  split; [reflexivity|]. intros c.
  match goal with |- exec _ _ ?st = (_, _, [Called _ (Done ?f)]) =>
    apply (@changes_out_of_turn_write_nothing Relationships.Store Relationships.stored
             c (str "rel_1") (str "admin") st st f)
  end.
  - reflexivity.
  - intros item H. inversion H; subst. destruct c; discriminate.
Defined.

(** X23. An update, publication or retraction that succeeds found the
    relationship in the state it requires (DRAFT, DRAFT, PUBLISHED) and
    leaves it in DRAFT, PUBLISHED or RETRACTED; identifier, entities and
    creation time are kept, and what is written is the main item and the
    reverse item of the result. *)
Theorem changes_follow_the_lifecycle (S : Type)
    (env : forall X : Type, Relationships.Op X -> S
                            -> Outcome Relationships.ServiceError X * S)
    (c : Relationships.Change) (id userId : list N) (s s' : S)
    (r : Relationships.Relationship)
    (tr : list (Step Relationships.Op Relationships.ServiceError)) :
  exec env (Relationships.perform c id userId) s = (Done r, s', tr) ->
  exists item s1,
    env _ (Relationships.GetItem (Relationships.relKey id) (str "META")) s
    = (Done (Some item), s1)
    /\ Relationships.status (Relationships.payload item) = Relationships.requires c
    /\ Relationships.status r = Relationships.leaves c
    /\ Relationships.relationshipId r
       = Relationships.relationshipId (Relationships.payload item)
    /\ Relationships.fromEntityId r = Relationships.fromEntityId (Relationships.payload item)
    /\ Relationships.toEntityId r = Relationships.toEntityId (Relationships.payload item)
    /\ Relationships.createdAt r = Relationships.createdAt (Relationships.payload item)
    /\ Relationships.paired id r (Relationships.writes tr).
Proof. apply perform_done. Qed.

Lemma changes_follow_the_lifecycle_witness :
  exists s1 r1 t1 s2 r2 t2,
    exec Relationships.stored
      (Relationships.createRelationship (Relationships.regulated (Some [str "src_1"]))
         (str "llm-editor")) Relationships.emptyStore = (Done r1, s1, t1)
    /\ exec Relationships.stored
         (Relationships.perform Relationships.Publish (str "rel_1") (str "llm-editor")) s1
       = (Done r2, s2, t2)
    /\ exists item s,
         Relationships.stored
           (Relationships.GetItem (Relationships.relKey (str "rel_1")) (str "META")) s1
         = (Done (Some item), s)
         /\ Relationships.status (Relationships.payload item) = Relationships.DRAFT
         /\ Relationships.status r2 = Relationships.PUBLISHED
         /\ Relationships.relationshipId r2
            = Relationships.relationshipId (Relationships.payload item)
         /\ Relationships.fromEntityId r2
            = Relationships.fromEntityId (Relationships.payload item)
         /\ Relationships.toEntityId r2 = Relationships.toEntityId (Relationships.payload item)
         /\ Relationships.createdAt r2 = Relationships.createdAt (Relationships.payload item)
         /\ Relationships.paired (str "rel_1") r2 (Relationships.writes t2).
Proof.
  do 6 eexists. split; [reflexivity|]. split; [reflexivity|].
  eapply (@changes_follow_the_lifecycle Relationships.Store Relationships.stored
            Relationships.Publish (str "rel_1") (str "llm-editor")).
  reflexivity.
Defined.

Lemma createRelationship_done (S : Type)
    (env : forall X : Type, Relationships.Op X -> S
                            -> Outcome Relationships.ServiceError X * S)
    (input : Relationships.CreateRequest) (userId : list N) (s s' : S)
    (r : Relationships.Relationship)
    (tr : list (Step Relationships.Op Relationships.ServiceError)) :
  exec env (Relationships.createRelationship input userId) s = (Done r, s', tr) ->
  Relationships.status r = Relationships.DRAFT
  /\ Relationships.fromEntityId r = Relationships.cFrom input
  /\ Relationships.toEntityId r = Relationships.cTo input
  /\ Relationships.sourceRefs r
     = Some (Relationships.orElse (Relationships.cSourceRefs input) [])
  /\ Relationships.outOfRange (Relationships.cOwnership input) = false
  /\ Relationships.lookups tr = [Relationships.cFrom input; Relationships.cTo input]
  /\ Relationships.paired (Relationships.relationshipId r) r (Relationships.writes tr).
Proof.
  unfold Relationships.createRelationship. rewrite exec_andThen, exec_awaitBoth.
  destruct (env _ (Relationships.GetEntity (Relationships.cFrom input)) s) as [[e1|x] s1].
  2:{ destruct (env _ (Relationships.GetEntity (Relationships.cTo input)) s1) as [[e2|y] s2];
        discriminate. }
  destruct (env _ (Relationships.GetEntity (Relationships.cTo input)) s1) as [[e2|y] s2];
    [|discriminate].
  destruct (Relationships.outOfRange (Relationships.cOwnership input)) eqn:Eo;
    [discriminate|].
  rewrite exec_andThen, exec_await.
  destruct (env _ Relationships.Now s2) as [[now|e] s3]; cbn [fst snd]; [|discriminate].
  rewrite exec_andThen, exec_await.
  destruct (env _ Relationships.Ulid s3) as [[id|e] s4]; cbn [fst snd]; [|discriminate].
  rewrite exec_andThen, exec_await.
  match goal with |- context [env _ (Relationships.PutItem ?i) s4] =>
    destruct (env _ (Relationships.PutItem i) s4) as [[[]|e] s5] end;
    cbn [fst snd]; [|discriminate].
  rewrite exec_andThen, exec_await.
  match goal with |- context [env _ (Relationships.PutItem ?i) s5] =>
    destruct (env _ (Relationships.PutItem i) s5) as [[[]|e] s6] end;
    cbn [fst snd]; [|discriminate].
  cbn [exec]. intros H. inversion H; subst; clear H.
  repeat (split; [reflexivity|]).
  do 2 eexists. cbn [Relationships.writes app]. repeat split.
Qed.

(** X24. createRelationship starts the lookups of both entities, and then
    checks the ownership percentage; when a lookup fails, or the
    percentage is outside 0 to 100, it throws and has written nothing. The
    error is that of a lookup before the ValidationError, and, the lookups
    settling in the order in which they are made, that of the first lookup
    before that of the second. *)
Theorem creation_is_validated_before_any_write (S : Type)
    (env : forall X : Type, Relationships.Op X -> S
                            -> Outcome Relationships.ServiceError X * S)
    (input : Relationships.CreateRequest) (userId : list N) (s s1 s2 : S)
    (a b : Outcome Relationships.ServiceError Relationships.EntityRef) :
  env _ (Relationships.GetEntity (Relationships.cFrom input)) s = (a, s1) ->
  env _ (Relationships.GetEntity (Relationships.cTo input)) s1 = (b, s2) ->
  (exists e, a = Thrown e) \/ (exists e, b = Thrown e)
  \/ Relationships.outOfRange (Relationships.cOwnership input) = true ->
  exec env (Relationships.createRelationship input userId) s
  = (Thrown (match a, b with
             | Thrown e, _ => e
             | _, Thrown e => e
             | _, _ => Relationships.ValidationError Relationships.ownershipMessage
             end), s2,
     [Called (Relationships.GetEntity (Relationships.cFrom input)) a;
      Called (Relationships.GetEntity (Relationships.cTo input)) b]).
Proof.
  intros Ha Hb Hbad. unfold Relationships.createRelationship.
  rewrite exec_andThen, exec_awaitBoth, Ha, Hb.
  destruct a as [x|ea].
  - destruct b as [y|eb]; [|reflexivity].
    destruct Hbad as [[e He]|[[e He]|Ho]]; try discriminate.
    now rewrite Ho.
  - destruct b; reflexivity.
Qed.

(** X25. A relationship that createRelationship returns is a DRAFT between
    the two entities of the request, with the source references of the
    request or none; both entities were looked up, and the main item and
    the reverse item of the relationship were written. *)
Theorem creation_writes_a_draft_under_both_entities (S : Type)
    (env : forall X : Type, Relationships.Op X -> S
                            -> Outcome Relationships.ServiceError X * S)
    (input : Relationships.CreateRequest) (userId : list N) (s s' : S)
    (r : Relationships.Relationship)
    (tr : list (Step Relationships.Op Relationships.ServiceError)) :
  exec env (Relationships.createRelationship input userId) s = (Done r, s', tr) ->
  Relationships.status r = Relationships.DRAFT
  /\ Relationships.fromEntityId r = Relationships.cFrom input
  /\ Relationships.toEntityId r = Relationships.cTo input
  /\ Relationships.sourceRefs r
     = Some (Relationships.orElse (Relationships.cSourceRefs input) [])
  /\ Relationships.outOfRange (Relationships.cOwnership input) = false
  /\ Relationships.lookups tr = [Relationships.cFrom input; Relationships.cTo input]
  /\ Relationships.paired (Relationships.relationshipId r) r (Relationships.writes tr).
Proof. apply createRelationship_done. Qed.

Lemma creation_writes_a_draft_under_both_entities_witness :
  exists r s' tr,
    exec Relationships.stored
      (Relationships.createRelationship (Relationships.regulated None) (str "llm-editor"))
      Relationships.emptyStore = (Done r, s', tr)
    /\ Relationships.status r = Relationships.DRAFT
    /\ Relationships.fromEntityId r = str "ent_2"
    /\ Relationships.toEntityId r = str "ent_1"
    /\ Relationships.sourceRefs r = Some []
    /\ Relationships.outOfRange None = false
    /\ Relationships.lookups tr = [str "ent_2"; str "ent_1"]
    /\ Relationships.paired (Relationships.relationshipId r) r (Relationships.writes tr).
Proof.
  do 3 eexists. split; [reflexivity|].
  eapply (@creation_writes_a_draft_under_both_entities Relationships.Store
            Relationships.stored (Relationships.regulated None) (str "llm-editor")
            Relationships.emptyStore).
  reflexivity.
Defined.

Lemma creation_is_validated_before_any_write_witness :
  exec Relationships.stored
    (Relationships.createRelationship (Relationships.regulated None) (str "llm-editor"))
    {| Relationships.table := []; Relationships.directory := [Relationships.ftc];
       Relationships.clock := 0; Relationships.nextId := 1 |}
  = (Thrown (Relationships.NotFoundError (str "Entity") (str "ent_2")),
     {| Relationships.table := []; Relationships.directory := [Relationships.ftc];
        Relationships.clock := 0; Relationships.nextId := 1 |},
     [Called (Relationships.GetEntity (str "ent_2"))
        (Thrown (Relationships.NotFoundError (str "Entity") (str "ent_2")));
      Called (Relationships.GetEntity (str "ent_1")) (Done Relationships.ftc)]).
Proof.
  eapply (@creation_is_validated_before_any_write Relationships.Store Relationships.stored
            (Relationships.regulated None) (str "llm-editor") _ _ _
            (Thrown (Relationships.NotFoundError (str "Entity") (str "ent_2")))
            (Done Relationships.ftc)).
  - reflexivity.
  - reflexivity.
  - left. eexists. reflexivity.
Defined.

(** ** The table in memory *)

Section Table.

Import Relationships.

Lemma hasKey_refl (i : DbItem) : hasKey (PK i) (SK i) i = true.
Proof. unfold hasKey. now rewrite !str_eqb_refl. Qed.

Lemma lookup_put_same (i : DbItem) (tb : list DbItem) :
  lookup (PK i) (SK i) (put i tb) = Some i.
Proof.
  unfold lookup. induction tb as [|j tb IH]; cbn [put find].
  - now rewrite hasKey_refl.
  - destruct (hasKey (PK i) (SK i) j) eqn:E; cbn [find].
    + now rewrite hasKey_refl.
    + now rewrite E.
Qed.

Lemma lookup_put_other (i : DbItem) (pk sk : list N) (tb : list DbItem) :
  hasKey pk sk i = false -> lookup pk sk (put i tb) = lookup pk sk tb.
Proof.
  intros Hk. unfold lookup. induction tb as [|j tb IH]; cbn [put find].
  - now rewrite Hk.
  - destruct (hasKey (PK i) (SK i) j) eqn:E; cbn [find].
    + rewrite Hk. unfold hasKey in E, Hk |- *.
      apply andb_true_iff in E as [E1 E2].
      apply str_eqb_eq in E1, E2. rewrite E1, E2. now rewrite Hk.
    + destruct (hasKey pk sk j); [reflexivity|exact IH].
Qed.

End Table.

Section Stored.

Import Relationships.

(** The table after a run holds the writes of the run, in order. *)
Lemma stored_table (A : Type) (p : Prog A) (st st' : Store) (r : Outcome ServiceError A)
    (tr : list (Step Relationships.Op ServiceError)) :
  exec stored p st = (r, st', tr) ->
  table st' = fold_left (fun tb i => put i tb) (writes tr) (table st).
Proof.
  revert st st' r tr. induction p as [a|e|l k IH|X o k IH]; intros st st' r tr; cbn [exec].
  - intros H. inversion H; subst. reflexivity.
  - intros H. inversion H; subst. reflexivity.
  - destruct (exec stored k st) as [[r1 s1] t1] eqn:E. intros H. inversion H; subst.
    cbn [writes]. eapply IH. exact E.
  - destruct (stored o st) as [x s1] eqn:Eo.
    destruct (exec stored (k x) s1) as [[r1 s2] t1] eqn:E. intros H. inversion H; subst.
    apply IH in E. rewrite E. cbn [writes].
    destruct o; cbn [stored] in Eo; inversion Eo; subst; reflexivity.
Qed.

Lemma paired_lookup (id : list N) (r : Relationship) (items : list DbItem)
    (tb : list DbItem) :
  paired id r items ->
  exists m,
    lookup (relKey id) (str "META") (fold_left (fun tb i => put i tb) items tb) = Some m
    /\ payload m = r.
Proof.
  intros (m & v & -> & Hm1 & Hm2 & Hv1 & Hv2 & Hpm & Hpv & _).
  exists m. split; [|exact Hpm]. cbn [fold_left].
  rewrite lookup_put_other.
  - rewrite <- Hm1, <- Hm2. apply lookup_put_same.
  - unfold hasKey. rewrite Hv2. cbn. apply andb_false_r.
Qed.

End Stored.

(** X26. On a table that keeps what is put, the relationship that
    createRelationship, updateRelationship, publishRelationship or
    retractRelationship returns is the one that getRelationship reads
    afterwards. *)
Theorem what_is_written_is_what_is_read (q : Relationships.Request) (userId : list N)
    (st st' : Relationships.Store) (r : Relationships.Relationship)
    (tr : list (Step Relationships.Op Relationships.ServiceError)) :
  exec Relationships.stored (Relationships.issue q userId) st = (Done r, st', tr) ->
  exists item,
    exec Relationships.stored (Relationships.getRelationship (Relationships.target q r)) st'
    = (Done r, st',
       [Called (Relationships.GetItem (Relationships.relKey (Relationships.target q r))
                  (str "META")) (Done (Some item))]).
Proof.
  intros H.
  assert (Hp : Relationships.paired (Relationships.target q r) r (Relationships.writes tr)).
  { destruct q as [input|c id]; cbn [Relationships.issue Relationships.target] in *.
    - apply (createRelationship_done _ _ _ _ H).
    - destruct (perform_done _ _ _ _ _ H) as (item & s1 & _ & _ & _ & _ & _ & _ & _ & Hp).
      exact Hp. }
  pose proof (stored_table _ _ H) as Ht.
  destruct (paired_lookup (Relationships.table st) Hp) as (m & Hm & Hr).
  exists m. unfold Relationships.getRelationship.
  rewrite exec_andThen, exec_await. cbn [Relationships.stored fst snd].
  rewrite Ht, Hm. cbn [exec]. now rewrite Hr.
Qed.

Lemma what_is_written_is_what_is_read_witness :
  exists r st' tr item,
    exec Relationships.stored
      (Relationships.issue (Relationships.Creating (Relationships.regulated (Some [str "src_1"])))
         (str "llm-editor")) Relationships.emptyStore = (Done r, st', tr)
    /\ exec Relationships.stored (Relationships.getRelationship (str "rel_1")) st'
       = (Done r, st',
          [Called (Relationships.GetItem (Relationships.relKey (str "rel_1")) (str "META"))
             (Done (Some item))]).
Proof.
  do 3 eexists.
  assert (H : exec Relationships.stored
                (Relationships.issue
                   (Relationships.Creating (Relationships.regulated (Some [str "src_1"])))
                   (str "llm-editor")) Relationships.emptyStore
              = (Done _, _, _)) by reflexivity.
  destruct (what_is_written_is_what_is_read _ _ _ H) as [item Hitem].
  exists item. split; [exact H|exact Hitem].
Defined.

(** ** Relationships with their entities *)

Section Hydration.

Import Relationships.

Variable S : Type.
Variable env : forall X : Type, Relationships.Op X -> S -> Outcome ServiceError X * S.

Lemma lookups_app (a b : list (Step Relationships.Op ServiceError)) :
  lookups (a ++ b) = lookups a ++ lookups b.
Proof.
  induction a as [|[X o r|l] a IH]; simpl; [reflexivity| |exact IH].
  destruct o; simpl; now rewrite IH.
Qed.

Lemma hydrate_done (ids : list (list N)) (s : S) :
  exists entries s' tr,
    exec env (hydrate ids) s = (Done entries, s', tr)
    /\ map fst entries = ids /\ lookups tr = ids /\ writes tr = [].
Proof.
  revert s. induction ids as [|id rest IH]; intros s; cbn [hydrate].
  - do 3 eexists. repeat split; reflexivity.
  - rewrite exec_andThen, exec_handle, exec_andThen, exec_await.
    destruct (@env _ (GetEntity id) s) as [[e|x] s1]; cbn [fst snd exec app].
    + rewrite exec_andThen.
      destruct (IH s1) as (entries & s' & tr & -> & Hk & Hl & Hw).
      do 3 eexists. split; [reflexivity|]. rewrite app_nil_r.
      cbn [map fst lookups writes app]. now rewrite Hk, Hl, Hw.
    + rewrite exec_andThen.
      destruct (IH s1) as (entries & s' & tr & -> & Hk & Hl & Hw).
      do 3 eexists. split; [reflexivity|]. rewrite app_nil_r.
      cbn [map fst lookups writes app]. now rewrite Hk, Hl, Hw.
Qed.

Lemma mapGet_some (entries : list (list N * EntityRef)) (id : list N) :
  In id (map fst entries) -> exists v, mapGet entries id = Some v.
Proof.
  induction entries as [|[k v] rest IH]; cbn [map fst mapGet]; [contradiction|].
  intros [->|H].
  - rewrite str_eqb_refl. now exists v.
  - destruct (str_eqb k id); [now exists v|now apply IH].
Qed.

Lemma distinct_spec (ids seen : list (list N)) :
  (forall x, In x ids -> In x seen \/ In x (distinct seen ids))
  /\ NoDup (distinct seen ids)
  /\ (forall x, In x (distinct seen ids) -> ~ In x seen).
Proof.
  revert seen. induction ids as [|id rest IH]; intros seen; cbn [distinct].
  - repeat split; [contradiction|constructor|contradiction].
  - destruct (existsb (str_eqb id) seen) eqn:E.
    + destruct (IH seen) as (H1 & H2 & H3). repeat split; auto.
      intros x [<-|Hx]; [|now apply H1].
      left. apply existsb_exists in E as (y & Hy & Heq).
      apply str_eqb_eq in Heq. now subst.
    + destruct (IH (id :: seen)) as (H1 & H2 & H3). repeat split.
      * intros x [<-|Hx]; [right; now left|].
        destruct (H1 x Hx) as [[<-|Hs]|Hd]; [right; now left|now left|right; now right].
      * constructor; [|exact H2]. intros Hin. apply (H3 _ Hin). now left.
      * intros x [<-|Hx] Hs.
        -- assert (Ht : existsb (str_eqb id) seen = true).
           { apply existsb_exists. exists id. split; [exact Hs|apply str_eqb_refl]. }
           congruence.
        -- apply (H3 _ Hx). now right.
Qed.

End Hydration.

(** X27. When the query by entity answers, getRelationshipsForEntity
    returns every relationship of the page, or those of the status asked
    for, each with both entities filled in, a placeholder standing for an
    entity whose lookup fails; every entity is looked up once and nothing
    is written. *)
Theorem missing_entities_do_not_hide_relationships (S : Type)
    (env : forall X : Type, Relationships.Op X -> S
                            -> Outcome Relationships.ServiceError X * S)
    (id : list N) (wanted : option Relationships.Status) (s s1 : S)
    (items : list Relationships.DbItem) (next : option JSVal) :
  env _ (Relationships.Query Relationships.GSI1 (Relationships.entityKey id) 100 None true) s
  = (Done {| Relationships.pageItems := items; Relationships.lastEvaluatedKey := next |},
     s1) ->
  exists out s' tr,
    exec env (Relationships.getRelationshipsForEntity id wanted) s = (Done out, s', tr)
    /\ map Relationships.rel out
       = match wanted with
         | Some st => filter (fun r => Relationships.sameStatus (Relationships.status r) st)
                             (map Relationships.payload items)
         | None => map Relationships.payload items
         end
    /\ Forall (fun h => exists a b, Relationships.fromEntity h = Some a
                                    /\ Relationships.toEntity h = Some b) out
    /\ NoDup (Relationships.lookups tr)
    /\ Relationships.writes tr = [].
Proof.
  intros Hq. unfold Relationships.getRelationshipsForEntity.
  rewrite exec_andThen, exec_await, Hq. cbn [fst snd Relationships.pageItems].
  set (rs := match wanted with
             | Some st => filter (fun r => Relationships.sameStatus (Relationships.status r) st)
                                 (map Relationships.payload items)
             | None => map Relationships.payload items
             end).
  rewrite exec_andThen.
  destruct (hydrate_done env (Relationships.distinct [] (Relationships.endpoints rs)) s1)
    as (entries & s' & tr & -> & Hk & Hl & Hw).
  cbn [exec]. do 3 eexists. split; [reflexivity|].
  destruct (distinct_spec (Relationships.endpoints rs) []) as (Hin & Hnd & _).
  split; [|split; [|split]].
  - rewrite map_map. cbn [Relationships.rel]. apply map_id.
  - apply Forall_forall. intros h Hh. apply in_map_iff in Hh as (r & <- & Hr).
    cbn [Relationships.fromEntity Relationships.toEntity].
    assert (Hends : forall x, In x [Relationships.fromEntityId r; Relationships.toEntityId r] ->
                              In x (map fst entries)).
    { intros x Hx. rewrite Hk.
      destruct (Hin x) as [[]|Hd]; [|exact Hd].
      unfold Relationships.endpoints. apply in_flat_map. exists r. split; assumption. }
    destruct (mapGet_some entries (Relationships.fromEntityId r)) as [a Ha];
      [apply Hends; now left|].
    destruct (mapGet_some entries (Relationships.toEntityId r)) as [b Hb];
      [apply Hends; right; now left|].
    exists a, b. split; assumption.
  - rewrite app_nil_r, lookups_app, Hl. exact Hnd.
  - rewrite app_nil_r, writes_app, Hw. reflexivity.
Qed.

Lemma missing_entities_do_not_hide_relationships_witness :
  exists out s' tr,
    exec Relationships.stored
      (Relationships.getRelationshipsForEntity (str "ent_2") None) Relationships.orphanStore
    = (Done out, s', tr)
    /\ out = [{| Relationships.rel := Relationships.orphan;
                 Relationships.fromEntity := Some Relationships.acmeInc;
                 Relationships.toEntity
                 := Some (Relationships.unknownEntity (str "ent_9")) |}]
    /\ map Relationships.rel out
       = map Relationships.payload
           [Relationships.metaItem Relationships.orphan (str "t0")]
    /\ Forall (fun h => exists a b, Relationships.fromEntity h = Some a
                                    /\ Relationships.toEntity h = Some b) out
    /\ NoDup (Relationships.lookups tr)
    /\ Relationships.writes tr = [].
Proof.
  destruct (@missing_entities_do_not_hide_relationships Relationships.Store
              Relationships.stored (str "ent_2") None Relationships.orphanStore
              Relationships.orphanStore
              [Relationships.metaItem Relationships.orphan (str "t0")] None eq_refl)
    as (out & s' & tr & Hex & Hrest).
  exists out, s', tr. split; [exact Hex|].
  split; [|exact Hrest].
  vm_compute in Hex. now inversion Hex.
Defined.

(** * The prompt of the editor *)

Section Replace.

Import Prompt.

Lemma startsWith_no_brace (s q : list N) :
  noChar 123 s -> startsWith s (123 :: q) = false.
Proof.
  intros H. destruct H as [|c s Hc _]; [reflexivity|].
  cbn [startsWith]. apply N.eqb_neq in Hc. rewrite N.eqb_sym, Hc. reflexivity.
Qed.

(** A text without an opening brace holds no placeholder. *)
Lemma replaceFrom_no_brace (q r before s : list N) :
  noChar 123 s -> replaceFrom (123 :: q) r before s = before ++ s.
Proof.
  intros H. revert before. induction H as [|c s Hc Hs IH]; intros before.
  - cbn [replaceFrom startsWith]. now rewrite app_nil_r.
  - cbn [replaceFrom]. rewrite startsWith_no_brace by (constructor; assumption).
    rewrite IH, <- app_assoc. reflexivity.
Qed.

(** The search passes over a text without an opening brace. *)
Lemma replaceFrom_skip (q r before a s : list N) :
  noChar 123 a ->
  replaceFrom (123 :: q) r before (a ++ s) = replaceFrom (123 :: q) r (before ++ a) s.
Proof.
  intros H. revert before. induction H as [|c a Hc Ha IH]; intros before.
  - now rewrite app_nil_r.
  - cbn [app]. 
    assert (Hs : startsWith (c :: a ++ s) (123 :: q) = false).
    { cbn [startsWith]. apply N.eqb_neq in Hc. rewrite N.eqb_sym, Hc. reflexivity. }
    change (replaceFrom (123 :: q) r before (c :: a ++ s))
      with (if startsWith (c :: a ++ s) (123 :: q)
            then before ++ substitution r (123 :: q) before
                             (skipn (List.length (123 :: q)) (c :: a ++ s))
                        ++ skipn (List.length (123 :: q)) (c :: a ++ s)
            else replaceFrom (123 :: q) r (before ++ [c]) (a ++ s)).
    rewrite Hs, IH, <- app_assoc. reflexivity.
Qed.

Lemma substitution_plain (r m b a : list N) :
  literal r = true -> substitution r m b a = r.
Proof.
  induction r as [|c r IH]; [reflexivity|].
  cbn [literal substitution]. intros H. apply andb_true_iff in H as [H1 H2].
  destruct (c =? 36) eqn:Ec.
  - apply N.eqb_eq in Ec. subst c. destruct r as [|d r']; [reflexivity|].
    apply negb_true_iff in H1. apply orb_false_iff in H1 as [H1 H39].
    apply orb_false_iff in H1 as [H1 H96]. apply orb_false_iff in H1 as [H36 H38].
    rewrite H36, H38, H96, H39. now rewrite (IH H2).
  - now rewrite (IH H2).
Qed.

Lemma skipn_app_exact (p s : list N) : skipn (List.length p) (p ++ s) = s.
Proof. induction p as [|c p IH]; simpl; auto. Qed.

Lemma replaceFrom_cons (p r before s : list N) (ch : N) :
  replaceFrom p r before (ch :: s)
  = if startsWith (ch :: s) p
    then before ++ substitution r p before (skipn (List.length p) (ch :: s))
                ++ skipn (List.length p) (ch :: s)
    else replaceFrom p r (before ++ [ch]) s.
Proof. reflexivity. Qed.

(** The first occurrence is replaced. *)
Lemma replaceFrom_first (q r before a rest : list N) :
  noChar 123 a -> literal r = true ->
  replaceFrom (123 :: q) r before (a ++ (123 :: q) ++ rest) = before ++ a ++ r ++ rest.
Proof.
  intros Ha Hr. rewrite replaceFrom_skip by exact Ha.
  change ((123 :: q) ++ rest) with (123 :: (q ++ rest)).
  rewrite replaceFrom_cons.
  change (123 :: (q ++ rest)) with ((123 :: q) ++ rest).
  rewrite startsWith_app, skipn_app_exact, substitution_plain by exact Hr.
  now rewrite <- !app_assoc.
Qed.

(** A placeholder that matches neither at the first nor at the second
    brace of the placeholder of the title leaves it alone. *)
Lemma replaceFrom_pass_title (q r before x c : list N) :
  noChar 123 x -> noChar 123 c ->
  startsWith (str "{{TITLE}}" ++ c) (123 :: q) = false ->
  startsWith (str "{TITLE}}" ++ c) (123 :: q) = false ->
  replaceFrom (123 :: q) r before (x ++ str "{{TITLE}}" ++ c)
  = before ++ x ++ str "{{TITLE}}" ++ c.
Proof.
  intros Hx Hc H1 H2. rewrite replaceFrom_skip by exact Hx.
  change (str "{{TITLE}}" ++ c) with (123 :: (str "{TITLE}}" ++ c)) in *.
  rewrite replaceFrom_cons, H1.
  change (str "{TITLE}}" ++ c) with (123 :: (str "TITLE}}" ++ c)) in *.
  rewrite replaceFrom_cons, H2.
  rewrite replaceFrom_no_brace.
  - now rewrite <- !app_assoc.
  - apply Forall_app. split; [|exact Hc].
    repeat constructor; discriminate.
Qed.

End Replace.

(** X28. buildEditorPrompt returns a template without an opening brace
    unchanged. *)
Theorem template_without_placeholders_is_kept (json : Prompt.Json) (template : list N)
    (item : IntakeItem) (matched : list Entity) :
  noChar 123 template ->
  Prompt.buildEditorPrompt json template item matched = template.
Proof.
  intros H. unfold Prompt.buildEditorPrompt, Prompt.replace.
  repeat match goal with
         | |- context [Prompt.replaceFrom (str ?p) ?r [] template] =>
             change (str p) with (123 :: List.tl (str p));
             rewrite (@replaceFrom_no_brace _ r [] template H); cbn [app]
         end.
  reflexivity.
Qed.

(** X29. buildEditorPrompt fills in the first occurrence of a placeholder
    only: in a template with {{TITLE}} twice and no other brace, the
    second {{TITLE}} is left in the prompt. The title is one without a
    replacement pattern and without a brace. *)
Theorem only_the_first_placeholder_is_filled (json : Prompt.Json) (a b c : list N)
    (item : IntakeItem) (matched : list Entity) :
  noChar 123 a -> noChar 123 b -> noChar 123 c ->
  Prompt.literal (ititle item) = true -> noChar 123 (ititle item) ->
  Prompt.buildEditorPrompt json (a ++ str "{{TITLE}}" ++ b ++ str "{{TITLE}}" ++ c)
    item matched
  = a ++ ititle item ++ b ++ str "{{TITLE}}" ++ c.
Proof.
  intros Ha Hb Hc Hd Ht. unfold Prompt.buildEditorPrompt, Prompt.replace.
  change (str "{{TITLE}}") with (123 :: str "{TITLE}}") at 1.
  change (a ++ str "{{TITLE}}" ++ b ++ str "{{TITLE}}" ++ c)
    with (a ++ (123 :: str "{TITLE}}") ++ (b ++ str "{{TITLE}}" ++ c)).
  rewrite (@replaceFrom_first _ (ititle item) [] a _ Ha Hd). cbn [app].
  assert (Hx : noChar 123 (a ++ ititle item ++ b)).
  { apply Forall_app. split; [exact Ha|]. apply Forall_app. split; assumption. }
  replace (a ++ ititle item ++ b ++ str "{{TITLE}}" ++ c)
    with ((a ++ ititle item ++ b) ++ str "{{TITLE}}" ++ c)
    by (now rewrite <- !app_assoc).
  repeat match goal with
         | |- context [Prompt.replaceFrom (str ?p) ?r []
                         ((a ++ ititle item ++ b) ++ str "{{TITLE}}" ++ c)] =>
             change (str p) with (123 :: List.tl (str p));
             rewrite (@replaceFrom_pass_title (List.tl (str p)) r []
                        (a ++ ititle item ++ b) c Hx Hc eq_refl eq_refl);
             cbn [app]
         end.
  reflexivity.
Qed.

Lemma template_without_placeholders_is_kept_witness :
  noChar 123 (str "Review the item.")
  /\ Prompt.buildEditorPrompt Prompt.brackets (str "Review the item.") acme [acmeCorp]
     = str "Review the item.".
Proof.
  assert (H : noChar 123 (str "Review the item.")) by (repeat constructor; discriminate).
  split; [exact H|]. apply template_without_placeholders_is_kept. exact H.
Defined.

Lemma only_the_first_placeholder_is_filled_witness :
  Prompt.buildEditorPrompt Prompt.brackets
    (str "Title: " ++ str "{{TITLE}}" ++ str " (" ++ str "{{TITLE}}" ++ str ")")
    acme [acmeCorp]
  = str "Title: " ++ ititle acme ++ str " (" ++ str "{{TITLE}}" ++ str ")".
Proof.
  apply only_the_first_placeholder_is_filled;
    try (repeat constructor; discriminate); reflexivity.
Defined.

(** ** Instances of the properties of the editor *)

Lemma parsed_confidence_is_clamped_witness :
  exists r,
    parseEditorResponse (json "{'decision': 'PUBLISH', 'confidence': 'high'}") = Some r
    /\ (inUnitInterval (erConfidence r)
        \/ (erConfidence r = NaN
            /\ forall cfg plat d, confidenceGate cfg plat r d = (r, d))).
Proof.
  eexists. split; [reflexivity|].
  apply (@parsed_confidence_is_clamped
           (json "{'decision': 'PUBLISH', 'confidence': 'high'}")).
  reflexivity.
Defined.


Lemma results_follow_the_items_witness :
  exists s w' t rows,
    run Mem.env (runEditor (defaultConfig false) platform) proseRun = (Ok s, w', t)
    /\ In (ECall (QueryItems (Some 40%Z)) (Ok rows)) t
    /\ map rIntakeId (results s)
       = map (fun row => intakeId (rowItem row)) (sliceTo (Some 20%Z) (filter eligible rows)).
Proof.
  assert (H : run Mem.env (runEditor (defaultConfig false) platform) proseRun
              = (Ok _, _, _)) by reflexivity.
  destruct (@results_follow_the_items World Mem.env (defaultConfig false) platform
              _ _ _ _ eq_refl H) as (rows & Hin & Hres).
  do 3 eexists. exists rows. split; [exact H|]. split; assumption.
Defined.

Lemma summary_counters_add_up_witness :
  exists s w' t,
    run Mem.env (runEditor (defaultConfig false) platform) proseRun = (Ok s, w', t)
    /\ processed s = 1
    /\ processed s = published s + skipped s + errors s
    /\ processed s = N.of_nat (List.length (results s)).
Proof.
  do 3 eexists. split; [reflexivity|]. split; [reflexivity|].
  eapply (@summary_counters_add_up World Mem.env (defaultConfig false) platform proseRun).
  reflexivity.
Defined.

Section Listing.

Import Relationships.

Variable S : Type.
Variable env : forall X, Op X -> S -> Outcome ServiceError X * S.

Lemma respond_done (rs : list Relationship) (page : Page) (s s1 : S)
    (out : Listing) (tr : list (Step Op ServiceError)) :
  exec env (respond rs page) s = (Done out, s1, tr) ->
  listed out = rs /\ (hasMore out = true <-> cursor out <> None) /\
  writes tr = [] /\ queries tr = [].
Proof.
  unfold respond. destruct (lastEvaluatedKey page) as [key|].
  - rewrite exec_andThen, exec_await.
    destruct (env (EncodeCursor key) s) as [[c|e] s2] eqn:He; cbn [fst snd].
    + cbn. intros H. injection H as <- _ <-. cbn.
      split; [reflexivity|]. split; [|split; reflexivity].
      split; [discriminate|reflexivity].
    + discriminate.
  - cbn. intros H. injection H as <- _ <-. cbn.
    split; [reflexivity|]. split; [|split; reflexivity].
    split; [discriminate|intros H; now elim H].
Qed.

Lemma ofType_in (t : option jsstring) (ty : jsstring) (rs : list Relationship)
    (r : Relationship) :
  given t = Some ty -> In r (ofType t rs) -> type r = ty.
Proof.
  unfold ofType. intros ->. rewrite filter_In. intros [_ H].
  now apply str_eqb_eq.
Qed.

Lemma ofType_incl (t : option jsstring) (rs : list Relationship) (r : Relationship) :
  In r (ofType t rs) -> In r rs.
Proof.
  unfold ofType. destruct (given t); [|easy]. rewrite filter_In. tauto.
Qed.

Lemma queries_app (t1 t2 : list (Step Op ServiceError)) :
  queries (t1 ++ t2) = queries t1 ++ queries t2.
Proof.
  induction t1 as [|[X o r|n] t1 IH]; simpl; [reflexivity| |assumption].
  destruct o; simpl; now rewrite ?IH.
Qed.

Lemma sameStatus_eq (a b : Status) : sameStatus a b = true -> a = b.
Proof. destruct a, b; simpl; congruence. Qed.

Lemma listing_done (params : QueryParams) (s s1 : S)
    (out : Listing) (tr : list (Step Op ServiceError)) :
  exec env (listRelationships params) s = (Done out, s1, tr) ->
  queries tr = [queryOf params] /\
  writes tr = [] /\
  (hasMore out = true <-> cursor out <> None) /\
  (forall r, In r (listed out) ->
     (forall ty, given (qType params) = Some ty ->
        given (qEntityId params) <> None \/ qStatus params <> None ->
        type r = ty) /\
     (forall st, qStatus params = Some st ->
        given (qEntityId params) <> None -> status r = st)).
Proof.
  intros H.
  revert H. unfold listRelationships, queryOf.
  rewrite exec_andThen.
  set (pre := match given (qCursor params) with
              | Some c => _
              | None => _
              end).
  assert (Hpre : forall k s2 t1, exec env pre s = (Done k, s2, t1) ->
                                 writes t1 = [] /\ queries t1 = []).
  { subst pre. destruct (given (qCursor params)) as [c|].
    - intros k s2 t1. rewrite exec_andThen, exec_await.
      destruct (env (DecodeCursor c) s) as [[key|e] s3]; cbn [fst snd].
      + cbn. intros E. injection E as _ _ <-. now split.
      + discriminate.
    - cbn. intros k s2 t1 E. injection E as _ _ <-. now split. }
  destruct (exec env pre s) as [[[k|e] s2] t1] eqn:Epre; [|discriminate].
  destruct (Hpre _ _ _ eq_refl) as [Hw Hq]. clear Hpre.
  destruct (given (qEntityId params)) as [id|] eqn:Eid.
  - rewrite exec_andThen, exec_await.
    destruct (env (Query GSI1 (entityKey id) (limitOf params) k true) s2)
      as [[page|e] s3] eqn:Eq; cbn [fst snd]; [|discriminate].
    destruct (exec env (respond _ page) s3) as [[[o|e] s4] t2] eqn:Er; [|discriminate].
    intros E. injection E as <- _ <-.
    destruct (respond_done _ _ _ Er) as (Hl & Hm & Hw2 & Hq2).
    rewrite writes_app, queries_app. cbn [writes queries app].
    rewrite Hw, Hq, Hw2, Hq2. cbn [app].
    repeat split; try apply Hm; try assumption.
    + intros ty Ht _. rewrite Hl in H.
      assert (In r (ofType (qType params) (map payload (pageItems page)))).
      { revert H. unfold ofStatus. destruct (qStatus params); [|easy].
        rewrite filter_In. tauto. }
      eapply ofType_in; eassumption.
    + intros st Hs _. rewrite Hl in H. unfold ofStatus in H. rewrite Hs in H.
      apply filter_In in H. now apply sameStatus_eq.
  - destruct (qStatus params) as [st|] eqn:Est.
    + rewrite exec_andThen, exec_await.
      destruct (env (Query GSI2 (statusKey st) (limitOf params) k false) s2)
        as [[page|e] s3] eqn:Eq; cbn [fst snd]; [|discriminate].
      destruct (exec env (respond _ page) s3) as [[[o|e] s4] t2] eqn:Er; [|discriminate].
      intros E. injection E as <- _ <-.
      destruct (respond_done _ _ _ Er) as (Hl & Hm & Hw2 & Hq2).
      rewrite writes_app, queries_app. cbn [writes queries app].
    rewrite Hw, Hq, Hw2, Hq2. cbn [app].
      repeat split; try apply Hm; try assumption.
      * intros ty Ht _. rewrite Hl in H. eapply ofType_in; eassumption.
      * intros st' _ Hn. now elim Hn.
    + rewrite exec_andThen, exec_await.
      destruct (env (Query GSI2 (statusKey DRAFT) (limitOf params) k false) s2)
        as [[page|e] s3] eqn:Eq; cbn [fst snd]; [|discriminate].
      destruct (exec env (respond _ page) s3) as [[[o|e] s4] t2] eqn:Er; [|discriminate].
      intros E. injection E as <- _ <-.
      destruct (respond_done _ _ _ Er) as (Hl & Hm & Hw2 & Hq2).
      rewrite writes_app, queries_app. cbn [writes queries app].
    rewrite Hw, Hq, Hw2, Hq2. cbn [app].
      repeat split; try apply Hm; try assumption.
      * intros ty _ [Hn|Hn]; now elim Hn.
      * intros st' Hs. discriminate.
Qed.

(** X30. A listing that succeeds makes one query and writes nothing: by
    entity when an entity is given, else by the status given, else the
    drafts. hasMore holds exactly when a cursor is returned. A type filter
    is applied when an entity or a status is given, a status filter when
    an entity is given; with neither entity nor status the type asked for
    makes no difference. *)
Theorem listing_filters_by_its_query (params : QueryParams) (s s1 : S)
    (out : Listing) (tr : list (Step Op ServiceError)) :
  exec env (listRelationships params) s = (Done out, s1, tr) ->
  queries tr = [queryOf params] /\
  writes tr = [] /\
  (hasMore out = true <-> cursor out <> None) /\
  (forall r, In r (listed out) ->
     (forall ty, given (qType params) = Some ty ->
        given (qEntityId params) <> None \/ qStatus params <> None ->
        type r = ty) /\
     (forall st, qStatus params = Some st ->
        given (qEntityId params) <> None -> status r = st)) /\
  (given (qEntityId params) = None -> qStatus params = None ->
   forall t, listRelationships params
             = listRelationships {| qEntityId := qEntityId params;
                                    qType := t;
                                    qStatus := None;
                                    qLimit := qLimit params;
                                    qCursor := qCursor params |}).
Proof.
  intros H. destruct (listing_done _ _ H) as (H1 & H2 & H3 & H4).
  repeat split; try assumption; try apply H3; try (now apply H4).
  intros He Hs t. unfold listRelationships, limitOf.
  cbn [qEntityId qType qStatus qLimit qCursor].
  rewrite He, Hs. reflexivity.
Qed.

End Listing.

Lemma listing_filters_by_its_query_witness :
  exists out s1 tr,
    exec Relationships.stored
      (Relationships.listRelationships (Relationships.draftsOf (str "ent_2") (str "OWNS")))
      Relationships.orphanStore
    = (Done out, s1, tr)
    /\ Relationships.listed out = [Relationships.orphan]
    /\ Relationships.queries tr
       = [(Relationships.GSI1, Relationships.entityKey (str "ent_2"))]
    /\ Relationships.writes tr = []
    /\ Relationships.hasMore out = false.
Proof.
  eexists. eexists. eexists. split; [vm_compute; reflexivity|].
  destruct (@listing_filters_by_its_query Relationships.Store Relationships.stored
              (Relationships.draftsOf (str "ent_2") (str "OWNS"))
              Relationships.orphanStore _ _ _ eq_refl)
    as (Hq & Hw & _).
  split; [reflexivity|]. split; [exact Hq|]. split; [exact Hw|reflexivity].
Defined.
